(** * SSD MNASNet FPN feature extractors

    A shallow embedding of
    [object_detection/models/ssd_mnasnet_fpn_feature_extractor.py]: the two
    classes [SSDMNASNetA1FpnFeatureExtractor] and
    [SSDMNASNetB1FpnFeatureExtractor], their constructors, [preprocess] and
    [extract_features].

    The file is glue over TensorFlow, slim, [nets.mnasnet] and the object
    detection library.  What the Python code itself does (integer arithmetic,
    [range], list indexing, string formatting, Python floats, the order of the
    calls and the arguments they receive) is written out; the library calls are
    operations of an abstract [Framework], each of which can raise, and every
    call is recorded in a trace so that statements about "which layer is built
    with which arguments, in which order" can be made. *)

From Stdlib Require Import ZArith QArith List String Bool Lia DecimalString.
From Stdlib Require Import Floats.SpecFloat.
From Stdlib Require DecimalPos DecimalZ Finite.
Import ListNotations.
Local Open Scope Z_scope.

(* ================================================================== *)
(** * The Python fragment the source uses *)
(* ================================================================== *)

Module Py.

(** Exceptions.  [IndexError], [KeyError], [ValueError] and [OverflowError]
    are the ones Python itself raises in this file; a library call may raise
    any of them, or something else ([LibraryError]). *)
Inductive exn : Type :=
| IndexError
| KeyError (key : string)
| ValueError
| OverflowError
| LibraryError (what : string).

Inductive result (A : Type) : Type :=
| Ok (a : A)
| Raise (e : exn).
Arguments Ok {A} a.
Arguments Raise {A} e.

Definition is_ok {A} (r : result A) : bool :=
  match r with Ok _ => true | Raise _ => false end.

(** [range(a, b)]: the integers [a], [a+1], ..., [b-1]; empty when [b <= a]. *)
Definition range (a b : Z) : list Z :=
  map (fun i => a + Z.of_nat i) (seq 0 (Z.to_nat (b - a))).

(** [l[i]] on a list: a negative index counts from the end, and an index
    outside [-len(l), len(l))] raises [IndexError]. *)
Definition getitem {A} (l : list A) (i : Z) : result A :=
  let n := Z.of_nat (List.length l) in
  let j := if i <? 0 then i + n else i in
  if (j <? 0) || (n <=? j) then Raise IndexError
  else match nth_error l (Z.to_nat j) with
       | Some a => Ok a
       | None => Raise IndexError
       end.

(** A [dict] with string keys; [d[k]] raises [KeyError]. *)
Definition dict (V : Type) : Type := list (string * V).

Fixpoint dict_getitem {V} (d : dict V) (k : string) : result V :=
  match d with
  | [] => Raise (KeyError k)
  | (k', v) :: d' => if String.eqb k' k then Ok v else dict_getitem d' k
  end.

(** ['{}'.format(n)] for an [int]. *)
Definition str_of_int (n : Z) : string := NilZero.string_of_int (Z.to_int n).

(** ['top_down_{}'.format(s)] and ['bottom_up_Conv2d_{}'.format(n)]. *)
Definition format_top_down (s : string) : string :=
  String.append "top_down_" s.
Definition format_bottom_up_Conv2d (n : Z) : string :=
  String.append "bottom_up_Conv2d_" (str_of_int n).

(** Python's [float] is IEEE 754 binary64. *)
Definition float : Type := spec_float.
Definition prec : Z := 53.
Definition emax : Z := 1024.

(** [float(n)] for an [int]: rounded to nearest even, [OverflowError] when
    [n] is beyond the largest finite float. *)
Definition float_of_int (n : Z) : result float :=
  match binary_normalize prec emax n 0 false with
  | S754_infinity _ => Raise OverflowError
  | f => Ok f
  end.

(** An integer literal small enough to be a float as it is. *)
Definition float_lit (n : Z) : float := binary_normalize prec emax n 0 false.

Definition fmul (x y : float) : float := SFmul prec emax x y.
Definition fdiv (x y : float) : float := SFdiv prec emax x y.

(** [int(x)] for a [float]: truncation towards zero; [ValueError] on a NaN
    and [OverflowError] on an infinity. *)
Definition int_of_float (x : float) : result Z :=
  match x with
  | S754_zero _ => Ok 0
  | S754_infinity _ => Raise OverflowError
  | S754_nan => Raise ValueError
  | S754_finite s m e => Ok (cond_Zopp s (Z.shiftl (Z.pos m) e))
  end.

(** [n * x] with [n] an [int] and [x] a [float]: [n] is converted first. *)
Definition int_mul_float (n : Z) (x : float) : result float :=
  match float_of_int n with
  | Ok f => Ok (fmul f x)
  | Raise e => Raise e
  end.

End Py.
Export Py.

(* ================================================================== *)
(** * The libraries the source calls *)
(* ================================================================== *)

(** The types of the library objects that pass through the source. *)
Class FrameworkTypes : Type := {
  (** [tf.Tensor] *)
  tensor : Type;
  (** the graph under construction, with its variable store *)
  graph : Type;
  (** what [mnasnet.training_scope(...)] and [conv_hyperparams_fn()] return *)
  scope_dict : Type;
  (** the type of [mnasnet.MNASNET_A1_DEF] and [mnasnet.MNASNET_B1_DEF] *)
  conv_defs : Type
}.

Section Calls.
Context {FT : FrameworkTypes}.

(** One entry of the [slim.arg_scope] stack: either a scope dictionary
    ([slim.arg_scope(d)]) or a list of operations with keyword arguments
    ([slim.arg_scope([mnasnet.depth_multiplier_fn], min_depth=n)]). *)
Inductive arg_scope : Type :=
| arg_scope_dict (d : scope_dict)
| arg_scope_ops (ops : list string) (kwargs : list (string * Z))
| IdentityContextManager.

(** The [with] blocks a call is made under: the [tf.variable_scope]s
    (outermost first, each with its [reuse] argument) and the
    [slim.arg_scope]s and other context managers (outermost first). *)
Record scopes : Type := {
  variable_scope : list (string * option bool);
  arg_scopes : list arg_scope
}.

(** The library calls that build layers.  Every argument the source passes
    is kept. *)
Inductive op : Type :=
| pad_to_multiple (x : tensor) (multiple : Z)
| mnasnet_base (sc : scopes) (x : tensor) (final_endpoint : string)
    (depth_multiplier : float) (defs : conv_defs)
    (use_explicit_padding : bool)
| fpn_top_down_feature_maps (sc : scopes)
    (image_features : list (string * tensor)) (depth : Z)
    (use_depthwise use_explicit_padding : bool)
| fixed_padding (x : tensor) (kernel_size : Z)
| conv2d (sc : scopes) (x : tensor) (num_outputs : Z)
    (kernel_size : list Z) (stride : Z) (padding : string) (scope : string)
| separable_conv2d (sc : scopes) (x : tensor) (num_outputs : Z)
    (depth_multiplier : Z) (kernel_size : list Z) (stride : Z)
    (padding : string) (scope : string).

(** What each call returns: [mnasnet_base] a pair of the last tensor and the
    dictionary of end points, [fpn_top_down_feature_maps] a dictionary, the
    others a tensor. *)
Definition op_result (o : op) : Type :=
  match o with
  | mnasnet_base _ _ _ _ _ _ => (tensor * dict tensor)%type
  | fpn_top_down_feature_maps _ _ _ _ _ => dict tensor
  | _ => tensor
  end.

End Calls.

(** The libraries: constants, pure helpers, and the layer-building calls,
    which read and extend the graph and may raise. *)
Class Framework {FT : FrameworkTypes} : Type := {
  MNASNET_A1_DEF : conv_defs;
  MNASNET_B1_DEF : conv_defs;
  (** [static_shape.get_height] and [get_width] of the tensor's static shape;
      [None] when the dimension is not known statically *)
  image_height : tensor -> option Z;
  image_width : tensor -> option Z;
  (** [mnasnet.training_scope(is_training=..., bn_decay=...)] *)
  training_scope : option bool -> float -> scope_dict;
  (** [shape_utils.check_min_image_dim(min_dim, image_tensor)] *)
  check_min_image_dim : Z -> tensor -> result tensor;
  (** the layer-building calls *)
  run_op : forall o : op, graph -> graph * result (op_result o)
}.

(* ================================================================== *)
(** * Calls with a trace *)
(* ================================================================== *)

Section Monad.
Context {FT : FrameworkTypes} {FW : Framework}.

(** A library call that was made, with what it returned or raised. *)
Record event : Type := {
  ev_op : op;
  ev_result : result (op_result ev_op)
}.

(** The state threaded through [extract_features]: the graph, and the trace
    of the library calls made so far (oldest first). *)
Record state : Type := {
  st_graph : graph;
  st_trace : list event
}.

Definition M (A : Type) : Type := state -> state * result A.

Definition ret {A} (a : A) : M A := fun s => (s, Ok a).

Definition bind {A B} (m : M A) (k : A -> M B) : M B :=
  fun s => match m s with
           | (s', Ok a) => k a s'
           | (s', Raise e) => (s', Raise e)
           end.

(** A pure computation that may raise. *)
Definition lift {A} (r : result A) : M A := fun s => (s, r).

(** A library call: run on the graph, and recorded in the trace. *)
Definition call (o : op) : M (op_result o) :=
  fun s =>
    let (g', r) := run_op o (st_graph s) in
    ({| st_graph := g';
        st_trace := st_trace s ++ [{| ev_op := o; ev_result := r |}] |}, r).

(** [for x in xs: acc.append(f(x))], starting from an empty [acc]. *)
Fixpoint for_append {A B} (f : A -> M B) (xs : list A) : M (list B) :=
  match xs with
  | [] => ret []
  | x :: xs' =>
      bind (f x) (fun b => bind (for_append f xs') (fun bs => ret (b :: bs)))
  end.

(** [for x in xs: acc = body(acc, x)]. *)
Fixpoint for_fold {A S} (body : S -> A -> M S) (xs : list A) (acc : S) : M S :=
  match xs with
  | [] => ret acc
  | x :: xs' => bind (body acc x) (for_fold body xs')
  end.

End Monad.

Declare Scope py_scope.
Delimit Scope py_scope with py.
Notation "x <- m ;; k" := (bind m (fun x => k))
  (at level 61, m at next level, right associativity) : py_scope.
Notation "' pat <- m ;; k" := (bind m (fun x => match x with pat => k end))
  (at level 61, pat pattern, m at next level, right associativity) : py_scope.

(* ================================================================== *)
(** * The two feature extractor classes *)
(* ================================================================== *)

(** Elementwise tensor arithmetic with a Python float, as [preprocess] uses
    it: [c * x] and [x - c]. *)
Class TensorArith (T : Type) : Type := {
  tensor_rmul : float -> T -> T;
  tensor_sub : T -> float -> T
}.

Section Instance.
Context {FT : FrameworkTypes}.

(** The attributes of an instance.  The first nine are stored by the
    constructor of the base class [ssd_meta_arch.SSDFeatureExtractor] from the
    arguments of the same name; the last four by the constructors below. *)
Record extractor : Type := {
  _is_training : bool;
  _depth_multiplier : float;
  _min_depth : Z;
  _pad_to_multiple : Z;
  _conv_hyperparams_fn : unit -> scope_dict;
  _reuse_weights : option bool;
  _use_explicit_padding : bool;
  _use_depthwise : bool;
  _override_base_feature_extractor_hyperparams : bool;
  _fpn_min_level : Z;
  _fpn_max_level : Z;
  _additional_layer_depth : Z;
  _conv_defs : conv_defs
}.

(** The arguments of [__init__]. *)
Record init_args : Type := {
  is_training : bool;
  depth_multiplier : float;
  min_depth : Z;
  pad_to_multiple_arg : Z;
  conv_hyperparams_fn : unit -> scope_dict;
  fpn_min_level : Z;
  fpn_max_level : Z;
  additional_layer_depth : Z;
  reuse_weights : option bool;
  use_explicit_padding : bool;
  use_depthwise : bool;
  override_base_feature_extractor_hyperparams : bool
}.

(** A call of [__init__] that gives the five required arguments and leaves
    the others to their defaults. *)
Definition with_defaults (is_training : bool) (depth_multiplier : float)
    (min_depth pad_to_multiple : Z) (conv_hyperparams_fn : unit -> scope_dict)
    : init_args :=
  {| is_training := is_training;
     depth_multiplier := depth_multiplier;
     min_depth := min_depth;
     pad_to_multiple_arg := pad_to_multiple;
     conv_hyperparams_fn := conv_hyperparams_fn;
     fpn_min_level := 3;
     fpn_max_level := 7;
     additional_layer_depth := 256;
     reuse_weights := None;
     use_explicit_padding := false;
     use_depthwise := false;
     override_base_feature_extractor_hyperparams := false |}.

(** [0.9997], the [bn_decay] literal. *)
Definition bn_decay : float := fdiv (float_lit 9997) (float_lit 10000).

End Instance.

Module SSDMNASNetA1FpnFeatureExtractor.
Section Class.
Context {FT : FrameworkTypes} {FW : Framework}.
Local Open Scope py_scope.

Definition __init__ (a : init_args) : extractor :=
  {| _is_training := is_training a;
     _depth_multiplier := depth_multiplier a;
     _min_depth := min_depth a;
     _pad_to_multiple := pad_to_multiple_arg a;
     _conv_hyperparams_fn := conv_hyperparams_fn a;
     _reuse_weights := reuse_weights a;
     _use_explicit_padding := use_explicit_padding a;
     _use_depthwise := use_depthwise a;
     _override_base_feature_extractor_hyperparams :=
       override_base_feature_extractor_hyperparams a;
     _fpn_min_level := fpn_min_level a;
     _fpn_max_level := fpn_max_level a;
     _additional_layer_depth := additional_layer_depth a;
     _conv_defs := MNASNET_A1_DEF |}.

Definition preprocess {T} {TA : TensorArith T} (resized_inputs : T) : T :=
  tensor_sub (tensor_rmul (fdiv (float_lit 2) (float_lit 255)) resized_inputs)
             (float_lit 1).

Definition extract_features (self : extractor) (preprocessed_inputs : tensor)
    : M (list tensor) :=
  preprocessed_inputs <- lift (check_min_image_dim 33 preprocessed_inputs) ;;
  let scope := [("Mnasnet"%string, _reuse_weights self)] in
  let sc_base :=
    {| variable_scope := scope;
       arg_scopes :=
         [ arg_scope_dict (training_scope None bn_decay);
           arg_scope_ops ["mnasnet.depth_multiplier_fn"%string]
                         [("min_depth"%string, _min_depth self)];
           if _override_base_feature_extractor_hyperparams self
           then arg_scope_dict (_conv_hyperparams_fn self tt)
           else IdentityContextManager ] |} in
  padded <- call (pad_to_multiple preprocessed_inputs (_pad_to_multiple self)) ;;
  '(_, image_features) <-
     call (mnasnet_base sc_base padded "layer_18" (_depth_multiplier self)
             (_conv_defs self) (_use_explicit_padding self)) ;;
  let depth_fn := fun d : Z =>
    match int_mul_float d (_depth_multiplier self) with
    | Ok p => match int_of_float p with
              | Ok n => Ok (Z.max n (_min_depth self))
              | Raise e => Raise e
              end
    | Raise e => Raise e
    end in
  let sc_fpn :=
    {| variable_scope := scope ++ [("fpn"%string, _reuse_weights self)];
       arg_scopes := [arg_scope_dict (_conv_hyperparams_fn self tt)] |} in
  let feature_blocks :=
    ["layer_4"; "layer_7"; "layer_13"; "layer_18"]%string in
  let base_fpn_max_level := Z.min (_fpn_max_level self) 5 in
  feature_block_list <-
    for_append (fun level => lift (getitem feature_blocks (level - 2)))
               (range (_fpn_min_level self) (base_fpn_max_level + 1)) ;;
  inputs <-
    for_append (fun key => v <- lift (dict_getitem image_features key) ;;
                           ret (key, v))
               feature_block_list ;;
  depth <- lift (depth_fn (_additional_layer_depth self)) ;;
  fpn_features <-
    call (fpn_top_down_feature_maps sc_fpn inputs depth
            (_use_depthwise self) (_use_explicit_padding self)) ;;
  feature_maps <-
    for_append (fun level =>
                  b <- lift (getitem feature_blocks (level - 2)) ;;
                  lift (dict_getitem fpn_features (format_top_down b)))
               (range (_fpn_min_level self) (base_fpn_max_level + 1)) ;;
  b <- lift (getitem feature_blocks (base_fpn_max_level - 2)) ;;
  last_feature_map <- lift (dict_getitem fpn_features (format_top_down b)) ;;
  let padding :=
    (if _use_explicit_padding self then "VALID" else "SAME")%string in
  let kernel_size := 3 in
  '(_, feature_maps) <-
     for_fold
       (fun '(last_feature_map, feature_maps) i =>
          last_feature_map <-
            (if _use_explicit_padding self
             then call (fixed_padding last_feature_map kernel_size)
             else ret last_feature_map : M tensor) ;;
          num_outputs <- lift (depth_fn (_additional_layer_depth self)) ;;
          let scope_name :=
            format_bottom_up_Conv2d (i - base_fpn_max_level + 19) in
          last_feature_map <-
            (if _use_depthwise self
             then call (separable_conv2d sc_fpn last_feature_map num_outputs 1
                          [kernel_size; kernel_size] 2 padding scope_name)
             else call (conv2d sc_fpn last_feature_map num_outputs
                          [kernel_size; kernel_size] 2 padding scope_name)
             : M tensor) ;;
          (ret (last_feature_map, feature_maps ++ [last_feature_map])
           : M (tensor * list tensor)))
       (range (base_fpn_max_level + 1) (_fpn_max_level self + 1))
       (last_feature_map, feature_maps) ;;
  ret feature_maps.

End Class.
End SSDMNASNetA1FpnFeatureExtractor.

Module SSDMNASNetB1FpnFeatureExtractor.
Section Class.
Context {FT : FrameworkTypes} {FW : Framework}.
Local Open Scope py_scope.

Definition __init__ (a : init_args) : extractor :=
  {| _is_training := is_training a;
     _depth_multiplier := depth_multiplier a;
     _min_depth := min_depth a;
     _pad_to_multiple := pad_to_multiple_arg a;
     _conv_hyperparams_fn := conv_hyperparams_fn a;
     _reuse_weights := reuse_weights a;
     _use_explicit_padding := use_explicit_padding a;
     _use_depthwise := use_depthwise a;
     _override_base_feature_extractor_hyperparams :=
       override_base_feature_extractor_hyperparams a;
     _fpn_min_level := fpn_min_level a;
     _fpn_max_level := fpn_max_level a;
     _additional_layer_depth := additional_layer_depth a;
     _conv_defs := MNASNET_B1_DEF |}.

Definition preprocess {T} {TA : TensorArith T} (resized_inputs : T) : T :=
  tensor_sub (tensor_rmul (fdiv (float_lit 2) (float_lit 255)) resized_inputs)
             (float_lit 1).

Definition extract_features (self : extractor) (preprocessed_inputs : tensor)
    : M (list tensor) :=
  preprocessed_inputs <- lift (check_min_image_dim 33 preprocessed_inputs) ;;
  let scope := [("Mnasnet"%string, _reuse_weights self)] in
  let sc_base :=
    {| variable_scope := scope;
       arg_scopes :=
         [ arg_scope_dict (training_scope None bn_decay);
           arg_scope_ops ["mnasnet.depth_multiplier_fn"%string]
                         [("min_depth"%string, _min_depth self)];
           if _override_base_feature_extractor_hyperparams self
           then arg_scope_dict (_conv_hyperparams_fn self tt)
           else IdentityContextManager ] |} in
  padded <- call (pad_to_multiple preprocessed_inputs (_pad_to_multiple self)) ;;
  '(_, image_features) <-
     call (mnasnet_base sc_base padded "layer_19" (_depth_multiplier self)
             (_conv_defs self) (_use_explicit_padding self)) ;;
  let depth_fn := fun d : Z =>
    match int_mul_float d (_depth_multiplier self) with
    | Ok p => match int_of_float p with
              | Ok n => Ok (Z.max n (_min_depth self))
              | Raise e => Raise e
              end
    | Raise e => Raise e
    end in
  let sc_fpn :=
    {| variable_scope := scope ++ [("fpn"%string, _reuse_weights self)];
       arg_scopes := [arg_scope_dict (_conv_hyperparams_fn self tt)] |} in
  let feature_blocks :=
    ["layer_5"; "layer_8"; "layer_13"; "layer_19"]%string in
  let base_fpn_max_level := Z.min (_fpn_max_level self) 5 in
  feature_block_list <-
    for_append (fun level => lift (getitem feature_blocks (level - 2)))
               (range (_fpn_min_level self) (base_fpn_max_level + 1)) ;;
  inputs <-
    for_append (fun key => v <- lift (dict_getitem image_features key) ;;
                           ret (key, v))
               feature_block_list ;;
  depth <- lift (depth_fn (_additional_layer_depth self)) ;;
  fpn_features <-
    call (fpn_top_down_feature_maps sc_fpn inputs depth
            (_use_depthwise self) (_use_explicit_padding self)) ;;
  feature_maps <-
    for_append (fun level =>
                  b <- lift (getitem feature_blocks (level - 2)) ;;
                  lift (dict_getitem fpn_features (format_top_down b)))
               (range (_fpn_min_level self) (base_fpn_max_level + 1)) ;;
  b <- lift (getitem feature_blocks (base_fpn_max_level - 2)) ;;
  last_feature_map <- lift (dict_getitem fpn_features (format_top_down b)) ;;
  let padding :=
    (if _use_explicit_padding self then "VALID" else "SAME")%string in
  let kernel_size := 3 in
  '(_, feature_maps) <-
     for_fold
       (fun '(last_feature_map, feature_maps) i =>
          last_feature_map <-
            (if _use_explicit_padding self
             then call (fixed_padding last_feature_map kernel_size)
             else ret last_feature_map : M tensor) ;;
          num_outputs <- lift (depth_fn (_additional_layer_depth self)) ;;
          let scope_name :=
            format_bottom_up_Conv2d (i - base_fpn_max_level + 19) in
          last_feature_map <-
            (if _use_depthwise self
             then call (separable_conv2d sc_fpn last_feature_map num_outputs 1
                          [kernel_size; kernel_size] 2 padding scope_name)
             else call (conv2d sc_fpn last_feature_map num_outputs
                          [kernel_size; kernel_size] 2 padding scope_name)
             : M tensor) ;;
          (ret (last_feature_map, feature_maps ++ [last_feature_map])
           : M (tensor * list tensor)))
       (range (base_fpn_max_level + 1) (_fpn_max_level self + 1))
       (last_feature_map, feature_maps) ;;
  ret feature_maps.

End Class.
End SSDMNASNetB1FpnFeatureExtractor.

Module A1 := SSDMNASNetA1FpnFeatureExtractor.
Module B1 := SSDMNASNetB1FpnFeatureExtractor.

(* ================================================================== *)
(** * What the two classes share *)
(* ================================================================== *)

(** The two variants. *)
Inductive variant : Type := MNASNetA1 | MNASNetB1.

(** The two places where the bodies of [extract_features] differ. *)
Definition final_endpoint_of (v : variant) : string :=
  match v with MNASNetA1 => "layer_18" | MNASNetB1 => "layer_19" end.

Definition feature_blocks_of (v : variant) : list string :=
  match v with
  | MNASNetA1 => ["layer_4"; "layer_7"; "layer_13"; "layer_18"]
  | MNASNetB1 => ["layer_5"; "layer_8"; "layer_13"; "layer_19"]
  end%string.

Section Shared.
Context {FT : FrameworkTypes} {FW : Framework}.
Local Open Scope py_scope.

Definition init (v : variant) : init_args -> extractor :=
  match v with MNASNetA1 => A1.__init__ | MNASNetB1 => B1.__init__ end.

Definition extract_features (v : variant) : extractor -> tensor -> M (list tensor) :=
  match v with
  | MNASNetA1 => A1.extract_features
  | MNASNetB1 => B1.extract_features
  end.

(** [depth_fn = lambda d: max(int(d * self._depth_multiplier),
    self._min_depth)]. *)
Definition depth_fn (self : extractor) (d : Z) : result Z :=
  match int_mul_float d (_depth_multiplier self) with
  | Ok p => match int_of_float p with
            | Ok n => Ok (Z.max n (_min_depth self))
            | Raise e => Raise e
            end
  | Raise e => Raise e
  end.

(** [base_fpn_max_level = min(self._fpn_max_level, 5)]. *)
Definition base_fpn_max_level (self : extractor) : Z :=
  Z.min (_fpn_max_level self) 5.

(** The scopes the backbone is built under. *)
Definition sc_base (self : extractor) : scopes :=
  {| variable_scope := [("Mnasnet"%string, _reuse_weights self)];
     arg_scopes :=
       [ arg_scope_dict (training_scope None bn_decay);
         arg_scope_ops ["mnasnet.depth_multiplier_fn"%string]
                       [("min_depth"%string, _min_depth self)];
         if _override_base_feature_extractor_hyperparams self
         then arg_scope_dict (_conv_hyperparams_fn self tt)
         else IdentityContextManager ] |}.

(** The scopes the pyramid and the coarse layers are built under. *)
Definition sc_fpn (self : extractor) : scopes :=
  {| variable_scope := [("Mnasnet"%string, _reuse_weights self);
                        ("fpn"%string, _reuse_weights self)];
     arg_scopes := [arg_scope_dict (_conv_hyperparams_fn self tt)] |}.

Definition padding_of (self : extractor) : string :=
  if _use_explicit_padding self then "VALID" else "SAME".

End Shared.

(* ================================================================== *)
(** * Pure views of the loops *)
(* ================================================================== *)

(** The list built by a loop whose body is pure: the results in order, or
    the first exception. *)
Fixpoint map_result {A B} (f : A -> result B) (xs : list A) : result (list B) :=
  match xs with
  | [] => Ok []
  | x :: xs' =>
      match f x with
      | Ok b => match map_result f xs' with
                | Ok bs => Ok (b :: bs)
                | Raise e => Raise e
                end
      | Raise e => Raise e
      end
  end.

Section Views.
Context {FT : FrameworkTypes} {FW : Framework}.

(** A run from a given graph with an empty trace: the calls made, the graph
    reached, and the outcome. *)
Definition run {A} (m : M A) (g : graph) : list event * graph * result A :=
  let (s', r) := m {| st_graph := g; st_trace := [] |} in
  (st_trace s', st_graph s', r).

(** [feature_block_list] after the first loop. *)
Definition feature_block_list (v : variant) (self : extractor)
    : result (list string) :=
  map_result (fun level => getitem (feature_blocks_of v) (level - 2))
             (range (_fpn_min_level self) (base_fpn_max_level self + 1)).

(** [(key, image_features[key])]. *)
Definition keyed (image_features : dict tensor) (key : string)
    : result (string * tensor) :=
  match dict_getitem image_features key with
  | Ok t => Ok (key, t)
  | Raise e => Raise e
  end.

(** [fpn_features['top_down_{}'.format(feature_blocks[level - 2])]]. *)
Definition top_down_of (v : variant) (fpn_features : dict tensor) (level : Z)
    : result tensor :=
  match getitem (feature_blocks_of v) (level - 2) with
  | Ok b => dict_getitem fpn_features (format_top_down b)
  | Raise e => Raise e
  end.

(** A convolution of the coarse loop run on a graph. *)
Definition run_conv (self : extractor) (x : tensor) (num_outputs : Z)
    (scope_name : string) (g : graph) : graph * result tensor :=
  match _use_depthwise self with
  | true => run_op (separable_conv2d (sc_fpn self) x num_outputs 1 [3; 3] 2
                      (padding_of self) scope_name) g
  | false => run_op (conv2d (sc_fpn self) x num_outputs [3; 3] 2
                       (padding_of self) scope_name) g
  end.

(** The event such a convolution leaves in the trace. *)
Definition conv_event (self : extractor) (x : tensor) (num_outputs : Z)
    (scope_name : string) (r : result tensor) : event :=
  match _use_depthwise self with
  | true => {| ev_op := separable_conv2d (sc_fpn self) x num_outputs 1 [3; 3] 2
                          (padding_of self) scope_name;
               ev_result := r |}
  | false => {| ev_op := conv2d (sc_fpn self) x num_outputs [3; 3] 2
                           (padding_of self) scope_name;
                ev_result := r |}
  end.

(** The coarse loop, as the source describes it: starting from the last
    feature map, level [i] pads the previous map when explicit padding is on,
    convolves it under the scope [bottom_up_Conv2d_(i - base + 19)], and the
    output is both appended and carried to the next level. *)
Inductive coarse_run (self : extractor)
    : tensor -> list Z -> graph -> graph -> list event -> list tensor -> Prop :=
| coarse_done last g :
    coarse_run self last [] g g [] []
| coarse_same last i levels g g2 g' num_outputs m evs ms :
    _use_explicit_padding self = false ->
    depth_fn self (_additional_layer_depth self) = Ok num_outputs ->
    run_conv self last num_outputs
      (format_bottom_up_Conv2d (i - base_fpn_max_level self + 19)) g
      = (g2, Ok m) ->
    coarse_run self m levels g2 g' evs ms ->
    coarse_run self last (i :: levels) g g'
      (conv_event self last num_outputs
         (format_bottom_up_Conv2d (i - base_fpn_max_level self + 19)) (Ok m)
       :: evs)
      (m :: ms)
| coarse_padded last i levels g g1 g2 g' padded num_outputs m evs ms :
    _use_explicit_padding self = true ->
    run_op (fixed_padding last 3) g = (g1, Ok padded) ->
    depth_fn self (_additional_layer_depth self) = Ok num_outputs ->
    run_conv self padded num_outputs
      (format_bottom_up_Conv2d (i - base_fpn_max_level self + 19)) g1
      = (g2, Ok m) ->
    coarse_run self m levels g2 g' evs ms ->
    coarse_run self last (i :: levels) g g'
      ({| ev_op := fixed_padding last 3; ev_result := Ok padded |}
       :: conv_event self padded num_outputs
            (format_bottom_up_Conv2d (i - base_fpn_max_level self + 19)) (Ok m)
       :: evs)
      (m :: ms).

End Views.

(* ================================================================== *)
(** * The shape of a run *)
(* ================================================================== *)

Section RunShape.
Context {FT : FrameworkTypes} {FW : Framework}.
Local Open Scope py_scope.

(** The body of the coarse loop, as both classes have it. *)
Definition coarse_body (self : extractor)
    : tensor * list tensor -> Z -> M (tensor * list tensor) :=
  fun '(last_feature_map, feature_maps) i =>
    last_feature_map <-
      (if _use_explicit_padding self
       then call (fixed_padding last_feature_map 3)
       else ret last_feature_map : M tensor) ;;
    num_outputs <- lift (depth_fn self (_additional_layer_depth self)) ;;
    let scope_name :=
      format_bottom_up_Conv2d (i - base_fpn_max_level self + 19) in
    last_feature_map <-
      (if _use_depthwise self
       then call (separable_conv2d (sc_fpn self) last_feature_map num_outputs 1
                    [3; 3] 2 (padding_of self) scope_name)
       else call (conv2d (sc_fpn self) last_feature_map num_outputs
                    [3; 3] 2 (padding_of self) scope_name)
       : M tensor) ;;
    (ret (last_feature_map, feature_maps ++ [last_feature_map])
     : M (tensor * list tensor)).


(** A run of [extract_features] that returns, step by step: the calls it
    made with what they returned, and the list it returns. *)
Inductive successful_run (v : variant) (self : extractor) (x : tensor)
    (g : graph) : list event -> graph -> list tensor -> Prop :=
| successful_run_intro
    x1 padded g1 net image_features g2 keys inputs depth fpn_features g3
    fpn_maps last g' evs coarse :
    check_min_image_dim 33 x = Ok x1 ->
    run_op (pad_to_multiple x1 (_pad_to_multiple self)) g = (g1, Ok padded) ->
    run_op (mnasnet_base (sc_base self) padded (final_endpoint_of v)
              (_depth_multiplier self) (_conv_defs self)
              (_use_explicit_padding self)) g1
      = (g2, Ok (net, image_features)) ->
    feature_block_list v self = Ok keys ->
    map_result (keyed image_features) keys = Ok inputs ->
    depth_fn self (_additional_layer_depth self) = Ok depth ->
    run_op (fpn_top_down_feature_maps (sc_fpn self) inputs depth
              (_use_depthwise self) (_use_explicit_padding self)) g2
      = (g3, Ok fpn_features) ->
    map_result (top_down_of v fpn_features)
               (range (_fpn_min_level self) (base_fpn_max_level self + 1))
      = Ok fpn_maps ->
    top_down_of v fpn_features (base_fpn_max_level self) = Ok last ->
    coarse_run self last
      (range (base_fpn_max_level self + 1) (_fpn_max_level self + 1))
      g3 g' evs coarse ->
    successful_run v self x g
      ({| ev_op := pad_to_multiple x1 (_pad_to_multiple self);
          ev_result := Ok padded |}
       :: {| ev_op := mnasnet_base (sc_base self) padded (final_endpoint_of v)
                        (_depth_multiplier self) (_conv_defs self)
                        (_use_explicit_padding self);
             ev_result := Ok (net, image_features) |}
       :: {| ev_op := fpn_top_down_feature_maps (sc_fpn self) inputs depth
                        (_use_depthwise self) (_use_explicit_padding self);
             ev_result := Ok fpn_features |}
       :: evs)
      g' (fpn_maps ++ coarse).

End RunShape.

(* ================================================================== *)
(** * What the libraries are assumed to do *)
(* ================================================================== *)

Section Contracts.
Context {FT : FrameworkTypes} {FW : Framework}.

(** Modelled from the spec: [shape_utils.check_min_image_dim] is not part of
    the source.  On a tensor whose height and width are known statically it
    raises [ValueError] when one of them is below [min_dim], and returns the
    tensor unchanged otherwise. *)
Definition check_min_image_dim_spec : Prop :=
  forall min_dim x h w,
    image_height x = Some h -> image_width x = Some w ->
    check_min_image_dim min_dim x
    = if (h <? min_dim) || (w <? min_dim) then Raise ValueError else Ok x.

End Contracts.

(* ================================================================== *)
(** * Reading a trace *)
(* ================================================================== *)

Section Reading.
Context {FT : FrameworkTypes} {FW : Framework}.

(** The variable scope a convolution call is given, if the call is one. *)
Definition conv_scope (o : op) : option string :=
  match o with
  | conv2d _ _ _ _ _ _ scope => Some scope
  | separable_conv2d _ _ _ _ _ _ _ scope => Some scope
  | _ => None
  end.

(** The scopes of the convolution calls of a trace, in the order of the
    calls. *)
Definition conv_scopes (t : list event) : list string :=
  flat_map (fun ev => match conv_scope (ev_op ev) with
                      | Some s => [s]
                      | None => []
                      end) t.

(** The map that the [k]-th coarse convolution starts from: the last
    top-down map for the first, the previous coarse map after that. *)
Definition previous_map (last : tensor) (coarse : list tensor) (k : nat)
    : option tensor :=
  match k with
  | O => Some last
  | S k' => nth_error coarse k'
  end.

(** [p] is what the convolution is applied to when it starts from [prev]:
    [prev] itself, or [fixed_padding(prev, 3)] under explicit padding. *)
Definition conv_input (self : extractor) (t : list event) (prev p : tensor)
    : Prop :=
  if _use_explicit_padding self
  then In {| ev_op := fixed_padding prev 3; ev_result := Ok p |} t
  else p = prev.

End Reading.

(* ================================================================== *)
(** * A call without its tensors *)
(* ================================================================== *)

Section Signatures.
Context {FT : FrameworkTypes} {FW : Framework}.

(** What is left of a library call when the tensors it is applied to are
    forgotten: which call it is, the scopes it is made under and every
    other argument. *)
Inductive op_sig : Type :=
| sig_pad_to_multiple (multiple : Z)
| sig_mnasnet_base (sc : scopes) (final_endpoint : string)
    (depth_multiplier : float) (defs : conv_defs)
    (use_explicit_padding : bool)
| sig_fpn_top_down_feature_maps (sc : scopes) (keys : list string)
    (depth : Z) (use_depthwise use_explicit_padding : bool)
| sig_fixed_padding (kernel_size : Z)
| sig_conv2d (sc : scopes) (num_outputs : Z) (kernel_size : list Z)
    (stride : Z) (padding : string) (scope : string)
| sig_separable_conv2d (sc : scopes) (num_outputs : Z) (depth_multiplier : Z)
    (kernel_size : list Z) (stride : Z) (padding : string) (scope : string).

Definition signature (o : op) : op_sig :=
  match o with
  | pad_to_multiple _ multiple => sig_pad_to_multiple multiple
  | mnasnet_base sc _ final_endpoint dm defs uep =>
      sig_mnasnet_base sc final_endpoint dm defs uep
  | fpn_top_down_feature_maps sc image_features depth ud uep =>
      sig_fpn_top_down_feature_maps sc (map fst image_features) depth ud uep
  | fixed_padding _ kernel_size => sig_fixed_padding kernel_size
  | conv2d sc _ num_outputs kernel_size stride padding scope =>
      sig_conv2d sc num_outputs kernel_size stride padding scope
  | separable_conv2d sc _ num_outputs dm kernel_size stride padding scope =>
      sig_separable_conv2d sc num_outputs dm kernel_size stride padding scope
  end.

(** The signatures of the calls of a trace, in order. *)
Definition signatures (t : list event) : list op_sig :=
  map (fun ev => signature (ev_op ev)) t.

(** The convolution of the coarse loop without its input. *)
Definition conv_sig (self : extractor) (num_outputs : Z) (scope_name : string)
    : op_sig :=
  if _use_depthwise self
  then sig_separable_conv2d (sc_fpn self) num_outputs 1 [3; 3] 2
         (padding_of self) scope_name
  else sig_conv2d (sc_fpn self) num_outputs [3; 3] 2 (padding_of self)
         scope_name.

(** The calls of one round of the coarse loop. *)
Definition coarse_plan (self : extractor) (num_outputs : Z) (i : Z)
    : list op_sig :=
  (if _use_explicit_padding self then [sig_fixed_padding 3] else [])
  ++ [conv_sig self num_outputs
        (format_bottom_up_Conv2d (i - base_fpn_max_level self + 19))].

(** The calls of a whole run, computed from the attributes of the instance
    alone. *)
Definition layer_plan (v : variant) (self : extractor) : list op_sig :=
  sig_pad_to_multiple (_pad_to_multiple self)
  :: sig_mnasnet_base (sc_base self) (final_endpoint_of v)
       (_depth_multiplier self) (_conv_defs self) (_use_explicit_padding self)
  :: match feature_block_list v self,
           depth_fn self (_additional_layer_depth self) with
     | Ok keys, Ok depth =>
         sig_fpn_top_down_feature_maps (sc_fpn self) keys depth
           (_use_depthwise self) (_use_explicit_padding self)
         :: flat_map (coarse_plan self depth)
              (range (base_fpn_max_level self + 1) (_fpn_max_level self + 1))
     | _, _ => []
     end.

(** The call of [ev], coming after the calls [h], is the next one of the
    plan. *)
Definition follows_plan (v : variant) (self : extractor) (h : list event)
    (ev : event) : Prop :=
  exists rest,
    layer_plan v self = signatures h ++ signature (ev_op ev) :: rest.

End Signatures.

(* ================================================================== *)
(** * Every call of a run *)
(* ================================================================== *)

Section EveryCall.
Context {FT : FrameworkTypes} {FW : Framework}.

(** Every event of [evs] satisfies [P], which may look at the calls made
    before it ([h] is what preceded [evs]). *)
Inductive all_calls (P : list event -> event -> Prop)
    : list event -> list event -> Prop :=
| all_calls_nil h : all_calls P h []
| all_calls_cons h ev evs :
    P h ev -> all_calls P (h ++ [ev]) evs -> all_calls P h (ev :: evs).

(** Whatever [m] does from state [s], returning or raising, the calls it
    makes satisfy [P]. *)
Definition emits_from {A} (P : list event -> event -> Prop) (m : M A)
    (s : state) : Prop :=
  forall s' r, m s = (s', r) ->
    exists evs, st_trace s' = st_trace s ++ evs /\
                all_calls P (st_trace s) evs.

(** What [extract_features] of variant [v] on [self] and [x] passes to a
    library call, given the calls [h] made before it in the same run.  The
    first three calls are placed by what precedes them, the calls of the
    coarse loop by the plan. *)
Definition justified (v : variant) (self : extractor) (x : tensor)
    (h : list event) (ev : event) : Prop :=
  match ev_op ev with
  | pad_to_multiple x1 multiple =>
      h = [] /\
      check_min_image_dim 33 x = Ok x1 /\
      multiple = _pad_to_multiple self
  | mnasnet_base sc padded final_endpoint dm defs uep =>
      (exists x1,
         h = [{| ev_op := pad_to_multiple x1 (_pad_to_multiple self);
                 ev_result := Ok padded |}]) /\
      sc = sc_base self /\
      final_endpoint = final_endpoint_of v /\
      dm = _depth_multiplier self /\
      defs = _conv_defs self /\
      uep = _use_explicit_padding self
  | fpn_top_down_feature_maps sc inputs depth ud uep =>
      (exists x1 padded net image_features keys,
         h = [{| ev_op := pad_to_multiple x1 (_pad_to_multiple self);
                 ev_result := Ok padded |};
              {| ev_op := mnasnet_base (sc_base self) padded
                            (final_endpoint_of v) (_depth_multiplier self)
                            (_conv_defs self) (_use_explicit_padding self);
                 ev_result := Ok (net, image_features) |}] /\
         feature_block_list v self = Ok keys /\
         map_result (keyed image_features) keys = Ok inputs) /\
      sc = sc_fpn self /\
      depth_fn self (_additional_layer_depth self) = Ok depth /\
      ud = _use_depthwise self /\
      uep = _use_explicit_padding self
  | fixed_padding _ kernel_size =>
      follows_plan v self h ev /\
      kernel_size = 3 /\
      _use_explicit_padding self = true /\
      5 < _fpn_max_level self
  | conv2d sc _ num_outputs kernel_size stride padding scope =>
      follows_plan v self h ev /\
      sc = sc_fpn self /\
      depth_fn self (_additional_layer_depth self) = Ok num_outputs /\
      kernel_size = [3; 3] /\ stride = 2 /\ padding = padding_of self /\
      _use_depthwise self = false /\
      exists i, 5 < i <= _fpn_max_level self /\
                scope = format_bottom_up_Conv2d (i - 5 + 19)
  | separable_conv2d sc _ num_outputs dm kernel_size stride padding scope =>
      follows_plan v self h ev /\
      sc = sc_fpn self /\
      depth_fn self (_additional_layer_depth self) = Ok num_outputs /\
      dm = 1 /\
      kernel_size = [3; 3] /\ stride = 2 /\ padding = padding_of self /\
      _use_depthwise self = true /\
      exists i, 5 < i <= _fpn_max_level self /\
                scope = format_bottom_up_Conv2d (i - 5 + 19)
  end.

(** The feature map of pyramid level [level] in a run with trace [t]: up to
    level 5 the top-down map of the level's feature block, above it the
    output of the coarse convolution built for the level. *)
Inductive level_map (v : variant) (self : extractor) (t : list event)
    (level : Z) (m : tensor) : Prop :=
| level_top_down sc inputs depth ud uep fpn_features :
    level <= 5 ->
    In {| ev_op := fpn_top_down_feature_maps sc inputs depth ud uep;
          ev_result := Ok fpn_features |} t ->
    top_down_of v fpn_features level = Ok m ->
    level_map v self t level m
| level_coarse x n :
    5 < level ->
    In (conv_event self x n (format_bottom_up_Conv2d (level - 5 + 19)) (Ok m))
       t ->
    level_map v self t level m.

End EveryCall.


(* ================================================================== *)
(** * Calls that returned *)
(* ================================================================== *)

Section Returned.
Context {FT : FrameworkTypes} {FW : Framework}.

(** The call returned, rather than raised. *)
Definition returned (ev : event) : bool := is_ok (ev_result ev).

(** The end points that a call of [mnasnet_base] returned. *)
Definition end_points_of (ev : event) : option (dict tensor) :=
  match ev_op ev as o return result (op_result o) -> option (dict tensor) with
  | mnasnet_base _ _ _ _ _ _ => fun r =>
      match r with
      | Ok (_, end_points) => Some end_points
      | Raise _ => None
      end
  | _ => fun _ => None
  end (ev_result ev).

(** The inputs that a call of [fpn_top_down_feature_maps] was given and the
    dictionary it returned. *)
Definition pyramid_of (ev : event)
    : option (list (string * tensor) * dict tensor) :=
  match ev_op ev as o
        return result (op_result o)
               -> option (list (string * tensor) * dict tensor) with
  | fpn_top_down_feature_maps _ inputs _ _ _ => fun r =>
      match r with
      | Ok fpn_features => Some (inputs, fpn_features)
      | Raise _ => None
      end
  | _ => fun _ => None
  end (ev_result ev).

(** [d] has an entry for each of [keys]. *)
Definition has_keys (d : dict tensor) (keys : list string) : bool :=
  forallb (fun key => is_ok (dict_getitem d key)) keys.

(** The call returned; if it is a call of [mnasnet_base], with the four
    feature blocks of the variant among its end points; if it is a call of
    [fpn_top_down_feature_maps], with a [top_down_<key>] entry for the key
    of each of its inputs. *)
Definition call_returned (v : variant) (ev : event) : bool :=
  returned ev
  && match end_points_of ev with
     | Some end_points => has_keys end_points (feature_blocks_of v)
     | None => true
     end
  && match pyramid_of ev with
     | Some (inputs, fpn_features) =>
         has_keys fpn_features (map format_top_down (map fst inputs))
     | None => true
     end.

(** Every call of the trace returned in this way. *)
Definition calls_returned (v : variant) (t : list event) : bool :=
  forallb (call_returned v) t.

(** The first call of the coarse loop: on the last top-down map [last],
    [fixed_padding] under explicit padding, the convolution of level 6
    otherwise. *)
Definition first_coarse_call (self : extractor) (last : tensor)
    (num_outputs : Z) (res : result tensor) : event :=
  if _use_explicit_padding self
  then {| ev_op := fixed_padding last 3; ev_result := res |}
  else conv_event self last num_outputs (format_bottom_up_Conv2d 20) res.

End Returned.

(* ================================================================== *)
(** * A symbolic framework *)
(* ================================================================== *)

(** A framework in which tensors are the expressions that built them and
    every layer-building call returns.  It is used to run the two classes on
    concrete inputs. *)
Module Symbolic.

Inductive sym : Type :=
| Image (height width : Z)
| Layer (kind name : string) (input : sym)
| Merge (kind name : string) (input above : sym).

#[export] Instance types : FrameworkTypes := {
  tensor := sym;
  graph := list string;
  scope_dict := string;
  conv_defs := string
}.

(** The name a layer gets under the variable scopes of [sc]. *)
Definition scoped (sc : scopes) (name : string) : string :=
  fold_right (fun '(s, _) acc => String.append s (String.append "/" acc))
             name (variable_scope sc).

(** [layer_first], ..., [layer_(first + count - 1)]. *)
Definition layer_names (first : Z) (count : nat) : list string :=
  map (fun i => String.append "layer_" (str_of_int (first + Z.of_nat i)))
      (seq 0 count).

(** The names up to and including [final_endpoint]; [None] when it is not
    among them. *)
Fixpoint up_to (final_endpoint : string) (names : list string)
    : option (list string) :=
  match names with
  | [] => None
  | n :: names' =>
      if String.eqb n final_endpoint then Some [n]
      else match up_to final_endpoint names' with
           | Some l => Some (n :: l)
           | None => None
           end
  end.

(** The top-down pass: the last input is projected, every other one is
    merged with the map above it. *)
Fixpoint top_down (sc : scopes) (image_features : list (string * sym))
    : dict sym :=
  match image_features with
  | [] => []
  | (key, x) :: above =>
      let name := format_top_down key in
      match top_down sc above with
      | [] => [(name, Layer "projection" (scoped sc name) x)]
      | (name', y) :: rest =>
          (name, Merge "top_down" (scoped sc name) x y) :: (name', y) :: rest
      end
  end.

Definition sym_run_op (o : op) : list string -> list string * result (op_result o) :=
  match o return list string -> list string * result (op_result o) with
  | pad_to_multiple x multiple => fun g =>
      (g ++ ["pad_to_multiple"%string],
       Ok (Layer "pad_to_multiple" (str_of_int multiple) x))
  | mnasnet_base sc x final_endpoint _ defs _ => fun g =>
      match up_to final_endpoint (layer_names 1 19) with
      | Some names =>
          (g ++ map (scoped sc) names,
           Ok (Layer defs (scoped sc final_endpoint) x,
               map (fun n => (n, Layer defs (scoped sc n) x)) names))
      | None => (g, Raise ValueError)
      end
  | fpn_top_down_feature_maps sc image_features _ _ _ => fun g =>
      match image_features with
      | [] => (g, Raise IndexError)
      | _ =>
          (g ++ map (fun kv => scoped sc (format_top_down (fst kv)))
                    image_features,
           Ok (top_down sc image_features))
      end
  | fixed_padding x kernel_size => fun g =>
      (g ++ ["fixed_padding"%string],
       Ok (Layer "fixed_padding" (str_of_int kernel_size) x))
  | conv2d sc x _ _ _ _ scope => fun g =>
      (g ++ [scoped sc scope], Ok (Layer "conv2d" (scoped sc scope) x))
  | separable_conv2d sc x _ _ _ _ _ scope => fun g =>
      (g ++ [scoped sc scope],
       Ok (Layer "separable_conv2d" (scoped sc scope) x))
  end.

#[export] Instance framework : Framework := {
  MNASNET_A1_DEF := "MNASNET_A1_DEF"%string;
  MNASNET_B1_DEF := "MNASNET_B1_DEF"%string;
  image_height := fun x => match x with Image h _ => Some h | _ => None end;
  image_width := fun x => match x with Image _ w => Some w | _ => None end;
  training_scope := fun _ _ => "training_scope"%string;
  check_min_image_dim := fun min_dim x =>
    match x with
    | Image h w =>
        if (h <? min_dim) || (w <? min_dim) then Raise ValueError else Ok x
    | _ => Ok (Layer "Identity" "check_min_image_dim" x)
    end;
  run_op := sym_run_op
}.

(** [1.0] as a depth multiplier. *)
Definition one : float := float_lit 1.

(** An instance built with the default keyword arguments. *)
Definition default_args : init_args :=
  with_defaults true one 16 1 (fun _ => "conv_hyperparams"%string).

(** The same with other pyramid levels. *)
Definition with_levels (a : init_args) (lo hi : Z) : init_args :=
  {| is_training := is_training a;
     depth_multiplier := depth_multiplier a;
     min_depth := min_depth a;
     pad_to_multiple_arg := pad_to_multiple_arg a;
     conv_hyperparams_fn := conv_hyperparams_fn a;
     fpn_min_level := lo;
     fpn_max_level := hi;
     additional_layer_depth := additional_layer_depth a;
     reuse_weights := reuse_weights a;
     use_explicit_padding := use_explicit_padding a;
     use_depthwise := use_depthwise a;
     override_base_feature_extractor_hyperparams :=
       override_base_feature_extractor_hyperparams a |}.

(** The same with explicit padding and depthwise convolutions. *)
Definition with_padding (a : init_args) (explicit depthwise : bool)
    : init_args :=
  {| is_training := is_training a;
     depth_multiplier := depth_multiplier a;
     min_depth := min_depth a;
     pad_to_multiple_arg := pad_to_multiple_arg a;
     conv_hyperparams_fn := conv_hyperparams_fn a;
     fpn_min_level := fpn_min_level a;
     fpn_max_level := fpn_max_level a;
     additional_layer_depth := additional_layer_depth a;
     reuse_weights := reuse_weights a;
     use_explicit_padding := explicit;
     use_depthwise := depthwise;
     override_base_feature_extractor_hyperparams :=
       override_base_feature_extractor_hyperparams a |}.

(** Instances built with the default keyword arguments. *)
Definition a1_default : extractor := init MNASNetA1 default_args.
Definition b1_default : extractor := init MNASNetB1 default_args.

(** An instance with explicit padding, depthwise convolutions and the
    levels 2 to 8. *)
Definition b1_padded : extractor :=
  init MNASNetB1 (with_padding (with_levels default_args 2 8) true true).

(** An instance whose lowest level is below every feature block. *)
Definition a1_low : extractor :=
  init MNASNetA1 (with_levels default_args (-3) 7).

(** The parts of a run. *)
Definition trace_of {A} (x : list event * graph * result A) : list event :=
  fst (fst x).
Definition graph_of {A} (x : list event * graph * result A) : graph :=
  snd (fst x).
Definition result_of {A} (x : list event * graph * result A) : result A :=
  snd x.

(** The maps a run returned; none when it raised. *)
Definition maps_of (x : list event * graph * result (list tensor))
    : list tensor :=
  match result_of x with Ok maps => maps | Raise _ => [] end.

(** The inputs of the calls of [fpn_top_down_feature_maps] in a trace. *)
Definition fpn_inputs_of (t : list event) : list (string * tensor) :=
  flat_map (fun ev => match ev_op ev with
                      | fpn_top_down_feature_maps _ inputs _ _ _ => inputs
                      | _ => []
                      end) t.

(** The runs the examples look at. *)
Definition run_a1 : list event * graph * result (list tensor) :=
  run (extract_features MNASNetA1 a1_default (Image 64 64)) [].
Definition run_b1 : list event * graph * result (list tensor) :=
  run (extract_features MNASNetB1 b1_default (Image 64 64)) [].
Definition run_b1_padded : list event * graph * result (list tensor) :=
  run (extract_features MNASNetB1 b1_padded (Image 300 300)) [].
Definition run_a1_other : list event * graph * result (list tensor) :=
  run (extract_features MNASNetA1 a1_default (Image 100 80))
      ["already there"%string].

End Symbolic.

(* ================================================================== *)
(** * Tensors of IEEE 754 numbers *)
(* ================================================================== *)

(** [preprocess] is tensor arithmetic, and what it returns depends on how
    the numbers are rounded.  Here a tensor holds binary floating-point
    numbers of its dtype, a Python float is rounded to the dtype when it
    meets a tensor, and the product and the difference are each rounded to
    nearest even, as two separate operations. *)
Module IEEE.

(** A floating-point dtype: the precision in bits, with the implicit one,
    and the exponent of the infinities. *)
Record dtype : Type := {
  dt_prec : Z;
  dt_emax : Z
}.

Definition float16 : dtype := {| dt_prec := 11; dt_emax := 16 |}.
Definition bfloat16 : dtype := {| dt_prec := 8; dt_emax := 128 |}.
Definition float32 : dtype := {| dt_prec := 24; dt_emax := 128 |}.
Definition float64 : dtype := {| dt_prec := 53; dt_emax := 1024 |}.

(** A tensor: its dtype, its shape and its elements in row-major order. *)
Record ieee_tensor : Type := {
  t_dtype : dtype;
  t_shape : list Z;
  t_data : list spec_float
}.

(** A Python float as a number of the dtype. *)
Definition cast (dt : dtype) (c : float) : spec_float :=
  match c with
  | S754_finite s m e =>
      binary_normalize (dt_prec dt) (dt_emax dt) (cond_Zopp s (Z.pos m)) e s
  | _ => c
  end.

(** An integer as a number of the dtype. *)
Definition of_int (dt : dtype) (n : Z) : spec_float :=
  binary_normalize (dt_prec dt) (dt_emax dt) n 0 false.

(** [c * x] and [x - c] for a Python float [c] and a number [x] of the
    dtype. *)
Definition rmul (dt : dtype) (c : float) (x : spec_float) : spec_float :=
  SFmul (dt_prec dt) (dt_emax dt) (cast dt c) x.
Definition sub (dt : dtype) (x : spec_float) (c : float) : spec_float :=
  SFsub (dt_prec dt) (dt_emax dt) x (cast dt c).

#[export] Instance arith : TensorArith ieee_tensor := {
  tensor_rmul := fun c x =>
    {| t_dtype := t_dtype x;
       t_shape := t_shape x;
       t_data := map (rmul (t_dtype x) c) (t_data x) |};
  tensor_sub := fun x c =>
    {| t_dtype := t_dtype x;
       t_shape := t_shape x;
       t_data := map (fun v => sub (t_dtype x) v c) (t_data x) |}
}.

(** What [preprocess] does to one element: [(2.0 / 255.0) * v - 1.0] in the
    arithmetic of the dtype. *)
Definition pixel (dt : dtype) (v : spec_float) : spec_float :=
  sub dt (rmul dt (fdiv (float_lit 2) (float_lit 255)) v) (float_lit 1).

(** The number a floating-point datum stands for; none for an infinity or a
    NaN. *)
Definition value (x : spec_float) : option Q :=
  match x with
  | S754_zero _ => Some (Qmake 0 1)
  | S754_finite s m e =>
      Some match e with
           | Z0 => Qmake (cond_Zopp s (Z.pos m)) 1
           | Z.pos p => Qmake (cond_Zopp s (Z.pos m) * 2 ^ Z.pos p) 1
           | Z.neg p => Qmake (cond_Zopp s (Z.pos m)) (2 ^ p)
           end
  | _ => None
  end.

(** A datum of the dtype: finite numbers are in canonical form. *)
Definition valid (dt : dtype) (x : spec_float) : Prop :=
  valid_binary (dt_prec dt) (dt_emax dt) x = true.

(** [m * 2^e <= 2^k], for a mantissa [m] and exponents [e] and [k]. *)
Definition under (k m e : Z) : Prop := e <= k /\ m <= 2 ^ (k - e).

(** The smallest exponent of a format. *)
Definition emin_of (prec emax : Z) : Z := 3 - emax - prec.

(** A datum that is a zero or a finite number of magnitude at most [2^k]. *)
Definition bounded_by (k : Z) (x : spec_float) : Prop :=
  match x with
  | S754_zero _ => True
  | S754_finite _ m e => under k (Z.pos m) e
  | _ => False
  end.

Definition bounded_byb (k : Z) (x : spec_float) : bool :=
  match x with
  | S754_zero _ => true
  | S754_finite _ m e => (e <=? k) && (Z.pos m <=? 2 ^ (k - e))
  | _ => false
  end.

(** A datum that is a zero or a finite positive number. *)
Definition nonneg (x : spec_float) : Prop :=
  match x with
  | S754_zero _ => True
  | S754_finite s _ _ => s = false
  | _ => False
  end.

(** 255 as a number of the dtype: [255 * 2^(prec-8)] at exponent
    [8 - prec]. *)
Definition m255 (dt : dtype) : Z := 255 * 2 ^ (dt_prec dt - 8).
Definition e255 (dt : dtype) : Z := 8 - dt_prec dt.

(** The numeric facts about a dtype on which the range of [pixel] rests, as
    a test that is run on each dtype: 255 is a number of the dtype; the
    rounded [2/255] is at most [1/64] and its product with the number just
    below 255 is at most 2; 1 is a power of two at a non-positive exponent;
    and 255 itself is mapped into the unit range. *)
Definition dtype_ok (dt : dtype) : bool :=
  let p := dt_prec dt in
  let emax := dt_emax dt in
  match cast dt (fdiv (float_lit 2) (float_lit 255)), cast dt (float_lit 1) with
  | S754_finite false mc ec, S754_finite false mone eone =>
      (8 <=? p) && (emin_of p emax <=? e255 dt) && (emin_of p emax <=? 0) &&
      (1 <=? emax - p) &&
      (ec <=? -6) && (Z.pos mc <=? 2 ^ (- ec - 6)) &&
      (Z.pos mc * (m255 dt - 1) <=? 2 ^ (1 - ec - e255 dt)) &&
      (eone <=? 0) && (Z.pos mone =? 2 ^ (- eone)) &&
      bounded_byb 0 (pixel dt (S754_finite false (Z.to_pos (m255 dt)) (e255 dt)))
  | _, _ => false
  end.

(** A [float32] image batch of shape [1, 2, 2, 3]. *)
Definition example_image : ieee_tensor :=
  {| t_dtype := float32;
     t_shape := [1; 2; 2; 3];
     t_data :=
       map (of_int float32) [0; 255; 128; 1; 17; 200]
       ++ map (fun n => cast float32 (fdiv (float_lit n) (float_lit 3)))
              [1; 2; 100; 200; 764; 763] |}.

End IEEE.

(* ================================================================== *)
(** * More ways to read a run *)
(* ================================================================== *)

(** [math.isfinite]: neither an infinity nor a NaN. *)
Definition isfinite (x : float) : bool :=
  match x with
  | S754_zero _ | S754_finite _ _ _ => true
  | _ => false
  end.

(** No string occurs twice. *)
Fixpoint distinct (l : list string) : bool :=
  match l with
  | [] => true
  | a :: l' => negb (existsb (String.eqb a) l') && distinct l'
  end.

Section ReadingMore.
Context {FT : FrameworkTypes} {FW : Framework}.

(** The exception a library call raised, if it raised. *)
Definition raised (ev : event) : option exn :=
  match ev_result ev with
  | Ok _ => None
  | Raise e => Some e
  end.

(** Calls that all returned. *)
Definition quiet (evs : list event) : Prop :=
  Forall (fun ev => raised ev = None) evs.

(** The calls [evs] of a computation and its outcome [r] fit together: when
    it returned every call returned, and when it raised [e] either every
    call returned (the exception is Python's own or the size check's) or
    the last call raised [e] and the calls before it returned. *)
Definition ends_with_failure {A} (evs : list event) (r : result A) : Prop :=
  match r with
  | Ok _ => quiet evs
  | Raise e =>
      exists pre, quiet pre /\
                  (evs = pre \/
                   exists ev, evs = pre ++ [ev] /\ raised ev = Some e)
  end.

Definition stops_at_failure {A} (m : M A) : Prop :=
  forall s s' r, m s = (s', r) ->
    exists evs, st_trace s' = st_trace s ++ evs /\ ends_with_failure evs r.

(** The number of output channels a call asks for: the [depth] of the
    pyramid, the [num_outputs] of a convolution. *)
Definition layer_depth (o : op) : option Z :=
  match o with
  | fpn_top_down_feature_maps _ _ depth _ _ => Some depth
  | conv2d _ _ num_outputs _ _ _ _ => Some num_outputs
  | separable_conv2d _ _ num_outputs _ _ _ _ _ => Some num_outputs
  | _ => None
  end.

(** Where in [extract_features] a call is written: the padding of the
    input, the backbone, the pyramid, the coarse loop. *)
Definition stage (o : op) : nat :=
  match o with
  | pad_to_multiple _ _ => 0
  | mnasnet_base _ _ _ _ _ _ => 1
  | fpn_top_down_feature_maps _ _ _ _ _ => 2
  | _ => 3
  end.

Definition sig_stage (o : op_sig) : nat :=
  match o with
  | sig_pad_to_multiple _ => 0
  | sig_mnasnet_base _ _ _ _ _ => 1
  | sig_fpn_top_down_feature_maps _ _ _ _ _ => 2
  | _ => 3
  end.

(** The variable scopes of the convolutions among calls without their
    tensors. *)
Definition sig_scopes (l : list op_sig) : list string :=
  flat_map (fun o => match o with
                     | sig_conv2d _ _ _ _ _ scope => [scope]
                     | sig_separable_conv2d _ _ _ _ _ _ scope => [scope]
                     | _ => []
                     end) l.

(** The [with] blocks a call is made under; none for the two calls of
    [object_detection.utils.ops], which build no variables. *)
Definition op_scopes (o : op) : option scopes :=
  match o with
  | mnasnet_base sc _ _ _ _ _ => Some sc
  | fpn_top_down_feature_maps sc _ _ _ _ => Some sc
  | conv2d sc _ _ _ _ _ _ => Some sc
  | separable_conv2d sc _ _ _ _ _ _ _ => Some sc
  | pad_to_multiple _ _ | fixed_padding _ _ => None
  end.

(** The instance with another [is_training]. *)
Definition with_is_training (b : bool) (self : extractor) : extractor :=
  {| _is_training := b;
     _depth_multiplier := _depth_multiplier self;
     _min_depth := _min_depth self;
     _pad_to_multiple := _pad_to_multiple self;
     _conv_hyperparams_fn := _conv_hyperparams_fn self;
     _reuse_weights := _reuse_weights self;
     _use_explicit_padding := _use_explicit_padding self;
     _use_depthwise := _use_depthwise self;
     _override_base_feature_extractor_hyperparams :=
       _override_base_feature_extractor_hyperparams self;
     _fpn_min_level := _fpn_min_level self;
     _fpn_max_level := _fpn_max_level self;
     _additional_layer_depth := _additional_layer_depth self;
     _conv_defs := _conv_defs self |}.

(** The calls a run makes at most: three, and one or two for each level
    above 5. *)
Definition most_calls (self : extractor) : nat :=
  3 + (if _use_explicit_padding self then 2 else 1)
      * Z.to_nat (_fpn_max_level self - 5).

End ReadingMore.

(* ================================================================== *)
(** * More runs *)
(* ================================================================== *)

(** A framework like the symbolic one, except that the backbone and the
    pyramid generator return dictionaries given beforehand, whatever they
    are called with. *)
Module Canned.
Import Symbolic.

Section Canned.
Variables end_points fpn_features : dict sym.

Definition canned_run_op (o : op)
    : list string -> list string * result (op_result o) :=
  match o return list string -> list string * result (op_result o) with
  | mnasnet_base sc x final_endpoint _ defs _ => fun g =>
      (g ++ [scoped sc final_endpoint],
       Ok (Layer defs (scoped sc final_endpoint) x, end_points))
  | fpn_top_down_feature_maps sc _ _ _ _ => fun g =>
      (g ++ [scoped sc "top_down"], Ok fpn_features)
  | pad_to_multiple x multiple => sym_run_op (pad_to_multiple x multiple)
  | fixed_padding x kernel_size => sym_run_op (fixed_padding x kernel_size)
  | conv2d sc x n k stride padding scope =>
      sym_run_op (conv2d sc x n k stride padding scope)
  | separable_conv2d sc x n dm k stride padding scope =>
      sym_run_op (separable_conv2d sc x n dm k stride padding scope)
  end.

Definition framework : Framework := {|
  MNASNET_A1_DEF := "MNASNET_A1_DEF"%string;
  MNASNET_B1_DEF := "MNASNET_B1_DEF"%string;
  image_height := fun x => match x with Image h _ => Some h | _ => None end;
  image_width := fun x => match x with Image _ w => Some w | _ => None end;
  training_scope := fun _ _ => "training_scope"%string;
  check_min_image_dim := fun min_dim x =>
    match x with
    | Image h w =>
        if (h <? min_dim) || (w <? min_dim) then Raise ValueError else Ok x
    | _ => Ok (Layer "Identity" "check_min_image_dim" x)
    end;
  run_op := canned_run_op
|}.

End Canned.

(** The end points of the three feature blocks an A1 instance with the
    default levels reads. *)
Definition three_blocks : dict sym :=
  [("layer_7", Image 8 8); ("layer_13", Image 4 4);
   ("layer_18", Image 2 2)]%string.

End Canned.

Module Cases.
Import Symbolic.

(** An instance whose levels are all above the feature blocks. *)
Definition a1_high : extractor :=
  init MNASNetA1 (with_levels default_args 6 7).

(** An instance whose lowest level is below the documented ones, but not
    below every feature block. *)
Definition a1_wrapped : extractor :=
  init MNASNetA1 (with_levels default_args 1 7).

(** An instance whose levels are all below the documented ones: they index
    the four feature blocks from the end, each block once. *)
Definition a1_below : extractor :=
  init MNASNetA1 (with_levels default_args (-2) 1).

(** An instance whose depth multiplier is a NaN. *)
Definition b1_nan : extractor :=
  init MNASNetB1
    (with_defaults true S754_nan 16 1 (fun _ => "conv_hyperparams"%string)).

(** The call at position [i] of a trace; a call that was never made when
    the trace is shorter. *)
Definition call_at (t : list event) (i : nat) : event :=
  nth i t {| ev_op := pad_to_multiple (Image 0 0) 0;
             ev_result := Raise (LibraryError "no such call") |}.

Definition run_a1_high : list event * graph * result (list tensor) :=
  run (extract_features MNASNetA1 a1_high (Image 64 64)) [].
Definition run_a1_wrapped : list event * graph * result (list tensor) :=
  run (extract_features MNASNetA1 a1_wrapped (Image 64 64)) [].
Definition run_a1_below : list event * graph * result (list tensor) :=
  run (extract_features MNASNetA1 a1_below (Image 64 64)) [].
Definition run_b1_nan : list event * graph * result (list tensor) :=
  run (extract_features MNASNetB1 b1_nan (Image 64 64)) [].

End Cases.

(* ================================================================== *)
(** * The 8-bit pixel values *)
(* ================================================================== *)

Module Bytes.
Import IEEE.

(** What [preprocess] makes of the integers 0 to [n - 1] in a dtype. *)
Definition pixels (dt : dtype) (n : Z) : list spec_float :=
  map (fun k => pixel dt (of_int dt k)) (range 0 n).

(** Every element is below the ones after it. *)
Fixpoint increasing (l : list spec_float) : bool :=
  match l with
  | [] => true
  | a :: l' => forallb (SFltb a) l' && increasing l'
  end.

(** A [bfloat16] batch with one image of one pixel. *)
Definition one_pixel : ieee_tensor :=
  {| t_dtype := bfloat16;
     t_shape := [1; 1; 1; 3];
     t_data := map (of_int bfloat16) [253; 254; 255] |}.

(** A batch with elements that are not numbers. *)
Definition broken_pixel : ieee_tensor :=
  {| t_dtype := float32;
     t_shape := [1; 1; 1; 3];
     t_data := [S754_nan; S754_infinity false; S754_infinity true] |}.

End Bytes.
(* ================================================================== *)
(** * Stepping through a run *)
(* ================================================================== *)

Section Steps.
Context {FT : FrameworkTypes} {FW : Framework}.

Lemma bind_ok_inv {A B} (m : M A) (k : A -> M B) s s' b :
  bind m k s = (s', Ok b) ->
  exists s1 a, m s = (s1, Ok a) /\ k a s1 = (s', Ok b).
Proof.
  unfold bind. destruct (m s) as [s1 [a | e]]; intros H.
  - exists s1, a. split; [reflexivity | exact H].
  - discriminate H.
Qed.

Lemma bind_inv {A B} (m : M A) (k : A -> M B) s s' r :
  bind m k s = (s', r) ->
  (exists e, m s = (s', Raise e) /\ r = Raise e) \/
  (exists s1 a, m s = (s1, Ok a) /\ k a s1 = (s', r)).
Proof.
  unfold bind. destruct (m s) as [s1 [a | e]]; intros H.
  - right. exists s1, a. split; [reflexivity | exact H].
  - left. exists e. inversion H; subst. split; reflexivity.
Qed.

Lemma lift_inv {A} (r r' : result A) s s' :
  lift r s = (s', r') -> s' = s /\ r = r'.
Proof. unfold lift. intros H. inversion H. split; reflexivity. Qed.

Lemma ret_inv {A} (a : A) r s s' :
  ret a s = (s', r) -> s' = s /\ r = Ok a.
Proof. unfold ret. intros H. inversion H. split; reflexivity. Qed.

Lemma call_inv (o : op) s s' r :
  call o s = (s', r) ->
  exists g', run_op o (st_graph s) = (g', r) /\
             s' = {| st_graph := g';
                     st_trace := st_trace s
                                 ++ [{| ev_op := o; ev_result := r |}] |}.
Proof.
  unfold call. destruct (run_op o (st_graph s)) as [g' r0]. intros H.
  inversion H; subst. exists g'. split; reflexivity.
Qed.

(** A loop with a pure body leaves the state alone. *)
Lemma for_append_pure {A B} (f : A -> M B) (g : A -> result B) :
  (forall x s, f x s = (s, g x)) ->
  forall xs s, for_append f xs s = (s, map_result g xs).
Proof.
  intros Hf xs. induction xs as [| x xs IH]; intros s; simpl.
  - reflexivity.
  - unfold bind. rewrite Hf. destruct (g x) as [b | e]; [| reflexivity].
    rewrite IH. destruct (map_result g xs); reflexivity.
Qed.

Lemma for_append_lift {A B} (g : A -> result B) xs s :
  for_append (fun x => lift (g x)) xs s = (s, map_result g xs).
Proof. apply for_append_pure. reflexivity. Qed.

Lemma map_result_length {A B} (f : A -> result B) xs ys :
  map_result f xs = Ok ys -> List.length ys = List.length xs.
Proof.
  revert ys. induction xs as [| x xs IH]; simpl; intros ys H.
  - inversion H. reflexivity.
  - destruct (f x); [| discriminate].
    destruct (map_result f xs) as [bs |]; [| discriminate].
    inversion H; subst. simpl. f_equal. apply IH. reflexivity.
Qed.

Lemma map_result_nth {A B} (f : A -> result B) xs ys n x :
  map_result f xs = Ok ys -> nth_error xs n = Some x ->
  exists y, nth_error ys n = Some y /\ f x = Ok y.
Proof.
  revert ys n. induction xs as [| x0 xs IH]; simpl; intros ys n H Hn.
  - destruct n; discriminate Hn.
  - destruct (f x0) as [b |] eqn:Hb; [| discriminate].
    destruct (map_result f xs) as [bs |]; [| discriminate].
    inversion H; subst. destruct n as [| n]; simpl in *.
    + inversion Hn; subst. exists b. split; [reflexivity | exact Hb].
    + apply IH; [reflexivity | exact Hn].
Qed.

Lemma map_result_all_ok {A B} (f : A -> result B) xs :
  (forall x, In x xs -> exists y, f x = Ok y) ->
  exists ys, map_result f xs = Ok ys.
Proof.
  induction xs as [| x xs IH]; simpl; intros H.
  - exists []. reflexivity.
  - destruct (H x (or_introl eq_refl)) as [y Hy]. rewrite Hy.
    destruct IH as [ys Hys]; [intros z Hz; apply H; right; exact Hz |].
    rewrite Hys. exists (y :: ys). reflexivity.
Qed.

End Steps.

Section CoarseLoop.
Context {FT : FrameworkTypes} {FW : Framework}.
Local Open Scope py_scope.

Lemma conv_call_inv self x n scope_name s s' (r : result tensor) :
  (if _use_depthwise self
   then call (separable_conv2d (sc_fpn self) x n 1 [3; 3] 2
                (padding_of self) scope_name)
   else call (conv2d (sc_fpn self) x n [3; 3] 2 (padding_of self) scope_name)
   : M tensor) s = (s', r) ->
  run_conv self x n scope_name (st_graph s) = (st_graph s', r) /\
  st_trace s' = st_trace s ++ [conv_event self x n scope_name r].
Proof.
  unfold run_conv, conv_event.
  destruct (_use_depthwise self); intros H.
  - destruct (call_inv _ _ _ _ H) as (g' & Hrun & ->). simpl.
    split; [exact Hrun | reflexivity].
  - destruct (call_inv (conv2d (sc_fpn self) x n [3; 3] 2 (padding_of self)
                          scope_name) s s' r H) as (g' & Hrun & ->). simpl.
    split; [exact Hrun | reflexivity].
Qed.

Lemma coarse_loop_inv self levels :
  forall last fms s s' last' fms',
    for_fold (coarse_body self) levels (last, fms) s = (s', Ok (last', fms')) ->
    exists evs ms,
      coarse_run self last levels (st_graph s) (st_graph s') evs ms /\
      fms' = fms ++ ms /\
      st_trace s' = st_trace s ++ evs.
Proof.
  induction levels as [| i levels IH]; intros last fms s s' last' fms' H.
  - simpl in H. apply ret_inv in H. destruct H as [-> H]. inversion H; subst.
    exists [], []. repeat split.
    + constructor.
    + rewrite app_nil_r. reflexivity.
    + rewrite app_nil_r. reflexivity.
  - simpl in H. apply bind_ok_inv in H. destruct H as (s1 & [m fms1] & Hbody & Hrest).
    apply IH in Hrest. destruct Hrest as (evs & ms & Hrun & -> & Htr).
    unfold coarse_body in Hbody.
    apply bind_ok_inv in Hbody. destruct Hbody as (sa & p & Hpad & Hbody).
    apply bind_ok_inv in Hbody. destruct Hbody as (sb & n & Hdepth & Hbody).
    apply lift_inv in Hdepth. destruct Hdepth as [-> Hdepth].
    apply bind_ok_inv in Hbody. destruct Hbody as (sc & m0 & Hconv & Hret).
    apply ret_inv in Hret. destruct Hret as [-> Hret]. inversion Hret; subst.
    apply conv_call_inv in Hconv. destruct Hconv as [Hconv Htc].
    destruct (_use_explicit_padding self) eqn:Huep.
    + destruct (call_inv (fixed_padding last 3) _ _ _ Hpad) as (g1 & Hfp & ->).
      simpl in *.
      eexists (_ :: _ :: evs), (m0 :: ms). repeat split.
      * eapply coarse_padded; eauto.
      * rewrite <- app_assoc. reflexivity.
      * rewrite Htr, Htc. rewrite <- !app_assoc. reflexivity.
    + apply ret_inv in Hpad. destruct Hpad as [-> Hp]. inversion Hp; subst.
      eexists (_ :: evs), (m0 :: ms). repeat split.
      * eapply coarse_same; eauto.
      * rewrite <- app_assoc. reflexivity.
      * rewrite Htr, Htc. rewrite <- !app_assoc. reflexivity.
Qed.

End CoarseLoop.

(* ================================================================== *)
(** * The shape of a run that returns *)
(* ================================================================== *)

Section SuccessfulRun.
Context {FT : FrameworkTypes} {FW : Framework}.

Lemma keyed_pure (image_features : dict tensor) key s :
  bind (lift (dict_getitem image_features key)) (fun t => ret (key, t)) s
  = (s, keyed image_features key).
Proof.
  unfold bind, lift, ret, keyed.
  destruct (dict_getitem image_features key); reflexivity.
Qed.

Lemma top_down_pure v (fpn_features : dict tensor) level s :
  bind (lift (getitem (feature_blocks_of v) (level - 2)))
       (fun b => lift (dict_getitem fpn_features (format_top_down b))) s
  = (s, top_down_of v fpn_features level).
Proof.
  unfold bind, lift, top_down_of.
  destruct (getitem (feature_blocks_of v) (level - 2)); reflexivity.
Qed.

(** Steps through a run that returned [Ok], naming every intermediate
    result. *)
Ltac step_through V self H :=
  apply bind_ok_inv in H;
  let s0 := fresh "s" in let x1 := fresh "x1" in
  let Hcheck := fresh "Hcheck" in
  destruct H as (s0 & x1 & Hcheck & H);
  apply lift_inv in Hcheck; destruct Hcheck as [-> Hcheck];
  apply bind_ok_inv in H; destruct H as (?s & ?padded & ?Hpad & H);
  destruct (call_inv (pad_to_multiple x1 (_pad_to_multiple self)) _ _ _ Hpad)
    as (?g1 & ?Hpad' & ->);
  apply bind_ok_inv in H;
  destruct H as (?s & [?net ?image_features] & ?Hbb & H);
  destruct (call_inv (mnasnet_base _ _ _ _ _ _) _ _ _ Hbb)
    as (?g2 & ?Hbb' & ->);
  apply bind_ok_inv in H; destruct H as (?s3 & ?keys & ?Hkeys & H);
  rewrite for_append_lift in Hkeys;
  injection Hkeys as ?Hs Hkeys; subst s3;
  apply bind_ok_inv in H; destruct H as (?s4 & ?inputs & ?Hins & H);
  rewrite (for_append_pure _ _ (keyed_pure image_features)) in Hins;
  injection Hins as ?Hs Hins; subst s4;
  apply bind_ok_inv in H; destruct H as (?s5 & ?depth & ?Hdepth & H);
  apply lift_inv in Hdepth; destruct Hdepth as [-> Hdepth];
  apply bind_ok_inv in H; destruct H as (?s6 & ?fpn_features & ?Hfpn & H);
  destruct (call_inv (fpn_top_down_feature_maps _ _ _ _ _) _ _ _ Hfpn)
    as (?g3 & ?Hfpn' & ->);
  apply bind_ok_inv in H; destruct H as (?s7 & ?fpn_maps & ?Hmaps & H);
  rewrite (for_append_pure _ _ (top_down_pure V fpn_features)) in Hmaps;
  injection Hmaps as ?Hs Hmaps; subst s7;
  apply bind_ok_inv in H; destruct H as (?s8 & ?b & ?Hb & H);
  apply lift_inv in Hb; destruct Hb as [-> Hb];
  apply bind_ok_inv in H; destruct H as (?s9 & ?last & ?Hlast & H);
  apply lift_inv in Hlast; destruct Hlast as [-> Hlast];
  apply bind_ok_inv in H;
  destruct H as (?s10 & [?last' ?maps'] & ?Hloop & H);
  apply ret_inv in H; destruct H as [-> H]; injection H as <-;
  apply (coarse_loop_inv self) in Hloop;
  destruct Hloop as (?evs & ?coarse & ?Hrun & -> & ?Htr);
  assert (Hlast' : top_down_of V fpn_features (base_fpn_max_level self)
                   = Ok last)
    by (unfold top_down_of, base_fpn_max_level; simpl feature_blocks_of;
        rewrite Hb; exact Hlast).

Lemma extract_features_ok_inv v self x s s' maps :
  extract_features v self x s = (s', Ok maps) ->
  exists evs,
    successful_run v self x (st_graph s) evs (st_graph s') maps /\
    st_trace s' = st_trace s ++ evs.
Proof.
  intros H.
  assert (Hv : (v = MNASNetA1 \/ v = MNASNetB1)) by (destruct v; auto).
  destruct Hv as [-> | ->];
    unfold extract_features, A1.extract_features, B1.extract_features in H.
  - step_through MNASNetA1 self H.
    eexists. split.
    + exact (successful_run_intro MNASNetA1 self x (st_graph s) x1 padded g1
               net image_features g2 keys inputs depth fpn_features g3
               fpn_maps last _ evs coarse
               Hcheck Hpad' Hbb' Hkeys Hins Hdepth Hfpn' Hmaps Hlast' Hrun).
    + rewrite Htr. simpl. rewrite <- !app_assoc. reflexivity.
  - step_through MNASNetB1 self H.
    eexists. split.
    + exact (successful_run_intro MNASNetB1 self x (st_graph s) x1 padded g1
               net image_features g2 keys inputs depth fpn_features g3
               fpn_maps last _ evs coarse
               Hcheck Hpad' Hbb' Hkeys Hins Hdepth Hfpn' Hmaps Hlast' Hrun).
    + rewrite Htr. simpl. rewrite <- !app_assoc. reflexivity.
Qed.

Lemma bind_ok {A B} (m : M A) (k : A -> M B) s s1 a :
  m s = (s1, Ok a) -> bind m k s = k a s1.
Proof. unfold bind. intros ->. reflexivity. Qed.

Lemma call_run (o : op) s g' r :
  run_op o (st_graph s) = (g', r) ->
  call o s = ({| st_graph := g';
                 st_trace := st_trace s ++ [{| ev_op := o; ev_result := r |}] |},
              r).
Proof. unfold call. intros ->. reflexivity. Qed.

Lemma conv_call_run self x n scope_name s g' (r : result tensor) :
  run_conv self x n scope_name (st_graph s) = (g', r) ->
  (if _use_depthwise self
   then call (separable_conv2d (sc_fpn self) x n 1 [3; 3] 2
                (padding_of self) scope_name)
   else call (conv2d (sc_fpn self) x n [3; 3] 2 (padding_of self) scope_name)
   : M tensor) s
  = ({| st_graph := g';
        st_trace := st_trace s ++ [conv_event self x n scope_name r] |}, r).
Proof.
  unfold run_conv, conv_event. destruct (_use_depthwise self); intros H.
  - exact (call_run (separable_conv2d (sc_fpn self) x n 1 [3; 3] 2
                       (padding_of self) scope_name) s g' r H).
  - exact (call_run (conv2d (sc_fpn self) x n [3; 3] 2
                       (padding_of self) scope_name) s g' r H).
Qed.

Lemma coarse_loop_intro self last levels g g' evs ms :
  coarse_run self last levels g g' evs ms ->
  forall fms tr,
    for_fold (coarse_body self) levels (last, fms)
             {| st_graph := g; st_trace := tr |}
    = ({| st_graph := g'; st_trace := tr ++ evs |},
       Ok (fold_left (fun _ m => m) ms last, fms ++ ms)).
Proof.
  induction 1 as [last g
                 | last i levels g g2 g' n m evs ms Huep Hdepth Hconv Hrun IH
                 | last i levels g g1 g2 g' p n m evs ms Huep Hpad Hdepth Hconv
                     Hrun IH];
    intros fms tr.
  - simpl. unfold ret. rewrite !app_nil_r. reflexivity.
  - cbn [for_fold]. unfold coarse_body at 1.
    erewrite bind_ok.
    2:{ rewrite Huep.
        erewrite bind_ok by reflexivity.
        erewrite bind_ok by (unfold lift; rewrite Hdepth; reflexivity).
        erewrite bind_ok by (apply conv_call_run; exact Hconv).
        reflexivity. }
    rewrite IH. cbn [st_trace]. rewrite <- !app_assoc. cbn [app].
    reflexivity.
  - cbn [for_fold]. unfold coarse_body at 1.
    erewrite bind_ok.
    2:{ rewrite Huep.
        erewrite bind_ok
          by (refine (call_run (fixed_padding last 3) _ _ _ _); exact Hpad).
        erewrite bind_ok by (unfold lift; rewrite Hdepth; reflexivity).
        erewrite bind_ok by (apply conv_call_run; exact Hconv).
        reflexivity. }
    rewrite IH. cbn [st_trace]. rewrite <- !app_assoc. cbn [app].
    reflexivity.
Qed.

(** One step forward through a run: the first action returns [Ok]. *)
Ltac bind_step tac :=
  refine (eq_trans (bind_ok _ _ _ _ _ _) _); [ tac | cbv beta zeta ].

Ltac forward_run V self :=
  match goal with
  | Hcheck : check_min_image_dim 33 _ = Ok ?x1,
    Hpad : run_op (pad_to_multiple _ _) _ = _,
    Hbb : run_op (mnasnet_base _ _ _ _ _ _) _ = (_, Ok (_, ?image_features)),
    Hkeys : feature_block_list _ _ = _,
    Hins : map_result (keyed _) _ = _,
    Hdepth : depth_fn _ _ = _,
    Hfpn : run_op (fpn_top_down_feature_maps _ _ _ _ _) _ = (_, Ok ?fpn_features),
    Hmaps : map_result (top_down_of _ _) _ = _,
    Hb : getitem _ _ = Ok _,
    Hlast : dict_getitem _ _ = Ok _,
    Hrun : coarse_run _ _ _ _ _ _ _ |- _ =>
      bind_step ltac:(unfold lift; rewrite Hcheck; reflexivity);
      bind_step ltac:(refine (call_run (pad_to_multiple x1
                                          (_pad_to_multiple self)) _ _ _ _);
                      exact Hpad);
      bind_step ltac:(refine (call_run (mnasnet_base _ _ _ _ _ _) _ _ _ _);
                      exact Hbb);
      bind_step ltac:(rewrite for_append_lift; f_equal; exact Hkeys);
      bind_step ltac:(rewrite (for_append_pure _ _ (keyed_pure image_features));
                      f_equal; exact Hins);
      bind_step ltac:(unfold lift; f_equal; exact Hdepth);
      bind_step ltac:(refine (call_run (fpn_top_down_feature_maps _ _ _ _ _)
                                _ _ _ _);
                      exact Hfpn);
      bind_step ltac:(rewrite (for_append_pure _ _
                                 (top_down_pure V fpn_features));
                      f_equal; exact Hmaps);
      bind_step ltac:(unfold lift; f_equal; exact Hb);
      bind_step ltac:(unfold lift; f_equal; exact Hlast);
      bind_step ltac:(apply (coarse_loop_intro self); exact Hrun);
      unfold ret; cbn [st_trace]; rewrite <- !app_assoc; reflexivity
  end.

Lemma extract_features_ok_intro v self x s evs g' maps :
  successful_run v self x (st_graph s) evs g' maps ->
  extract_features v self x s
  = ({| st_graph := g'; st_trace := st_trace s ++ evs |}, Ok maps).
Proof.
  intros H.
  destruct H as [x1 padded g1 net image_features g2 keys inputs depth
                 fpn_features g3 fpn_maps last g' evs coarse
                 Hcheck Hpad Hbb Hkeys Hins Hdepth Hfpn Hmaps Hlast Hrun].
  unfold top_down_of in Hlast.
  destruct (getitem (feature_blocks_of v) (base_fpn_max_level self - 2))
    as [b |] eqn:Hb; [| discriminate].
  destruct v;
    cbv beta iota delta
      [extract_features A1.extract_features B1.extract_features].
  - forward_run MNASNetA1 self.
  - forward_run MNASNetB1 self.
Qed.

End SuccessfulRun.

(* ================================================================== *)
(** * Facts about the Python fragment *)
(* ================================================================== *)

Lemma range_length a b : List.length (range a b) = Z.to_nat (b - a).
Proof. unfold range. rewrite length_map, length_seq. reflexivity. Qed.

Lemma range_In a b i : In i (range a b) <-> a <= i < b.
Proof.
  unfold range. rewrite in_map_iff. split.
  - intros (n & <- & Hn). apply in_seq in Hn. lia.
  - intros H. exists (Z.to_nat (i - a)). split; [lia |].
    apply in_seq. lia.
Qed.

Lemma range_nth a b n :
  (n < Z.to_nat (b - a))%nat ->
  nth_error (range a b) n = Some (a + Z.of_nat n).
Proof.
  intros H. unfold range.
  rewrite nth_error_map, nth_error_seq.
  destruct (Nat.ltb_spec n (Z.to_nat (b - a))); [reflexivity | lia].
Qed.

Lemma range_empty a b : b <= a -> range a b = [].
Proof.
  intros H. unfold range. replace (Z.to_nat (b - a)) with 0%nat by lia.
  reflexivity.
Qed.

Lemma range_cons a b : a < b -> range a b = a :: range (a + 1) b.
Proof.
  intros H. unfold range.
  replace (Z.to_nat (b - a)) with (S (Z.to_nat (b - (a + 1)))) by lia.
  cbn [seq map]. f_equal; [lia |].
  rewrite <- seq_shift, map_map. apply map_ext. intros n. lia.
Qed.

(** Levels 2 to 5 index the four feature blocks from the front. *)
Lemma getitem_feature_blocks v level :
  2 <= level <= 5 ->
  exists b, getitem (feature_blocks_of v) (level - 2) = Ok b /\
            In b (feature_blocks_of v) /\
            nth_error (feature_blocks_of v) (Z.to_nat (level - 2)) = Some b.
Proof.
  intros H.
  assert (Hl : level = 2 \/ level = 3 \/ level = 4 \/ level = 5) by lia.
  destruct v; destruct Hl as [-> | [-> | [-> | ->]]];
    eexists; (split; [reflexivity | split; [simpl; tauto | reflexivity]]).
Qed.

(** Five below the front, or more, there is nothing to index. *)
Lemma getitem_feature_blocks_below v level :
  level < -2 -> getitem (feature_blocks_of v) (level - 2) = Raise IndexError.
Proof.
  intros H. unfold getitem.
  replace (Z.of_nat (List.length (feature_blocks_of v))) with 4
    by (destruct v; reflexivity).
  destruct (Z.ltb_spec (level - 2) 0); [| lia].
  destruct (Z.ltb_spec (level - 2 + 4) 0); [reflexivity | lia].
Qed.

Lemma dict_getitem_In {V} (d : dict V) k v :
  dict_getitem d k = Ok v -> In (k, v) d.
Proof.
  induction d as [| [k' v'] d IH]; simpl; [discriminate |].
  destruct (String.eqb_spec k' k) as [-> | Hne]; intros H.
  - inversion H; subst. left. reflexivity.
  - right. apply IH. exact H.
Qed.

(* ================================================================== *)
(** * Facts about the coarse loop *)
(* ================================================================== *)

Section CoarseFacts.
Context {FT : FrameworkTypes} {FW : Framework}.

Lemma conv_event_scope self x n scope_name r :
  conv_scope (ev_op (conv_event self x n scope_name r)) = Some scope_name.
Proof. unfold conv_event. destruct (_use_depthwise self); reflexivity. Qed.

Lemma coarse_run_length self last levels g g' evs ms :
  coarse_run self last levels g g' evs ms ->
  List.length ms = List.length levels.
Proof. induction 1; simpl; congruence. Qed.

Lemma coarse_run_scopes self last levels g g' evs ms :
  coarse_run self last levels g g' evs ms ->
  conv_scopes evs
  = map (fun i => format_bottom_up_Conv2d (i - base_fpn_max_level self + 19))
        levels.
Proof.
  induction 1 as [| ? ? ? ? ? ? ? ? ? ? ? ? ? ? IH | ? ? ? ? ? ? ? ? ? ? ? ? ? ? ? ? ? IH].
  - reflexivity.
  - cbn [conv_scopes flat_map map]. rewrite conv_event_scope.
    cbn [app]. f_equal. exact IH.
  - cbn [conv_scopes flat_map map ev_op conv_scope]. rewrite conv_event_scope.
    cbn [app]. f_equal. exact IH.
Qed.

Lemma conv_input_weaken self t t' prev p :
  (forall ev, In ev t -> In ev t') ->
  conv_input self t prev p -> conv_input self t' prev p.
Proof.
  unfold conv_input. intros Hsub.
  destruct (_use_explicit_padding self); [apply Hsub | exact (fun H => H)].
Qed.

Lemma coarse_run_nth self last levels g g' evs ms :
  coarse_run self last levels g g' evs ms ->
  forall k m,
    nth_error ms k = Some m ->
    exists i prev p n,
      nth_error levels k = Some i /\
      previous_map last ms k = Some prev /\
      conv_input self evs prev p /\
      depth_fn self (_additional_layer_depth self) = Ok n /\
      In (conv_event self p n
            (format_bottom_up_Conv2d (i - base_fpn_max_level self + 19))
            (Ok m)) evs.
Proof.
  induction 1 as
    [ last g
    | last i levels g g2 g' n m evs ms Huep Hdepth Hconv Hrun IH
    | last i levels g g1 g2 g' padded n m evs ms Huep Hpad Hdepth Hconv Hrun IH ];
    intros k m' Hk.
  - destruct k; discriminate Hk.
  - destruct k as [| k]; simpl in Hk.
    + inversion Hk; subst m'. exists i, last, last, n. repeat split.
      * unfold conv_input. rewrite Huep. reflexivity.
      * exact Hdepth.
      * left. reflexivity.
    + destruct (IH k m' Hk)
        as (i' & prev & p & n' & Hi & Hprev & Hin & Hn' & Hev).
      exists i', prev, p, n'. repeat split.
      * exact Hi.
      * destruct k; [exact Hprev | exact Hprev].
      * eapply conv_input_weaken; [| exact Hin]. intros ev H; right; exact H.
      * exact Hn'.
      * right. exact Hev.
  - destruct k as [| k]; simpl in Hk.
    + inversion Hk; subst m'. exists i, last, padded, n. repeat split.
      * unfold conv_input. rewrite Huep. left. reflexivity.
      * exact Hdepth.
      * right. left. reflexivity.
    + destruct (IH k m' Hk)
        as (i' & prev & p & n' & Hi & Hprev & Hin & Hn' & Hev).
      exists i', prev, p, n'. repeat split.
      * exact Hi.
      * destruct k; [exact Hprev | exact Hprev].
      * eapply conv_input_weaken; [| exact Hin].
        intros ev H; right; right; exact H.
      * exact Hn'.
      * right. right. exact Hev.
Qed.

(** With an empty range the loop does nothing. *)
Lemma coarse_run_nil self last g g' evs ms :
  coarse_run self last [] g g' evs ms -> evs = [] /\ ms = [] /\ g' = g.
Proof. intros H. inversion H; subst. repeat split. Qed.

Lemma conv_event_signature self x n scope_name r :
  signature (ev_op (conv_event self x n scope_name r))
  = conv_sig self n scope_name.
Proof.
  unfold conv_event, conv_sig. destruct (_use_depthwise self); reflexivity.
Qed.

(** The calls of the coarse loop without their tensors. *)
Lemma coarse_run_signatures self last levels g g' evs ms depth :
  coarse_run self last levels g g' evs ms ->
  depth_fn self (_additional_layer_depth self) = Ok depth ->
  signatures evs = flat_map (coarse_plan self depth) levels.
Proof.
  intros H Hd.
  induction H as
    [ last g
    | last i levels g g2 g' n m evs ms Huep Hdepth Hconv Hrun IH
    | last i levels g g1 g2 g' padded n m evs ms Huep Hpad Hdepth Hconv Hrun IH ].
  - reflexivity.
  - rewrite Hd in Hdepth. injection Hdepth as <-.
    cbn [signatures map flat_map]. unfold coarse_plan at 1. rewrite Huep.
    rewrite conv_event_signature. cbn [app]. f_equal. exact IH.
  - rewrite Hd in Hdepth. injection Hdepth as <-.
    cbn [signatures map flat_map]. unfold coarse_plan at 1. rewrite Huep.
    rewrite conv_event_signature. cbn [app ev_op signature]. f_equal. f_equal.
    exact IH.
Qed.

Lemma conv_scopes_none t :
  (forall ev, In ev t -> conv_scope (ev_op ev) = None) -> conv_scopes t = [].
Proof.
  induction t as [| ev t IH]; intros H; [reflexivity |].
  cbn [conv_scopes flat_map]. rewrite (H ev (or_introl eq_refl)).
  apply IH. intros ev' Hin. apply H. right. exact Hin.
Qed.

End CoarseFacts.

(* ================================================================== *)
(** * Every call of a run, returning or raising *)
(* ================================================================== *)

Section EveryCallFacts.
Context {FT : FrameworkTypes} {FW : Framework}.

Lemma all_calls_app P h l1 l2 :
  all_calls P h l1 -> all_calls P (h ++ l1) l2 -> all_calls P h (l1 ++ l2).
Proof.
  intros H1. revert l2. induction H1 as [h | h ev evs Hev Hevs IH]; intros l2 H2.
  - rewrite app_nil_r in H2. exact H2.
  - simpl. constructor; [exact Hev |]. apply IH.
    rewrite <- app_assoc. exact H2.
Qed.

Lemma all_calls_In P h evs ev :
  all_calls P h evs -> In ev evs ->
  exists pre post, evs = pre ++ ev :: post /\ P (h ++ pre) ev.
Proof.
  induction 1 as [h | h ev0 evs Hev Hevs IH]; intros Hin.
  - destruct Hin.
  - destruct Hin as [-> | Hin].
    + exists [], evs. rewrite app_nil_r. split; [reflexivity | exact Hev].
    + destruct (IH Hin) as (pre & post & -> & HP).
      exists (ev0 :: pre), post. split; [reflexivity |].
      rewrite <- app_assoc in HP. exact HP.
Qed.

Lemma emits_pure {A} P (m : M A) s r :
  m s = (s, r) -> emits_from P m s.
Proof.
  intros H s' r' H'. rewrite H in H'. inversion H'; subst.
  exists []. rewrite app_nil_r. split; [reflexivity | constructor].
Qed.

Lemma emits_ret {A} P (a : A) s : emits_from P (ret a) s.
Proof. apply (emits_pure P (ret a) s (Ok a)). reflexivity. Qed.

Lemma emits_lift {A} P (r : result A) s : emits_from P (lift r) s.
Proof. apply (emits_pure P (lift r) s r). reflexivity. Qed.

Lemma emits_call P (o : op) s :
  (forall r, P (st_trace s) {| ev_op := o; ev_result := r |}) ->
  emits_from P (call o) s.
Proof.
  intros HP s' r H. apply call_inv in H. destruct H as (g' & _ & ->).
  eexists. split; [reflexivity |].
  constructor; [apply HP | constructor].
Qed.

Lemma emits_bind {A B} P (m : M A) (k : A -> M B) s :
  emits_from P m s ->
  (forall a s1, m s = (s1, Ok a) -> emits_from P (k a) s1) ->
  emits_from P (bind m k) s.
Proof.
  intros Hm Hk s' r H. apply bind_inv in H.
  destruct H as [(e & H & ->) | (s1 & a & H1 & H2)].
  - exact (Hm _ _ H).
  - destruct (Hm _ _ H1) as (evs1 & Ht1 & Hall1).
    destruct (Hk a s1 H1 _ _ H2) as (evs2 & Ht2 & Hall2).
    exists (evs1 ++ evs2). split.
    + rewrite Ht2, Ht1, app_assoc. reflexivity.
    + apply all_calls_app; [exact Hall1 |]. rewrite <- Ht1. exact Hall2.
Qed.

Lemma emits_for_fold {A S} P (body : S -> A -> M S) xs :
  (forall acc i s, In i xs -> emits_from P (body acc i) s) ->
  forall acc s, emits_from P (for_fold body xs acc) s.
Proof.
  induction xs as [| i xs IH]; intros Hbody acc s; simpl.
  - apply emits_ret.
  - apply emits_bind.
    + apply Hbody. left. reflexivity.
    + intros acc' s1 _. apply IH. intros acc0 j s0 Hj. apply Hbody.
      right. exact Hj.
Qed.

End EveryCallFacts.

Section EveryCallOfExtractFeatures.
Context {FT : FrameworkTypes} {FW : Framework}.

(** The loop body only runs for levels above 5. *)
Lemma coarse_level_bounds max i :
  In i (range (Z.min max 5 + 1) (max + 1)) ->
  5 < i <= max /\ i - Z.min max 5 + 19 = i - 5 + 19.
Proof. intros H. apply range_In in H. lia. Qed.

Lemma keyed_inv (image_features : dict tensor) key kv :
  keyed image_features key = Ok kv ->
  fst kv = key /\ dict_getitem image_features key = Ok (snd kv).
Proof.
  unfold keyed. destruct (dict_getitem image_features key); [| discriminate].
  intros H. injection H as <-. split; reflexivity.
Qed.

Lemma map_result_keyed_fst (image_features : dict tensor) keys inputs :
  map_result (keyed image_features) keys = Ok inputs -> map fst inputs = keys.
Proof.
  revert inputs. induction keys as [| k keys IH]; simpl; intros inputs H.
  - injection H as <-. reflexivity.
  - destruct (keyed image_features k) as [kv |] eqn:Hk; [| discriminate].
    destruct (map_result (keyed image_features) keys) as [kvs |];
      [| discriminate].
    injection H as <-. apply keyed_inv in Hk. destruct Hk as [Hk _].
    simpl. rewrite Hk, (IH kvs eq_refl). reflexivity.
Qed.

Lemma signatures_app (t1 t2 : list event) :
  signatures (t1 ++ t2) = signatures t1 ++ signatures t2.
Proof. apply map_app. Qed.

(** The calls of the coarse loop, from a state whose trace the plan
    continues with the rounds of the loop. *)
Lemma coarse_loop_calls v self x depth levels :
  depth_fn self (_additional_layer_depth self) = Ok depth ->
  (forall i, In i levels ->
     5 < i <= _fpn_max_level self /\
     i - base_fpn_max_level self + 19 = i - 5 + 19) ->
  forall acc s tail,
    layer_plan v self
    = signatures (st_trace s) ++ flat_map (coarse_plan self depth) levels
      ++ tail ->
    emits_from (justified v self x) (for_fold (coarse_body self) levels acc) s.
Proof.
  intros Hd. induction levels as [| i levels IH]; intros Hl [last fms] s tail Hplan.
  - apply emits_ret.
  - cbn [for_fold]. destruct (Hl i (or_introl eq_refl)) as [Hi Hscope].
    apply emits_bind.
    + (* one round *)
      unfold coarse_body. cbn [flat_map] in Hplan.
      unfold coarse_plan at 1 in Hplan.
      apply emits_bind.
      * destruct (_use_explicit_padding self) eqn:Huep; [| apply emits_ret].
        refine (emits_call _ (fixed_padding _ _) _ _). intros r. red.
        cbn [ev_op]. split; [| repeat split; [exact Huep | lia]].
        eexists. rewrite Hplan. cbn [app signature]. reflexivity.
      * intros p s1 Hpad. apply emits_bind; [apply emits_lift |].
        intros n s2 Hn. apply lift_inv in Hn. destruct Hn as [-> Hn].
        rewrite Hd in Hn. injection Hn as <-.
        assert (Htrace :
                  signatures (st_trace s1)
                  = signatures (st_trace s)
                    ++ (if _use_explicit_padding self
                        then [sig_fixed_padding 3] else [])).
        { destruct (_use_explicit_padding self).
          - destruct (call_inv (fixed_padding last 3) _ _ _ Hpad)
              as (g1 & _ & ->).
            cbn [st_trace]. rewrite signatures_app. reflexivity.
          - apply ret_inv in Hpad. destruct Hpad as [-> _].
            rewrite app_nil_r. reflexivity. }
        apply emits_bind; [| intros; apply emits_ret].
        assert (Hfollow : forall ev,
                  signature (ev_op ev)
                  = conv_sig self depth
                      (format_bottom_up_Conv2d
                         (i - base_fpn_max_level self + 19)) ->
                  follows_plan v self (st_trace s1) ev).
        { intros ev Hev. eexists. rewrite Hplan, Htrace, Hev.
          rewrite <- !app_assoc. cbn [app]. reflexivity. }
        unfold conv_sig in Hfollow.
        destruct (_use_depthwise self) eqn:Hud.
        -- refine (emits_call _ (separable_conv2d _ _ _ _ _ _ _ _) _ _).
           intros r. red. cbn [ev_op].
           split; [apply Hfollow; reflexivity |].
           repeat split; try assumption.
           exists i. split; [exact Hi | rewrite Hscope; reflexivity].
        -- refine (emits_call _ (conv2d _ _ _ _ _ _ _) _ _).
           intros r. red. cbn [ev_op].
           split; [apply Hfollow; reflexivity |].
           repeat split; try assumption.
           exists i. split; [exact Hi | rewrite Hscope; reflexivity].
    + (* the rounds after it *)
      intros [last' fms'] s1 Hbody.
      assert (Hone : for_fold (coarse_body self) [i] (last, fms) s
                     = (s1, Ok (last', fms'))).
      { cbn [for_fold]. unfold bind at 1. rewrite Hbody. reflexivity. }
      apply coarse_loop_inv in Hone.
      destruct Hone as (evs & ms & Hrun & _ & Htr).
      pose proof (coarse_run_signatures _ _ _ _ _ _ _ _ Hrun Hd) as Hsig.
      cbn [flat_map] in Hsig. rewrite app_nil_r in Hsig.
      apply (IH (fun j Hj => Hl j (or_intror Hj)) (last', fms') s1 tail).
      rewrite Htr, signatures_app, Hsig, Hplan.
      cbn [flat_map]. rewrite <- !app_assoc. reflexivity.
Qed.

Ltac pure_step lem :=
  apply emits_bind;
  [ eapply emits_pure; apply lem
  | let a := fresh "a" in let s1 := fresh "s" in let H := fresh "H" in
    intros a s1 H; rewrite lem in H; injection H as <- H; cbv beta zeta ].

Ltac lift_step :=
  apply emits_bind;
  [ apply emits_lift
  | let a := fresh "a" in let s1 := fresh "s" in let H := fresh "H" in
    intros a s1 H; apply lift_inv in H; destruct H as [-> H];
    cbv beta zeta ].

Ltac walk V self Hs :=
  cbv beta iota delta
    [extract_features A1.extract_features B1.extract_features];
  (* check_min_image_dim *)
  lift_step;
  (* pad_to_multiple *)
  apply emits_bind;
  [ refine (emits_call _ (pad_to_multiple _ _) _ _); intros ?; red;
    cbn [ev_op]; rewrite Hs; repeat split; auto
  | let padded := fresh "padded" in let s1 := fresh "s" in
    let H := fresh "Hpad" in
    intros padded s1 H;
    destruct (call_inv (pad_to_multiple _ _) _ _ _ H) as (? & _ & ->);
    cbv beta zeta ];
  (* mnasnet_base *)
  apply emits_bind;
  [ refine (emits_call _ (mnasnet_base _ _ _ _ _ _) _ _); intros ?; red;
    cbn [ev_op st_trace]; rewrite Hs;
    split; [eexists; reflexivity | repeat split]
  | let s1 := fresh "s" in let H := fresh "Hbb" in
    intros [? ?image_features] s1 H;
    destruct (call_inv (mnasnet_base _ _ _ _ _ _) _ _ _ H) as (? & _ & ->);
    cbv beta zeta ];
  (* feature_block_list, inputs, depth *)
  apply emits_bind;
  [ eapply emits_pure; apply for_append_lift
  | let a := fresh "keys" in let s1 := fresh "s" in let H := fresh "Hkeys" in
    intros a s1 H; rewrite for_append_lift in H; injection H as <- H;
    cbv beta zeta ];
  match goal with
  | image_features : dict tensor |- _ =>
      pure_step (for_append_pure _ _ (keyed_pure image_features))
  end;
  lift_step;
  (* fpn_top_down_feature_maps *)
  apply emits_bind;
  [ refine (emits_call _ (fpn_top_down_feature_maps _ _ _ _ _) _ _);
    intros ?; red; cbn [ev_op st_trace]; rewrite Hs;
    split; [do 5 eexists; repeat split; eassumption | repeat split; assumption]
  | let s1 := fresh "s" in let H := fresh "Hfpn" in
    let fpn_features := fresh "fpn_features" in
    intros fpn_features s1 H;
    destruct (call_inv (fpn_top_down_feature_maps _ _ _ _ _) _ _ _ H)
      as (? & _ & ->);
    cbv beta zeta;
    pure_step (for_append_pure _ _ (top_down_pure V fpn_features)) ];
  lift_step; lift_step;
  (* the coarse loop *)
  apply emits_bind;
  [ match goal with
    | Hk : map_result (fun level => getitem _ (level - 2)) _ = Ok ?keys,
      Hi : map_result (keyed _) ?keys = Ok _ |- _ =>
        eapply (coarse_loop_calls V self);
        [ eassumption
        | intros ? Hl; exact (coarse_level_bounds _ _ Hl)
        | cbn [st_trace]; rewrite Hs;
          cbn [app signatures map ev_op signature];
          rewrite (map_result_keyed_fst _ _ _ Hi);
          unfold layer_plan, feature_block_list, base_fpn_max_level;
          simpl feature_blocks_of; rewrite Hk;
          match goal with
          | Hd : _ = Ok ?depth |- context [flat_map (coarse_plan _ ?depth)] =>
              change (depth_fn self (_additional_layer_depth self) = Ok depth)
                in Hd;
              rewrite Hd
          end;
          rewrite app_nil_r; reflexivity ]
    end
  | intros [? ?] ? _; apply emits_ret ].

(** Every library call that [extract_features] makes, in a run that returns
    or in one that raises, is made with the arguments [justified] lists. *)
Lemma extract_features_calls v self x s :
  st_trace s = [] ->
  emits_from (justified v self x) (extract_features v self x) s.
Proof.
  intros Hs. destruct v.
  - walk MNASNetA1 self Hs.
  - walk MNASNetB1 self Hs.
Qed.

End EveryCallOfExtractFeatures.

Section Reaching.
Context {FT : FrameworkTypes} {FW : Framework}.

(** Proves that the trace only grows along a piece of [extract_features]. *)
Ltac grows :=
  cbv beta zeta;
  repeat first
    [ apply emits_ret
    | apply emits_lift
    | refine (emits_call _ (pad_to_multiple _ _) _ _); intros; exact I
    | refine (emits_call _ (mnasnet_base _ _ _ _ _ _) _ _); intros; exact I
    | refine (emits_call _ (fpn_top_down_feature_maps _ _ _ _ _) _ _);
      intros; exact I
    | refine (emits_call _ (fixed_padding _ _) _ _); intros; exact I
    | refine (emits_call _ (conv2d _ _ _ _ _ _ _) _ _); intros; exact I
    | refine (emits_call _ (separable_conv2d _ _ _ _ _ _ _ _) _ _);
      intros; exact I
    | eapply emits_pure; apply for_append_lift
    | eapply emits_pure; apply (for_append_pure _ _ (keyed_pure _))
    | eapply emits_pure;
      apply (for_append_pure _ _ (top_down_pure MNASNetA1 _))
    | eapply emits_pure;
      apply (for_append_pure _ _ (top_down_pure MNASNetB1 _))
    | apply emits_for_fold; intros [? ?] ? ? _
    | apply emits_bind; [| intros ? ? _; cbv beta zeta]
    | match goal with
      | |- emits_from _ (if ?b then _ else _) _ => destruct b
      | |- emits_from _ (match ?p with (_, _) => _ end) _ => destruct p
      end ].

(** Once the size check has passed, [pad_to_multiple] is called, and once
    that has returned, [mnasnet_base]: they are the first two calls of the
    run, whatever happens afterwards. *)
Lemma reaches_backbone v self x g t g' (r : result (list tensor)) x1 :
  run (extract_features v self x) g = (t, g', r) ->
  check_min_image_dim 33 x = Ok x1 ->
  exists g1 res1 rest1,
    run_op (pad_to_multiple x1 (_pad_to_multiple self)) g = (g1, res1) /\
    t = {| ev_op := pad_to_multiple x1 (_pad_to_multiple self);
           ev_result := res1 |} :: rest1 /\
    forall padded, res1 = Ok padded ->
      exists res2 rest2,
        rest1 = {| ev_op := mnasnet_base (sc_base self) padded
                              (final_endpoint_of v) (_depth_multiplier self)
                              (_conv_defs self) (_use_explicit_padding self);
                   ev_result := res2 |} :: rest2.
Proof.
  unfold run. intros H Hcheck.
  destruct (extract_features v self x {| st_graph := g; st_trace := [] |})
    as [s' r'] eqn:E.
  injection H as <- <- <-.
  destruct v;
    cbv beta iota delta
      [extract_features A1.extract_features B1.extract_features] in E.
  all: unfold bind at 1 in E; unfold lift at 1 in E; rewrite Hcheck in E;
    apply bind_inv in E;
    destruct E as [(e & E & ->) | (s1 & padded & E & K)];
    [ destruct (call_inv (pad_to_multiple _ _) _ _ _ E) as (g1 & Hpad & ->);
      exists g1, (Raise e), []; cbn [st_graph st_trace app];
      split; [exact Hpad |]; split; [reflexivity | intros ? Hp; discriminate Hp]
    | destruct (call_inv (pad_to_multiple _ _) _ _ _ E) as (g1 & Hpad & ->);
      cbv beta zeta in K; apply bind_inv in K;
      destruct K as [(e & K & ->) | (s2 & [net eps] & K & K')];
      [ destruct (call_inv (mnasnet_base _ _ _ _ _ _) _ _ _ K)
          as (g2 & Hbb & ->);
        exists g1, (Ok padded); eexists; cbn [st_graph st_trace app];
        split; [exact Hpad |]; split; [reflexivity |];
        intros p Hp; injection Hp as <-; exists (Raise e), []; reflexivity
      | destruct (call_inv (mnasnet_base _ _ _ _ _ _) _ _ _ K)
          as (g2 & Hbb & ->);
        match type of K' with
        | ?k ?s = _ =>
            assert (G : emits_from (fun _ _ => True) k s) by grows
        end;
        destruct (G _ _ K') as (evs & Ht & _);
        exists g1, (Ok padded); eexists; rewrite Ht; cbn [st_graph st_trace app];
        split; [exact Hpad |]; split; [reflexivity |];
        intros p Hp; injection Hp as <-;
        exists (Ok (net, eps)), evs; reflexivity ] ].
Qed.

End Reaching.

Section MoreFacts.
Context {FT : FrameworkTypes} {FW : Framework}.

Lemma map_result_Forall2 {A B} (f : A -> result B) xs ys :
  map_result f xs = Ok ys -> Forall2 (fun x y => f x = Ok y) xs ys.
Proof.
  revert ys. induction xs as [| x xs IH]; simpl; intros ys H.
  - injection H as <-. constructor.
  - destruct (f x) as [b |] eqn:Hb; [| discriminate].
    destruct (map_result f xs) as [bs |]; [| discriminate].
    injection H as <-. constructor; [exact Hb | apply IH; reflexivity].
Qed.

Lemma Forall2_compose {A B C} (P : A -> B -> Prop) (Q : B -> C -> Prop)
    (R : A -> C -> Prop) xs ys zs :
  (forall x y z, P x y -> Q y z -> R x z) ->
  Forall2 P xs ys -> Forall2 Q ys zs -> Forall2 R xs zs.
Proof.
  intros HR H1. revert zs. induction H1; intros zs H2; inversion H2; subst.
  - constructor.
  - constructor; eauto.
Qed.

(** A non-negative index that [getitem] accepts is a position of the
    list. *)
Lemma getitem_nonneg {A} (l : list A) i a :
  0 <= i -> getitem l i = Ok a -> nth_error l (Z.to_nat i) = Some a.
Proof.
  unfold getitem. intros Hi.
  destruct (Z.ltb_spec i 0); [lia |].
  destruct ((i <? 0) || (Z.of_nat (List.length l) <=? i)); [discriminate |].
  destruct (nth_error l (Z.to_nat i)); [| discriminate].
  intros H0. injection H0 as ->. reflexivity.
Qed.

(** The calls of a run from an empty trace. *)
Lemma run_calls v self x g t g' (r : result (list tensor)) :
  run (extract_features v self x) g = (t, g', r) ->
  all_calls (justified v self x) [] t.
Proof.
  unfold run. intros H.
  destruct (extract_features v self x {| st_graph := g; st_trace := [] |})
    as [s' r'] eqn:E.
  injection H as <- <- <-.
  destruct (extract_features_calls v self x
              {| st_graph := g; st_trace := [] |} eq_refl _ _ E)
    as (evs & Ht & Hall).
  cbn [st_trace app] in Ht, Hall. rewrite Ht. exact Hall.
Qed.

Lemma run_call_justified v self x g t g' (r : result (list tensor)) ev :
  run (extract_features v self x) g = (t, g', r) ->
  In ev t ->
  exists pre post, t = pre ++ ev :: post /\ justified v self x pre ev.
Proof.
  intros H Hin.
  destruct (all_calls_In _ _ _ _ (run_calls _ _ _ _ _ _ _ H) Hin)
    as (pre & post & Ht & HP).
  exists pre, post. split; [exact Ht | exact HP].
Qed.

(** A call that [extract_features] makes is the next one of the plan. *)
Lemma justified_follows_plan v self x h ev :
  justified v self x h ev -> follows_plan v self h ev.
Proof.
  unfold justified, follows_plan.
  destruct (ev_op ev) as [x1 m | sc p fe dm defs uep | sc inputs depth ud uep
                          | p k | sc p n k st pd scn | sc p n dm k st pd scn];
    intros H.
  - destruct H as (-> & _ & ->). eexists. reflexivity.
  - destruct H as ((x1 & ->) & -> & -> & -> & -> & ->). eexists. reflexivity.
  - destruct H as ((x1 & padded & net & feats & keys & -> & Hkeys & Hins)
                   & -> & Hdepth & -> & ->).
    unfold layer_plan. rewrite Hkeys, Hdepth.
    cbn [signatures map ev_op signature app].
    rewrite (map_result_keyed_fst _ _ _ Hins). eexists. reflexivity.
  - exact (proj1 H).
  - exact (proj1 H).
  - exact (proj1 H).
Qed.

Lemma all_calls_follow_plan v self x t :
  forall h,
    all_calls (justified v self x) h t ->
    (exists rest, layer_plan v self = signatures h ++ rest) ->
    exists rest, layer_plan v self = signatures (h ++ t) ++ rest.
Proof.
  induction t as [| ev t IH]; intros h Hall Hh.
  - rewrite app_nil_r. exact Hh.
  - inversion Hall as [| h' ev' evs' HP Hrest]; subst.
    replace (h ++ ev :: t) with ((h ++ [ev]) ++ t)
      by (rewrite <- app_assoc; reflexivity).
    apply IH; [exact Hrest |].
    destruct (justified_follows_plan _ _ _ _ _ HP) as (rest & Hplan).
    exists rest. rewrite Hplan, signatures_app, <- app_assoc. reflexivity.
Qed.

(** The calls of any run, returning or raising, are the first calls of the
    plan. *)
Lemma run_follows_plan v self x g t g' (r : result (list tensor)) :
  run (extract_features v self x) g = (t, g', r) ->
  exists rest, layer_plan v self = signatures t ++ rest.
Proof.
  intros H.
  apply (all_calls_follow_plan v self x t [] (run_calls _ _ _ _ _ _ _ H)).
  exists (layer_plan v self). reflexivity.
Qed.

End MoreFacts.

(* ================================================================== *)
(** * Facts about a run that returns *)
(* ================================================================== *)

Section ReturnFacts.
Context {FT : FrameworkTypes} {FW : Framework}.

Lemma run_returns_iff v self x g t g' maps :
  run (extract_features v self x) g = (t, g', Ok maps) <->
  successful_run v self x g t g' maps.
Proof.
  unfold run. split.
  - intros H.
    destruct (extract_features v self x {| st_graph := g; st_trace := [] |})
      as [s' r'] eqn:E.
    injection H as <- <- ->.
    destruct (extract_features_ok_inv _ _ _ _ _ _ E) as (evs & Hrun & Ht).
    cbn [st_graph st_trace app] in Hrun, Ht. rewrite Ht. exact Hrun.
  - intros H.
    rewrite (extract_features_ok_intro v self x
               {| st_graph := g; st_trace := [] |} t g' maps H).
    reflexivity.
Qed.

Lemma range_nth_inv a b n i :
  nth_error (range a b) n = Some i ->
  i = a + Z.of_nat n /\ (n < Z.to_nat (b - a))%nat.
Proof.
  intros H.
  assert (Hn : (n < List.length (range a b))%nat)
    by (apply nth_error_Some; congruence).
  rewrite range_length in Hn. rewrite range_nth in H by exact Hn.
  injection H as <-. split; [reflexivity | exact Hn].
Qed.

Lemma map_result_In {A B} (f : A -> result B) xs ys x :
  map_result f xs = Ok ys -> In x xs -> exists y, f x = Ok y /\ In y ys.
Proof.
  intros H Hin. apply In_nth_error in Hin. destruct Hin as [n Hn].
  destruct (map_result_nth f xs ys n x H Hn) as (y & Hy & Hfx).
  exists y. split; [exact Hfx | eapply nth_error_In; exact Hy].
Qed.

(** The number of maps a run returns. *)
Lemma successful_run_length v self x g t g' maps :
  successful_run v self x g t g' maps ->
  _fpn_min_level self <= 5 ->
  _fpn_min_level self <= _fpn_max_level self ->
  List.length maps
  = Z.to_nat (_fpn_max_level self - _fpn_min_level self + 1).
Proof.
  intros H Hmin Hle. destruct H.
  rewrite length_app.
  match goal with
  | Hm : map_result (top_down_of _ _) _ = Ok _ |- _ =>
      rewrite (map_result_length _ _ _ Hm)
  end.
  match goal with
  | Hc : coarse_run _ _ _ _ _ _ _ |- _ => rewrite (coarse_run_length _ _ _ _ _ _ _ Hc)
  end.
  rewrite !range_length. unfold base_fpn_max_level. lia.
Qed.

(** The maps of a run that returns are in the order of the levels. *)
Lemma successful_run_levels v self x g t g' maps :
  successful_run v self x g t g' maps ->
  _fpn_min_level self <= 5 ->
  _fpn_min_level self <= _fpn_max_level self ->
  forall j m,
    nth_error maps j = Some m ->
    level_map v self t (_fpn_min_level self + Z.of_nat j) m.
Proof.
  intros H Hmin Hle j m Hj.
  destruct H as [x1 padded g1 net image_features g2 keys inputs depth
                 fpn_features g3 fpn_maps last g' evs coarse
                 Hcheck Hpad Hbb Hkeys Hins Hdepth Hfpn Hmaps Hlast Hrun].
  pose proof (map_result_length _ _ _ Hmaps) as Hlen.
  rewrite range_length in Hlen. unfold base_fpn_max_level in *.
  destruct (Nat.ltb_spec j (List.length fpn_maps)) as [Hlt | Hge].
  - rewrite nth_error_app1 in Hj by exact Hlt.
    assert (Hlevel : nth_error (range (_fpn_min_level self)
                                  (Z.min (_fpn_max_level self) 5 + 1)) j
                     = Some (_fpn_min_level self + Z.of_nat j))
      by (apply range_nth; lia).
    destruct (map_result_nth _ _ _ _ _ Hmaps Hlevel) as (m' & Hm' & Htd).
    rewrite Hj in Hm'. injection Hm' as <-.
    eapply level_top_down; [lia | | exact Htd].
    right. right. left. reflexivity.
  - rewrite nth_error_app2 in Hj by exact Hge.
    destruct (coarse_run_nth _ _ _ _ _ _ _ Hrun _ _ Hj)
      as (i & prev & p & n & Hi & _ & _ & _ & Hev).
    apply range_nth_inv in Hi. destruct Hi as [Hi Hk].
    unfold base_fpn_max_level in Hev.
    replace (i - Z.min (_fpn_max_level self) 5 + 19)
      with (_fpn_min_level self + Z.of_nat j - 5 + 19) in Hev by lia.
    eapply level_coarse; [lia |].
    right. right. right. exact Hev.
Qed.

(** The calls of a run that returns, without their tensors, are the plan. *)
Lemma successful_run_signatures v self x g t g' maps :
  successful_run v self x g t g' maps -> signatures t = layer_plan v self.
Proof.
  intros H.
  destruct H as [x1 padded g1 net image_features g2 keys inputs depth
                 fpn_features g3 fpn_maps last g' evs coarse
                 Hcheck Hpad Hbb Hkeys Hins Hdepth Hfpn Hmaps Hlast Hrun].
  unfold layer_plan. rewrite Hkeys, Hdepth.
  cbn [signatures map ev_op signature].
  rewrite (map_result_keyed_fst _ _ _ Hins).
  do 3 f_equal. exact (coarse_run_signatures _ _ _ _ _ _ _ _ Hrun Hdepth).
Qed.

(** No run returns when [fpn_min_level] is below -2 and not above
    [fpn_max_level]: indexing the feature blocks raises. *)
Lemma no_return_below_minus_2 v self x g t g' maps :
  _fpn_min_level self < -2 ->
  _fpn_min_level self <= _fpn_max_level self ->
  ~ successful_run v self x g t g' maps.
Proof.
  intros Hlow Hle H.
  destruct H as [x1 padded g1 net image_features g2 keys inputs depth
                 fpn_features g3 fpn_maps last g' evs coarse
                 Hcheck Hpad Hbb Hkeys Hins Hdepth Hfpn Hmaps Hlast Hrun].
  unfold feature_block_list, base_fpn_max_level in Hkeys.
  rewrite range_cons in Hkeys by lia. cbn [map_result] in Hkeys.
  rewrite (getitem_feature_blocks_below v _ Hlow) in Hkeys.
  discriminate Hkeys.
Qed.

End ReturnFacts.

(* ================================================================== *)
(** * Rounding keeps a power of two as a bound *)
(* ================================================================== *)

Module Rounding.
Import IEEE.

Lemma iter_pos_iter {A} (f : A -> A) n x : iter_pos f n x = Pos.iter f x n.
Proof.
  revert x. induction n as [n IH | n IH |]; intros x; simpl.
  - rewrite !IH, !Pos.iter_swap. reflexivity.
  - rewrite !IH. reflexivity.
  - reflexivity.
Qed.

Lemma digits2_pos_bounds m :
  2 ^ (Z.pos (digits2_pos m) - 1) <= Z.pos m < 2 ^ Z.pos (digits2_pos m).
Proof.
  induction m as [p IH | p IH |]; cbn [digits2_pos].
  - rewrite Pos2Z.inj_succ, (Pos2Z.inj_xI p).
    replace (Z.succ (Z.pos (digits2_pos p)) - 1)
      with (Z.succ (Z.pos (digits2_pos p) - 1)) by lia.
    rewrite !Z.pow_succ_r by lia. lia.
  - rewrite Pos2Z.inj_succ, (Pos2Z.inj_xO p).
    replace (Z.succ (Z.pos (digits2_pos p)) - 1)
      with (Z.succ (Z.pos (digits2_pos p) - 1)) by lia.
    rewrite !Z.pow_succ_r by lia. lia.
  - simpl. lia.
Qed.

Lemma shr_1_spec mrs :
  0 <= shr_m mrs ->
  shr_m (shr_1 mrs) = shr_m mrs / 2 /\
  shr_r (shr_1 mrs) = Z.odd (shr_m mrs) /\
  shr_s (shr_1 mrs) = shr_r mrs || shr_s mrs.
Proof.
  destruct mrs as [m r s]. cbn [shr_m shr_r shr_s]. intros Hm.
  destruct m as [| [p | p |] | p]; cbn [shr_1 shr_m shr_r shr_s];
    try lia; repeat split; try reflexivity.
  - rewrite (Pos2Z.inj_xI p). apply Z.div_unique with 1; lia.
  - rewrite (Pos2Z.inj_xO p). apply Z.div_unique with 0; lia.
Qed.

(** [p] right shifts of [m0]: the quotient by [2^p], and no lost bit when
    [2^p] divides [m0]. *)
Lemma iter_shr_1_spec m0 p :
  0 <= m0 ->
  let mrs := iter_pos shr_1 p
               {| shr_m := m0; shr_r := false; shr_s := false |} in
  shr_m mrs = m0 / 2 ^ Z.pos p /\
  0 <= shr_m mrs /\
  (m0 mod 2 ^ Z.pos p = 0 -> loc_of_shr_record mrs = loc_Exact).
Proof.
  intros Hm0. cbv zeta. rewrite iter_pos_iter.
  apply (Pos.iter_ind _ shr_1 {| shr_m := m0; shr_r := false; shr_s := false |}
           (fun p mrs =>
              shr_m mrs = m0 / 2 ^ Z.pos p /\
              0 <= shr_m mrs /\
              (m0 mod 2 ^ Z.pos p = 0 -> loc_of_shr_record mrs = loc_Exact))).
  - destruct (shr_1_spec {| shr_m := m0; shr_r := false; shr_s := false |} Hm0)
      as (H1 & H2 & H3). cbn [shr_m shr_r shr_s] in *.
    change (2 ^ 1) with 2.
    split; [exact H1 |]. split; [rewrite H1; apply Z.div_pos; lia |].
    intros Hmod.
    destruct (shr_1 {| shr_m := m0; shr_r := false; shr_s := false |})
      as [m r s]. cbn [shr_m shr_r shr_s loc_of_shr_record] in *.
    subst r s. rewrite Zodd_mod, Hmod. reflexivity.
  - intros q mrs (Hq & Hpos & Hexact).
    destruct (shr_1_spec mrs Hpos) as (H1 & H2 & H3).
    rewrite Pos2Z.inj_succ, Z.pow_succ_r by lia.
    assert (Hpow : 0 < 2 ^ Z.pos q) by (apply Z.pow_pos_nonneg; lia).
    split; [| split].
    + rewrite H1, Hq, Z.div_div by lia. f_equal. lia.
    + rewrite H1. apply Z.div_pos; lia.
    + intros Hmod.
      apply Z.mod_divide in Hmod; [| lia]. destruct Hmod as [c Hc].
      assert (Hmq : m0 mod 2 ^ Z.pos q = 0).
      { rewrite Hc. replace (c * (2 * 2 ^ Z.pos q)) with (c * 2 * 2 ^ Z.pos q)
          by lia. apply Z.mod_mul. lia. }
      specialize (Hexact Hmq).
      assert (Hodd : Z.odd (shr_m mrs) = false).
      { rewrite Hq, Hc.
        replace (c * (2 * 2 ^ Z.pos q)) with (c * 2 * 2 ^ Z.pos q) by lia.
        rewrite Z.div_mul by lia. rewrite Z.odd_mul. apply andb_false_r. }
      destruct mrs as [m r s]; destruct (shr_1 {| shr_m := m; shr_r := r; shr_s := s |})
        as [m' r' s'] eqn:E.
      cbn [shr_m shr_r shr_s loc_of_shr_record] in *.
      destruct r, s; try discriminate Hexact.
      subst r' s'. rewrite Hodd. reflexivity.
Qed.

Lemma round_nearest_even_bounds mx lx :
  mx <= round_nearest_even mx lx <= mx + 1 /\
  (lx = loc_Exact -> round_nearest_even mx lx = mx).
Proof.
  unfold round_nearest_even.
  destruct lx as [| []]; [| destruct (Z.even mx) | |];
    (split; [lia | try reflexivity; intros H; discriminate H]).
Qed.

Section Format.
Variables prec emax : Z.
Hypothesis Hprec : 0 < prec.

Lemma fexp_eq e : fexp prec emax e = Z.max (e - prec) (emin_of prec emax).
Proof. reflexivity. Qed.

(** A shift to the exponent the format gives the number: the quotient, and
    nothing lost when the divisor divides. *)
Lemma shr_fexp_spec m e :
  0 <= m ->
  exists mrs,
    shr_fexp prec emax m e loc_Exact
      = (mrs, Z.max e (fexp prec emax (Zdigits2 m + e))) /\
    shr_m mrs = m / 2 ^ (Z.max e (fexp prec emax (Zdigits2 m + e)) - e) /\
    0 <= shr_m mrs /\
    (m mod 2 ^ (Z.max e (fexp prec emax (Zdigits2 m + e)) - e) = 0 ->
     loc_of_shr_record mrs = loc_Exact).
Proof.
  intros Hm. unfold shr_fexp, shr. cbn [shr_record_of_loc].
  destruct (fexp prec emax (Zdigits2 m + e) - e) as [| p | p] eqn:Hn.
  - exists {| shr_m := m; shr_r := false; shr_s := false |}.
    replace (Z.max e (fexp prec emax (Zdigits2 m + e))) with e by lia.
    rewrite Z.sub_diag. change (2 ^ 0) with 1. rewrite Z.div_1_r.
    cbn [shr_m loc_of_shr_record]. repeat split; try reflexivity; lia.
  - exists (iter_pos shr_1 p {| shr_m := m; shr_r := false; shr_s := false |}).
    replace (Z.max e (fexp prec emax (Zdigits2 m + e))) with (e + Z.pos p)
      by lia.
    replace (e + Z.pos p - e) with (Z.pos p) by lia.
    split; [reflexivity |]. exact (iter_shr_1_spec m p Hm).
  - exists {| shr_m := m; shr_r := false; shr_s := false |}.
    replace (Z.max e (fexp prec emax (Zdigits2 m + e))) with e by lia.
    rewrite Z.sub_diag. change (2 ^ 0) with 1. rewrite Z.div_1_r.
    cbn [shr_m loc_of_shr_record]. repeat split; try reflexivity; lia.
Qed.

(** A number at most [2^k] has its digits and exponent bounded by [k]. *)
Lemma digits_under k m e :
  under k (Z.pos m) e -> Z.pos (digits2_pos m) + e <= k + 1.
Proof.
  intros [He Hm].
  pose proof (digits2_pos_bounds m) as [Hd _].
  assert (H : 2 ^ (Z.pos (digits2_pos m) - 1) <= 2 ^ (k - e)) by lia.
  apply Z.pow_le_mono_r_iff in H; lia.
Qed.

(** Rounding to nearest even keeps a power of two above the number above
    the result, and keeps the sign. *)
Lemma binary_round_aux_under s m e k :
  (emin_of prec emax) <= k -> k <= emax - prec ->
  under k (Z.pos m) e ->
  match binary_round_aux prec emax s (Z.pos m) e loc_Exact with
  | S754_zero s' => s' = s
  | S754_finite s' m' e' => s' = s /\ under k (Z.pos m') e'
  | _ => False
  end.
Proof.
  intros Hk1 Hk2 Hu. pose proof (digits_under k m e Hu) as Hd.
  destruct Hu as [He Hm].
  unfold binary_round_aux.
  destruct (shr_fexp_spec (Z.pos m) e) as (mrs1 & E1 & Hq1 & Hpos1 & Hex1);
    [lia |].
  rewrite E1. clear E1.
  cbn [Zdigits2] in *. rewrite fexp_eq in *.
  set (e1 := Z.max e (Z.max (Z.pos (digits2_pos m) + e - prec) (emin_of prec emax))) in *.
  set (m1 := round_nearest_even (shr_m mrs1) (loc_of_shr_record mrs1)).
  assert (He1 : e <= e1 <= k) by lia.
  assert (He1' : (emin_of prec emax) <= e1) by lia.
  assert (Hm1 : 0 <= m1 <= 2 ^ (k - e1)).
  { destruct (round_nearest_even_bounds (shr_m mrs1) (loc_of_shr_record mrs1))
      as [Hb Hexact]. fold m1 in Hb, Hexact.
    assert (HP : 0 < 2 ^ (e1 - e)) by (apply Z.pow_pos_nonneg; lia).
    assert (HB : 2 ^ (k - e) = 2 ^ (k - e1) * 2 ^ (e1 - e)).
    { rewrite <- Z.pow_add_r by lia. f_equal. lia. }
    assert (HB0 : 0 < 2 ^ (k - e1)) by (apply Z.pow_pos_nonneg; lia).
    pose proof (Z.div_mod (Z.pos m) (2 ^ (e1 - e)) ltac:(lia)) as Hdm.
    pose proof (Z.mod_pos_bound (Z.pos m) (2 ^ (e1 - e)) HP) as Hr.
    rewrite <- Hq1 in Hdm.
    destruct (Z.eq_dec (Z.pos m mod 2 ^ (e1 - e)) 0) as [Hz | Hnz].
    - rewrite (Hexact (Hex1 Hz)). split; [lia |]. nia.
    - split; [lia |]. nia. }
  destruct (shr_fexp_spec m1 e1) as (mrs2 & E2 & Hq2 & Hpos2 & _); [lia |].
  rewrite E2. clear E2. rewrite fexp_eq in *.
  set (e2 := Z.max e1 (Z.max (Zdigits2 m1 + e1 - prec) (emin_of prec emax))) in *.
  assert (He2 : e1 <= e2 <= k).
  { destruct m1 as [| p1 | p1] eqn:Em1; cbn [Zdigits2] in *; [lia | | lia].
    pose proof (digits_under k p1 e1 (conj (proj2 He1) (proj2 Hm1))). lia. }
  assert (Hm2 : shr_m mrs2 <= 2 ^ (k - e2)).
  { rewrite Hq2. apply Z.div_le_upper_bound.
    - apply Z.pow_pos_nonneg; lia.
    - rewrite <- Z.pow_add_r by lia.
      replace (e2 - e1 + (k - e2)) with (k - e1) by lia. lia. }
  destruct (shr_m mrs2) as [| p2 | p2]; [reflexivity | | lia].
  destruct (Z.leb_spec e2 (emax - prec)); [| lia].
  split; [reflexivity |]. split; [lia | exact Hm2].
Qed.

Lemma iter_xO m d : Z.pos (Pos.iter xO m d) = Z.pos m * 2 ^ Z.pos d.
Proof.
  apply (Pos.iter_ind _ xO m (fun d x => Z.pos x = Z.pos m * 2 ^ Z.pos d)).
  - rewrite (Pos2Z.inj_xO m). change (2 ^ 1) with 2. lia.
  - intros q x Hx. rewrite (Pos2Z.inj_xO x), Hx, Pos2Z.inj_succ.
    rewrite Z.pow_succ_r by lia. lia.
Qed.

(** Aligning a mantissa to a smaller exponent multiplies it by the power of
    two between the exponents. *)
Lemma shl_align_spec m e e' :
  snd (shl_align m e e') = Z.min e e' /\
  Z.pos (fst (shl_align m e e'))
  = Z.pos m * 2 ^ (e - snd (shl_align m e e')).
Proof.
  unfold shl_align. destruct (e' - e) as [| d | d] eqn:Hd; cbn [fst snd].
  - split; [lia |]. rewrite Z.sub_diag. change (2 ^ 0) with 1. lia.
  - split; [lia |]. rewrite Z.sub_diag. change (2 ^ 0) with 1. lia.
  - split; [lia |]. rewrite iter_xO. f_equal. f_equal. lia.
Qed.

Lemma binary_round_under s m e k :
  (emin_of prec emax) <= k -> k <= emax - prec ->
  under k (Z.pos m) e ->
  match binary_round prec emax s m e with
  | S754_zero s' => s' = s
  | S754_finite s' m' e' => s' = s /\ under k (Z.pos m') e'
  | _ => False
  end.
Proof.
  intros Hk1 Hk2 [He Hm]. unfold binary_round.
  pose proof (shl_align_spec m e
                (fexp prec emax (Z.pos (digits2_pos m) + e))) as [H1 H2].
  destruct (shl_align m e (fexp prec emax (Z.pos (digits2_pos m) + e)))
    as [mz ez]. cbn [fst snd] in H1, H2.
  apply binary_round_aux_under; [exact Hk1 | exact Hk2 |].
  split; [lia |]. rewrite H2.
  replace (k - ez) with ((k - e) + (e - ez)) by lia.
  rewrite Z.pow_add_r by lia.
  apply Z.mul_le_mono_nonneg_r; [apply Z.pow_nonneg; lia | exact Hm].
Qed.

(** The product of two positive numbers, when it is at most [2^k] before
    rounding. *)
Lemma SFmul_under mc ec m e k :
  (emin_of prec emax) <= k -> k <= emax - prec ->
  under k (Z.pos mc * Z.pos m) (ec + e) ->
  bounded_by k (SFmul prec emax (S754_finite false mc ec)
                  (S754_finite false m e)) /\
  nonneg (SFmul prec emax (S754_finite false mc ec) (S754_finite false m e)).
Proof.
  intros Hk1 Hk2 Hu. cbn [SFmul xorb].
  pose proof (binary_round_aux_under false (mc * m) (ec + e) k Hk1 Hk2) as H.
  rewrite <- Pos2Z.inj_mul in Hu. specialize (H Hu).
  destruct (binary_round_aux prec emax false (Z.pos (mc * m)) (ec + e) loc_Exact)
    as [s' | s' | | s' m' e']; cbn [bounded_by nonneg]; try contradiction.
  - split; exact I.
  - destruct H as [-> H]. split; [exact H | reflexivity].
Qed.

(** Subtracting one from a number between 0 and 2 gives a number of
    magnitude at most 1. *)
Lemma SFsub_one_bounded x mone eone :
  (emin_of prec emax) <= 0 -> 0 <= emax - prec ->
  eone <= 0 -> Z.pos mone = 2 ^ (- eone) ->
  bounded_by 1 x -> nonneg x ->
  bounded_by 0 (SFsub prec emax x (S754_finite false mone eone)).
Proof.
  intros Hk1 Hk2 Heone Hmone Hx Hs.
  destruct x as [s | s | | s m e]; cbn [bounded_by nonneg] in Hx, Hs;
    try contradiction.
  - cbn [SFsub bounded_by]. split; [lia |]. rewrite Hmone.
    apply Z.pow_le_mono_r; lia.
  - subst s. destruct Hx as [He Hm]. cbn [SFsub cond_Zopp].
    pose proof (shl_align_spec m e (Z.min e eone)) as [HA1 HA2].
    pose proof (shl_align_spec mone eone (Z.min e eone)) as [HB1 HB2].
    set (ez := Z.min e eone) in *.
    rewrite HA1 in HA2. rewrite HB1 in HB2.
    replace (Z.min e ez) with ez in HA2 by lia.
    replace (Z.min eone ez) with ez in HB2 by lia.
    assert (HB : Z.pos (fst (shl_align mone eone ez)) = 2 ^ (0 - ez)).
    { rewrite HB2, Hmone, <- Z.pow_add_r by lia. f_equal. lia. }
    assert (HA : Z.pos (fst (shl_align m e ez)) <= 2 * 2 ^ (0 - ez)).
    { rewrite HA2. rewrite <- Z.pow_succ_r by lia.
      replace (Z.succ (0 - ez)) with ((1 - e) + (e - ez)) by lia.
      rewrite Z.pow_add_r by lia.
      apply Z.mul_le_mono_nonneg_r; [apply Z.pow_nonneg; lia | exact Hm]. }
    rewrite HB in *.
    destruct (Z.pos (fst (shl_align m e ez)) - 2 ^ (0 - ez)) as [| d | d] eqn:Hd;
      cbn [binary_normalize].
    + exact I.
    + pose proof (binary_round_under false d ez 0 Hk1 Hk2) as H.
      assert (Hu : under 0 (Z.pos d) ez) by (split; lia).
      specialize (H Hu).
      destruct (binary_round prec emax false d ez) as [s' | s' | | s' m' e'];
        cbn [bounded_by]; try contradiction; [exact I | exact (proj2 H)].
    + pose proof (binary_round_under true d ez 0 Hk1 Hk2) as H.
      assert (Hu : under 0 (Z.pos d) ez) by (split; lia).
      specialize (H Hu).
      destruct (binary_round prec emax true d ez) as [s' | s' | | s' m' e'];
        cbn [bounded_by]; try contradiction; [exact I | exact (proj2 H)].
Qed.

End Format.

(** A datum of magnitude at most 1 stands for a number between -1 and 1. *)
Lemma bounded_by_0_value x :
  bounded_by 0 x ->
  exists q, value x = Some q /\ (inject_Z (-1) <= q <= inject_Z 1)%Q.
Proof.
  destruct x as [s | s | | s m e]; cbn [bounded_by value]; try contradiction.
  - intros _. eexists. split; [reflexivity |].
    unfold Qle, inject_Z. cbn [Qnum Qden]. lia.
  - intros [He Hm]. eexists. split; [reflexivity |].
    destruct e as [| p | p]; [| lia |].
    + change (2 ^ (0 - 0)) with 1 in Hm.
      unfold Qle, inject_Z. cbn [Qnum Qden]. destruct s; cbn [cond_Zopp]; lia.
    + change (0 - Z.neg p) with (Z.pos p) in Hm.
      unfold Qle, inject_Z. cbn [Qnum Qden]. rewrite Pos2Z.inj_pow.
      destruct s; cbn [cond_Zopp]; lia.
Qed.

(** A finite datum that stands for a number between 0 and 255 is positive,
    and its mantissa and exponent are bounded accordingly. *)
Lemma value_in_0_255 s m e q :
  value (S754_finite s m e) = Some q ->
  (inject_Z 0 <= q <= inject_Z 255)%Q ->
  s = false /\
  (0 <= e -> Z.pos m * 2 ^ e <= 255) /\
  (e < 0 -> Z.pos m <= 255 * 2 ^ (- e)).
Proof.
  cbn [value]. intros Hq [H0 H255]. injection Hq as <-.
  unfold Qle, inject_Z in H0, H255.
  destruct e as [| p | p]; cbn [Qnum Qden] in H0, H255.
  - destruct s; cbn [cond_Zopp] in *; [lia |].
    split; [reflexivity |]. split; [intros _; change (2 ^ 0) with 1; lia | lia].
  - assert (Hp : 0 < 2 ^ Z.pos p) by (apply Z.pow_pos_nonneg; lia).
    destruct s; cbn [cond_Zopp] in *; [nia |].
    split; [reflexivity |]. split; [intros _; lia | lia].
  - rewrite Pos2Z.inj_pow in H255.
    destruct s; cbn [cond_Zopp] in *; [lia |].
    split; [reflexivity |]. split; [lia |].
    intros _. change (- Z.neg p) with (Z.pos p). lia.
Qed.

Section Pixel.
Variables prec emax : Z.
Variables (mc : positive) (ec : Z).
Hypothesis Hprec : 8 <= prec.
Hypothesis Hemin : emin_of prec emax <= 8 - prec.
Hypothesis Hec : ec <= -6.
Hypothesis Hmc : Z.pos mc <= 2 ^ (- ec - 6).
Hypothesis Hpred :
  Z.pos mc * (255 * 2 ^ (prec - 8) - 1) <= 2 ^ (1 - ec - (8 - prec)).

(** The mantissa of a number in canonical form has at most [prec] digits,
    and exactly [prec] above the smallest exponent. *)
Lemma bounded_digits m e :
  bounded prec emax m e = true ->
  Z.pos m < 2 ^ prec /\
  (emin_of prec emax < e -> 2 ^ (prec - 1) <= Z.pos m).
Proof.
  unfold bounded, canonical_mantissa. intros H.
  apply andb_prop in H. destruct H as [H _]. apply Z.eqb_eq in H.
  change (fexp prec emax (Z.pos (digits2_pos m) + e))
    with (Z.max (Z.pos (digits2_pos m) + e - prec) (emin_of prec emax)) in H.
  pose proof (digits2_pos_bounds m) as [Hlo Hhi].
  split.
  - apply Z.lt_le_trans with (1 := Hhi). apply Z.pow_le_mono_r; lia.
  - intros He. replace (prec - 1) with (Z.pos (digits2_pos m) - 1) by lia.
    exact Hlo.
Qed.

(** A number of the format between 0 and 255, other than 255 itself, has a
    product with the factor that is at most 2 before rounding. *)
Lemma product_under m e :
  bounded prec emax m e = true ->
  (0 <= e -> Z.pos m * 2 ^ e <= 255) ->
  (e < 0 -> Z.pos m <= 255 * 2 ^ (- e)) ->
  (Z.pos m = 255 * 2 ^ (prec - 8) -> e <> 8 - prec) ->
  under 1 (Z.pos mc * Z.pos m) (ec + e).
Proof.
  intros Hb Hpos Hneg Hne.
  destruct (bounded_digits m e Hb) as [Hhi Hlo].
  assert (H2p : 0 < 2 ^ (prec - 8)) by (apply Z.pow_pos_nonneg; lia).
  assert (Hp8 : 2 ^ prec = 256 * 2 ^ (prec - 8)).
  { replace prec with (8 + (prec - 8)) at 1 by lia.
    rewrite Z.pow_add_r by lia. reflexivity. }
  destruct (Z.lt_ge_cases e (8 - prec)) as [Hlt | Hge].
  - (* below the binade of 255: the number is below 128 *)
    split; [lia |].
    apply Z.le_trans with (2 ^ (- ec - 6) * 2 ^ prec).
    + apply Z.mul_le_mono_nonneg; lia.
    + rewrite <- Z.pow_add_r by lia. apply Z.pow_le_mono_r; lia.
  - (* a multiple of the last place of 255 *)
    set (t := e - (8 - prec)).
    assert (Ht : 0 < 2 ^ t) by (apply Z.pow_pos_nonneg; lia).
    assert (Hle : Z.pos m * 2 ^ t <= 255 * 2 ^ (prec - 8)).
    { destruct (Z.lt_ge_cases e 0) as [He | He].
      - specialize (Hneg He).
        replace (prec - 8) with (- e + t) by lia.
        rewrite Z.pow_add_r by lia.
        assert (0 < 2 ^ (- e)) by (apply Z.pow_pos_nonneg; lia). nia.
      - specialize (Hpos He).
        assert (He8 : 2 ^ e * 2 ^ (prec - 8) = 2 ^ t).
        { rewrite <- Z.pow_add_r by lia. f_equal. lia. }
        nia. }
    assert (Ht8 : t < prec).
    { apply (Z.pow_lt_mono_r_iff 2); [lia | lia |]. nia. }
    assert (Hlt : Z.pos m * 2 ^ t <= 255 * 2 ^ (prec - 8) - 1).
    { destruct (Z.eq_dec t 0) as [Ht0 | Ht0].
      - rewrite Ht0 in *. change (2 ^ 0) with 1 in *.
        assert (Z.pos m <> 255 * 2 ^ (prec - 8)) by (intros E; apply (Hne E); lia).
        lia.
      - assert (Hm : 2 ^ (prec - 1) <= Z.pos m) by (apply Hlo; lia).
        assert (H2t : 2 <= 2 ^ t).
        { change 2 with (2 ^ 1) at 1. apply Z.pow_le_mono_r; lia. }
        assert (Hp1 : 2 ^ prec = 2 * 2 ^ (prec - 1)).
        { rewrite <- Z.pow_succ_r by lia. f_equal. lia. }
        nia. }
    split; [lia |].
    assert (Hcancel : 2 ^ (1 - ec - (8 - prec)) = 2 ^ (1 - (ec + e)) * 2 ^ t).
    { rewrite <- Z.pow_add_r by lia. f_equal. lia. }
    assert (H0 : 0 < 2 ^ (1 - (ec + e))) by (apply Z.pow_pos_nonneg; lia).
    rewrite Hcancel in Hpred. nia.
Qed.

End Pixel.

Lemma bounded_byb_true k x : bounded_byb k x = true -> bounded_by k x.
Proof.
  destruct x as [s | s | | s m e]; cbn [bounded_byb bounded_by];
    try discriminate; [intros _; exact I |].
  intros H. apply andb_prop in H. destruct H as [H1 H2].
  split; [apply Z.leb_le, H1 | apply Z.leb_le, H2].
Qed.

(** On a dtype that passes the test, [preprocess] maps every datum that
    stands for a number between 0 and 255 to one of magnitude at most 1. *)
Lemma pixel_bounded dt v q :
  dtype_ok dt = true -> valid dt v ->
  value v = Some q -> (inject_Z 0 <= q <= inject_Z 255)%Q ->
  bounded_by 0 (pixel dt v).
Proof.
  intros Hok Hvalid Hq Hrange. unfold dtype_ok in Hok.
  unfold pixel, sub, rmul.
  destruct (cast dt (fdiv (float_lit 2) (float_lit 255)))
    as [| | | [] mc ec] eqn:Ec; try discriminate Hok.
  destruct (cast dt (float_lit 1)) as [| | | [] mone eone] eqn:E1;
    try discriminate Hok.
  repeat (apply andb_prop in Hok; destruct Hok as [Hok ?]).
  repeat match goal with
         | H : (_ <=? _) = true |- _ => apply Z.leb_le in H
         | H : (_ =? _) = true |- _ => apply Z.eqb_eq in H
         end.
  destruct v as [s | s | | s m e]; try discriminate Hq.
  - (* a zero *)
    apply SFsub_one_bounded; try lia.
    + cbn [SFmul bounded_by]. exact I.
    + cbn [SFmul nonneg]. exact I.
  - destruct (value_in_0_255 s m e q Hq Hrange) as (-> & Hpos & Hneg).
    destruct (Z.eq_dec (Z.pos m) (m255 dt)) as [Hm | Hm];
      [destruct (Z.eq_dec e (e255 dt)) as [He | He] |].
    + (* 255 itself *)
      assert (Em : m = Z.to_pos (m255 dt)) by (rewrite <- Hm; reflexivity).
      subst m e.
      match goal with
      | H : bounded_byb 0 _ = true |- _ =>
          apply bounded_byb_true in H; unfold pixel, sub, rmul in H;
          rewrite Ec, E1 in H; exact H
      end.
    + assert (Hmul : bounded_by 1 (SFmul (dt_prec dt) (dt_emax dt)
                               (S754_finite false mc ec)
                               (S754_finite false m e)) /\
                     nonneg (SFmul (dt_prec dt) (dt_emax dt)
                               (S754_finite false mc ec)
                               (S754_finite false m e))).
      { apply SFmul_under; try lia.
        apply (product_under (dt_prec dt) (dt_emax dt)); try assumption;
          try lia. intros _. exact He. }
      apply SFsub_one_bounded; try lia; [exact (proj1 Hmul) | exact (proj2 Hmul)].
    + assert (Hmul : bounded_by 1 (SFmul (dt_prec dt) (dt_emax dt)
                               (S754_finite false mc ec)
                               (S754_finite false m e)) /\
                     nonneg (SFmul (dt_prec dt) (dt_emax dt)
                               (S754_finite false mc ec)
                               (S754_finite false m e))).
      { apply SFmul_under; try lia.
        apply (product_under (dt_prec dt) (dt_emax dt)); try assumption;
          try lia. intros E. exfalso. apply Hm. exact E. }
      apply SFsub_one_bounded; try lia; [exact (proj1 Hmul) | exact (proj2 Hmul)].
Qed.

Lemma dtypes_ok dt :
  In dt [float16; bfloat16; float32; float64] -> dtype_ok dt = true.
Proof.
  intros [<- | [<- | [<- | [<- | []]]]]; vm_compute; reflexivity.
Qed.

End Rounding.

(* ================================================================== *)
(** * A library call that raises ends the run *)
(* ================================================================== *)

Section FailureFacts.
Context {FT : FrameworkTypes} {FW : Framework}.

Lemma quiet_app l1 l2 : quiet l1 -> quiet l2 -> quiet (l1 ++ l2).
Proof. unfold quiet. intros H1 H2. apply Forall_app. split; assumption. Qed.

Lemma quiet_In l ev : quiet l -> In ev l -> raised ev = None.
Proof. unfold quiet. rewrite Forall_forall. intros H Hin. exact (H ev Hin). Qed.

(** An element of a list is its last one or one of those before the last. *)
Lemma split_last {A} (pre pre0 post : list A) x x0 :
  pre ++ x :: post = pre0 ++ [x0] ->
  (post = [] /\ x = x0) \/ In x pre0.
Proof.
  revert pre0. induction pre as [| a pre IH]; intros [| b pre0] H; simpl in H.
  - injection H as -> ->. left. split; reflexivity.
  - injection H as -> _. right. left. reflexivity.
  - injection H as _ H. destruct pre; discriminate H.
  - injection H as -> H. destruct (IH _ H) as [Hl | Hr].
    + left. exact Hl.
    + right. right. exact Hr.
Qed.

Lemma ends_with_failure_last {A} evs (r : result A) pre ev post e :
  ends_with_failure evs r ->
  evs = pre ++ ev :: post -> raised ev = Some e ->
  post = [] /\ r = Raise e.
Proof.
  intros H Hevs Hev.
  assert (Hin : In ev evs)
    by (rewrite Hevs; apply in_or_app; right; left; reflexivity).
  destruct r as [a | e0]; cbn [ends_with_failure] in H.
  - rewrite (quiet_In _ _ H Hin) in Hev. discriminate Hev.
  - destruct H as (pre0 & Hq & [-> | (ev0 & -> & Hev0)]).
    + rewrite (quiet_In _ _ Hq Hin) in Hev. discriminate Hev.
    + destruct (split_last _ _ _ _ _ (eq_sym Hevs)) as [[-> ->] | Hpre].
      * rewrite Hev0 in Hev. injection Hev as ->. split; reflexivity.
      * rewrite (quiet_In _ _ Hq Hpre) in Hev. discriminate Hev.
Qed.

Lemma stops_pure {A} (m : M A) (r : result A) :
  (forall s, m s = (s, r)) -> stops_at_failure m.
Proof.
  intros Hm s s' r' H. rewrite Hm in H. injection H as <- <-.
  exists []. rewrite app_nil_r. split; [reflexivity |].
  destruct r as [a | e]; cbn [ends_with_failure].
  - constructor.
  - exists []. split; [constructor | left; reflexivity].
Qed.

Lemma stops_ret {A} (a : A) : stops_at_failure (ret a).
Proof. apply (stops_pure (ret a) (Ok a)). reflexivity. Qed.

Lemma stops_lift {A} (r : result A) : stops_at_failure (lift r).
Proof. apply (stops_pure (lift r) r). reflexivity. Qed.

Lemma stops_call (o : op) : stops_at_failure (call o).
Proof.
  intros s s' r H. apply call_inv in H. destruct H as (g' & _ & ->).
  eexists. split; [reflexivity |].
  destruct r as [a | e]; cbn [ends_with_failure].
  - constructor; [reflexivity | constructor].
  - exists []. split; [constructor |]. right. eexists.
    split; reflexivity.
Qed.

Lemma stops_bind {A B} (m : M A) (k : A -> M B) :
  stops_at_failure m -> (forall a, stops_at_failure (k a)) ->
  stops_at_failure (bind m k).
Proof.
  intros Hm Hk s s' r H. apply bind_inv in H.
  destruct H as [(e & H & ->) | (s1 & a & H1 & H2)].
  - exact (Hm _ _ _ H).
  - destruct (Hm _ _ _ H1) as (evs1 & Ht1 & Hq1).
    destruct (Hk a _ _ _ H2) as (evs2 & Ht2 & H2').
    cbn [ends_with_failure] in Hq1.
    exists (evs1 ++ evs2). split.
    + rewrite Ht2, Ht1, app_assoc. reflexivity.
    + destruct r as [b | e]; cbn [ends_with_failure] in *.
      * apply quiet_app; assumption.
      * destruct H2' as (pre & Hq & [-> | (ev & -> & Hev)]).
        -- exists (evs1 ++ pre). split; [apply quiet_app; assumption |].
           left. reflexivity.
        -- exists (evs1 ++ pre). split; [apply quiet_app; assumption |].
           right. exists ev. split; [apply app_assoc | exact Hev].
Qed.

Lemma stops_for_fold {A S} (body : S -> A -> M S) xs :
  (forall acc i, stops_at_failure (body acc i)) ->
  forall acc, stops_at_failure (for_fold body xs acc).
Proof.
  intros Hbody. induction xs as [| i xs IH]; intros acc; simpl.
  - apply stops_ret.
  - apply stops_bind; [apply Hbody | exact IH].
Qed.

(** Goes through the text of [extract_features]. *)
Ltac careful :=
  cbv beta zeta;
  repeat first
    [ apply stops_ret
    | apply stops_lift
    | exact (stops_call (pad_to_multiple _ _))
    | exact (stops_call (mnasnet_base _ _ _ _ _ _))
    | exact (stops_call (fpn_top_down_feature_maps _ _ _ _ _))
    | exact (stops_call (fixed_padding _ _))
    | exact (stops_call (conv2d _ _ _ _ _ _ _))
    | exact (stops_call (separable_conv2d _ _ _ _ _ _ _ _))
    | refine (stops_pure _ _ (for_append_lift _ _))
    | refine (stops_pure _ _ (for_append_pure _ _ (keyed_pure _) _))
    | refine (stops_pure _ _
                (for_append_pure _ _ (top_down_pure MNASNetA1 _) _))
    | refine (stops_pure _ _
                (for_append_pure _ _ (top_down_pure MNASNetB1 _) _))
    | apply stops_for_fold; intros [? ?] ?
    | apply stops_bind; [| intros ?; cbv beta zeta]
    | match goal with
      | |- stops_at_failure (if ?b then _ else _) => destruct b
      | |- stops_at_failure (match ?p with (_, _) => _ end) => destruct p
      end ].

Lemma extract_features_stops v self x :
  stops_at_failure (extract_features v self x).
Proof.
  destruct v;
    cbv beta iota delta
      [extract_features A1.extract_features B1.extract_features];
    careful.
Qed.

End FailureFacts.

(* ================================================================== *)
(** * Runs that raise *)
(* ================================================================== *)

Lemma map_result_raise_inv {A B} (f : A -> result B) xs e :
  map_result f xs = Raise e ->
  exists before x after,
    xs = before ++ x :: after /\
    Forall (fun y => is_ok (f y) = true) before /\
    f x = Raise e.
Proof.
  induction xs as [| x xs IH]; simpl; intros H; [discriminate H |].
  destruct (f x) as [b | e'] eqn:Hx.
  - destruct (map_result f xs) as [bs | e'']; [discriminate H |].
    injection H as ->. destruct (IH eq_refl) as (before & y & after & -> & Hb & Hy).
    exists (x :: before), y, after. split; [reflexivity |].
    split; [| exact Hy]. constructor; [rewrite Hx; reflexivity | exact Hb].
  - injection H as ->. exists [], x, xs. split; [reflexivity |].
    split; [constructor | exact Hx].
Qed.

Lemma map_result_raises {A B} (f : A -> result B) xs x :
  In x xs -> is_ok (f x) = false -> exists e, map_result f xs = Raise e.
Proof.
  intros Hin Hx. destruct (map_result f xs) as [ys | e] eqn:H.
  - destruct (map_result_In f xs ys x H Hin) as (y & Hy & _).
    rewrite Hy in Hx. discriminate Hx.
  - exists e. reflexivity.
Qed.

Lemma dict_getitem_raise {V} (d : dict V) k e :
  dict_getitem d k = Raise e -> e = KeyError k.
Proof.
  induction d as [| [k' v] d IH]; simpl; intros H.
  - injection H as <-. reflexivity.
  - destruct (String.eqb k' k); [discriminate H | exact (IH H)].
Qed.

Lemma getitem_In {A} (l : list A) i a : getitem l i = Ok a -> In a l.
Proof.
  unfold getitem.
  destruct ((_ <? 0) || (_ <=? _)); [discriminate |].
  destruct (nth_error l _) as [b |] eqn:Hn; [| discriminate].
  intros H. injection H as <-. eapply nth_error_In. exact Hn.
Qed.

Section Forward.
Context {FT : FrameworkTypes} {FW : Framework}.

Lemma bind_raise {A B} (m : M A) (k : A -> M B) s s1 e :
  m s = (s1, Raise e) -> bind m k s = (s1, Raise e).
Proof. unfold bind. intros ->. reflexivity. Qed.

Lemma run_of {A} (m : M A) g s' r :
  m {| st_graph := g; st_trace := [] |} = (s', r) ->
  run m g = (st_trace s', st_graph s', r).
Proof. unfold run. intros ->. reflexivity. Qed.

(** One step forward: the first action returns. *)
Ltac ok_step tac :=
  refine (eq_trans (bind_ok _ _ _ _ _ _) _); [ tac | cbv beta zeta ].

(** The last step: the first action raises. *)
Ltac raise_step tac :=
  refine (eq_trans (bind_raise _ _ _ _ _ _) _);
  [ tac | cbn [st_trace st_graph]; rewrite <- ?app_assoc; reflexivity ].

Ltac pure_eq H := refine (f_equal (pair _) _); exact H.

Ltac to_backbone self Hcheck Hpad Hbb :=
  cbv beta iota delta
    [extract_features A1.extract_features B1.extract_features];
  ok_step ltac:(unfold lift; rewrite Hcheck; reflexivity);
  ok_step ltac:(refine (call_run (pad_to_multiple _ (_pad_to_multiple self))
                          _ _ _ _);
                exact Hpad);
  ok_step ltac:(refine (call_run (mnasnet_base _ _ _ _ _ _) _ _ _ _);
                exact Hbb).

Ltac to_pyramid V self Hcheck Hpad Hbb Hkeys Hins Hdepth Hfpn :=
  to_backbone self Hcheck Hpad Hbb;
  ok_step ltac:(rewrite for_append_lift; pure_eq Hkeys);
  ok_step ltac:(rewrite (for_append_pure _ _ (keyed_pure _)); pure_eq Hins);
  ok_step ltac:(unfold lift; pure_eq Hdepth);
  ok_step ltac:(refine (call_run (fpn_top_down_feature_maps _ _ _ _ _)
                          _ _ _ _);
                exact Hfpn).

Lemma bind_result {A B} (m : M A) (k : A -> M B) s s1 r :
  m s = (s1, r) ->
  bind m k s = match r with Ok a => k a s1 | Raise e => (s1, Raise e) end.
Proof. unfold bind. intros ->. destruct r; reflexivity. Qed.

Section ToPad.
Variables (v : variant) (self : extractor) (x : tensor) (s : state).
Variable x1 : tensor.
Hypothesis Hcheck : check_min_image_dim 33 x = Ok x1.

(** [pad_to_multiple] raises: the run ends there. *)
Lemma raises_at_pad g1 e :
  run_op (pad_to_multiple x1 (_pad_to_multiple self)) (st_graph s)
  = (g1, Raise e) ->
  extract_features v self x s
  = ({| st_graph := g1;
        st_trace :=
          st_trace s
          ++ [{| ev_op := pad_to_multiple x1 (_pad_to_multiple self);
                 ev_result := Raise e |}] |},
     Raise e).
Proof.
  intros Hpad.
  destruct v;
    cbv beta iota delta
      [extract_features A1.extract_features B1.extract_features];
    ok_step ltac:(unfold lift; rewrite Hcheck; reflexivity);
    raise_step
      ltac:(refine (call_run (pad_to_multiple _ (_pad_to_multiple self))
                      _ _ _ _);
            exact Hpad).
Qed.

(** [mnasnet_base] raises: the run ends there. *)
Lemma raises_at_backbone (padded : tensor) g1 g2 e :
  run_op (pad_to_multiple x1 (_pad_to_multiple self)) (st_graph s)
  = (g1, Ok padded) ->
  run_op (mnasnet_base (sc_base self) padded (final_endpoint_of v)
            (_depth_multiplier self) (_conv_defs self)
            (_use_explicit_padding self)) g1
  = (g2, Raise e) ->
  extract_features v self x s
  = ({| st_graph := g2;
        st_trace :=
          st_trace s
          ++ [{| ev_op := pad_to_multiple x1 (_pad_to_multiple self);
                 ev_result := Ok padded |};
              {| ev_op := mnasnet_base (sc_base self) padded
                            (final_endpoint_of v) (_depth_multiplier self)
                            (_conv_defs self) (_use_explicit_padding self);
                 ev_result := Raise e |}] |},
     Raise e).
Proof.
  intros Hpad Hbb.
  destruct v;
    cbv beta iota delta
      [extract_features A1.extract_features B1.extract_features];
    ok_step ltac:(unfold lift; rewrite Hcheck; reflexivity);
    ok_step ltac:(refine (call_run (pad_to_multiple _ (_pad_to_multiple self))
                            _ _ _ _);
                  exact Hpad);
    raise_step
      ltac:(refine (call_run (mnasnet_base _ _ _ _ _ _) _ _ _ _); exact Hbb).
Qed.

End ToPad.

Section ToBackbone.
Variables (v : variant) (self : extractor) (x : tensor) (s : state).
Variables (x1 padded net : tensor) (g1 g2 : graph).
Variable image_features : dict tensor.
Hypothesis Hcheck : check_min_image_dim 33 x = Ok x1.
Hypothesis Hpad :
  run_op (pad_to_multiple x1 (_pad_to_multiple self)) (st_graph s)
  = (g1, Ok padded).
Hypothesis Hbb :
  run_op (mnasnet_base (sc_base self) padded (final_endpoint_of v)
            (_depth_multiplier self) (_conv_defs self)
            (_use_explicit_padding self)) g1
  = (g2, Ok (net, image_features)).

(** The state once the backbone has returned. *)
Let after_backbone : state :=
  {| st_graph := g2;
     st_trace :=
       st_trace s
       ++ [{| ev_op := pad_to_multiple x1 (_pad_to_multiple self);
              ev_result := Ok padded |};
           {| ev_op := mnasnet_base (sc_base self) padded (final_endpoint_of v)
                         (_depth_multiplier self) (_conv_defs self)
                         (_use_explicit_padding self);
              ev_result := Ok (net, image_features) |}] |}.

Lemma raises_at_feature_blocks e :
  feature_block_list v self = Raise e ->
  extract_features v self x s = (after_backbone, Raise e).
Proof.
  intros Hkeys. subst after_backbone. destruct v.
  - to_backbone self Hcheck Hpad Hbb.
    raise_step ltac:(rewrite for_append_lift; pure_eq Hkeys).
  - to_backbone self Hcheck Hpad Hbb.
    raise_step ltac:(rewrite for_append_lift; pure_eq Hkeys).
Qed.

Lemma raises_at_inputs keys e :
  feature_block_list v self = Ok keys ->
  map_result (keyed image_features) keys = Raise e ->
  extract_features v self x s = (after_backbone, Raise e).
Proof.
  intros Hkeys Hins. subst after_backbone. destruct v.
  - to_backbone self Hcheck Hpad Hbb.
    ok_step ltac:(rewrite for_append_lift; pure_eq Hkeys).
    raise_step ltac:(rewrite (for_append_pure _ _ (keyed_pure _));
                     pure_eq Hins).
  - to_backbone self Hcheck Hpad Hbb.
    ok_step ltac:(rewrite for_append_lift; pure_eq Hkeys).
    raise_step ltac:(rewrite (for_append_pure _ _ (keyed_pure _));
                     pure_eq Hins).
Qed.

Lemma raises_at_depth keys inputs e :
  feature_block_list v self = Ok keys ->
  map_result (keyed image_features) keys = Ok inputs ->
  depth_fn self (_additional_layer_depth self) = Raise e ->
  extract_features v self x s = (after_backbone, Raise e).
Proof.
  intros Hkeys Hins Hdepth. subst after_backbone. destruct v.
  - to_backbone self Hcheck Hpad Hbb.
    ok_step ltac:(rewrite for_append_lift; pure_eq Hkeys).
    ok_step ltac:(rewrite (for_append_pure _ _ (keyed_pure _)); pure_eq Hins).
    raise_step ltac:(unfold lift; pure_eq Hdepth).
  - to_backbone self Hcheck Hpad Hbb.
    ok_step ltac:(rewrite for_append_lift; pure_eq Hkeys).
    ok_step ltac:(rewrite (for_append_pure _ _ (keyed_pure _)); pure_eq Hins).
    raise_step ltac:(unfold lift; pure_eq Hdepth).
Qed.

Section ToPyramid.
Variables (keys : list string) (inputs : list (string * tensor)) (depth : Z).
Variables (g3 : graph) (fpn_features : dict tensor).
Hypothesis Hkeys : feature_block_list v self = Ok keys.
Hypothesis Hins : map_result (keyed image_features) keys = Ok inputs.
Hypothesis Hdepth : depth_fn self (_additional_layer_depth self) = Ok depth.
Hypothesis Hfpn :
  run_op (fpn_top_down_feature_maps (sc_fpn self) inputs depth
            (_use_depthwise self) (_use_explicit_padding self)) g2
  = (g3, Ok fpn_features).

(** The state once the pyramid generator has returned. *)
Let after_pyramid : state :=
  {| st_graph := g3;
     st_trace :=
       st_trace s
       ++ [{| ev_op := pad_to_multiple x1 (_pad_to_multiple self);
              ev_result := Ok padded |};
           {| ev_op := mnasnet_base (sc_base self) padded (final_endpoint_of v)
                         (_depth_multiplier self) (_conv_defs self)
                         (_use_explicit_padding self);
              ev_result := Ok (net, image_features) |};
           {| ev_op := fpn_top_down_feature_maps (sc_fpn self) inputs depth
                         (_use_depthwise self) (_use_explicit_padding self);
              ev_result := Ok fpn_features |}] |}.

Lemma raises_at_top_down e :
  map_result (top_down_of v fpn_features)
             (range (_fpn_min_level self) (base_fpn_max_level self + 1))
  = Raise e ->
  extract_features v self x s = (after_pyramid, Raise e).
Proof.
  intros Hmaps. subst after_pyramid. destruct v.
  - to_pyramid MNASNetA1 self Hcheck Hpad Hbb Hkeys Hins Hdepth Hfpn.
    raise_step
      ltac:(rewrite (for_append_pure _ _ (top_down_pure MNASNetA1 _));
            pure_eq Hmaps).
  - to_pyramid MNASNetB1 self Hcheck Hpad Hbb Hkeys Hins Hdepth Hfpn.
    raise_step
      ltac:(rewrite (for_append_pure _ _ (top_down_pure MNASNetB1 _));
            pure_eq Hmaps).
Qed.

Lemma raises_at_last fpn_maps e :
  map_result (top_down_of v fpn_features)
             (range (_fpn_min_level self) (base_fpn_max_level self + 1))
  = Ok fpn_maps ->
  top_down_of v fpn_features (base_fpn_max_level self) = Raise e ->
  extract_features v self x s = (after_pyramid, Raise e).
Proof.
  intros Hmaps Hlast. subst after_pyramid.
  unfold top_down_of in Hlast.
  destruct (getitem (feature_blocks_of v) (base_fpn_max_level self - 2))
    as [b | e'] eqn:Hb.
  - destruct v.
    + to_pyramid MNASNetA1 self Hcheck Hpad Hbb Hkeys Hins Hdepth Hfpn.
      ok_step ltac:(rewrite (for_append_pure _ _ (top_down_pure MNASNetA1 _));
                    pure_eq Hmaps).
      ok_step ltac:(unfold lift; pure_eq Hb).
      raise_step ltac:(unfold lift; pure_eq Hlast).
    + to_pyramid MNASNetB1 self Hcheck Hpad Hbb Hkeys Hins Hdepth Hfpn.
      ok_step ltac:(rewrite (for_append_pure _ _ (top_down_pure MNASNetB1 _));
                    pure_eq Hmaps).
      ok_step ltac:(unfold lift; pure_eq Hb).
      raise_step ltac:(unfold lift; pure_eq Hlast).
  - injection Hlast as ->. destruct v.
    + to_pyramid MNASNetA1 self Hcheck Hpad Hbb Hkeys Hins Hdepth Hfpn.
      ok_step ltac:(rewrite (for_append_pure _ _ (top_down_pure MNASNetA1 _));
                    pure_eq Hmaps).
      raise_step ltac:(unfold lift; pure_eq Hb).
    + to_pyramid MNASNetB1 self Hcheck Hpad Hbb Hkeys Hins Hdepth Hfpn.
      ok_step ltac:(rewrite (for_append_pure _ _ (top_down_pure MNASNetB1 _));
                    pure_eq Hmaps).
      raise_step ltac:(unfold lift; pure_eq Hb).
Qed.

(** Once the last top-down map is read, the run is the coarse loop. *)
Lemma run_through_the_loop fpn_maps last s'
    (r : result (tensor * list tensor)) :
  map_result (top_down_of v fpn_features)
             (range (_fpn_min_level self) (base_fpn_max_level self + 1))
  = Ok fpn_maps ->
  top_down_of v fpn_features (base_fpn_max_level self) = Ok last ->
  for_fold (coarse_body self)
    (range (base_fpn_max_level self + 1) (_fpn_max_level self + 1))
    (last, fpn_maps) after_pyramid
  = (s', r) ->
  extract_features v self x s
  = (s', match r with
         | Ok (_, feature_maps) => Ok feature_maps
         | Raise e => Raise e
         end).
Proof.
  intros Hmaps Hlast Hloop. subst after_pyramid.
  unfold top_down_of in Hlast.
  destruct (getitem (feature_blocks_of v) (base_fpn_max_level self - 2))
    as [b | e'] eqn:Hb; [| discriminate Hlast].
  destruct v.
  - to_pyramid MNASNetA1 self Hcheck Hpad Hbb Hkeys Hins Hdepth Hfpn.
    ok_step ltac:(rewrite (for_append_pure _ _ (top_down_pure MNASNetA1 _));
                  pure_eq Hmaps).
    ok_step ltac:(unfold lift; pure_eq Hb).
    ok_step ltac:(unfold lift; pure_eq Hlast).
    cbn [st_trace st_graph]. rewrite <- !app_assoc. cbn [app].
    refine (eq_trans (bind_result _ _ _ _ _ Hloop) _).
    destruct r as [[? ?] | ?]; reflexivity.
  - to_pyramid MNASNetB1 self Hcheck Hpad Hbb Hkeys Hins Hdepth Hfpn.
    ok_step ltac:(rewrite (for_append_pure _ _ (top_down_pure MNASNetB1 _));
                  pure_eq Hmaps).
    ok_step ltac:(unfold lift; pure_eq Hb).
    ok_step ltac:(unfold lift; pure_eq Hlast).
    cbn [st_trace st_graph]. rewrite <- !app_assoc. cbn [app].
    refine (eq_trans (bind_result _ _ _ _ _ Hloop) _).
    destruct r as [[? ?] | ?]; reflexivity.
Qed.

End ToPyramid.

Section AtPyramid.
Variables (keys : list string) (inputs : list (string * tensor)) (depth : Z).
Hypothesis Hkeys : feature_block_list v self = Ok keys.
Hypothesis Hins : map_result (keyed image_features) keys = Ok inputs.
Hypothesis Hdepth : depth_fn self (_additional_layer_depth self) = Ok depth.

(** [fpn_top_down_feature_maps] raises: the run ends there. *)
Lemma raises_at_pyramid g3 e :
  run_op (fpn_top_down_feature_maps (sc_fpn self) inputs depth
            (_use_depthwise self) (_use_explicit_padding self)) g2
  = (g3, Raise e) ->
  extract_features v self x s
  = ({| st_graph := g3;
        st_trace :=
          st_trace s
          ++ [{| ev_op := pad_to_multiple x1 (_pad_to_multiple self);
                 ev_result := Ok padded |};
              {| ev_op := mnasnet_base (sc_base self) padded
                            (final_endpoint_of v) (_depth_multiplier self)
                            (_conv_defs self) (_use_explicit_padding self);
                 ev_result := Ok (net, image_features) |};
              {| ev_op := fpn_top_down_feature_maps (sc_fpn self) inputs depth
                            (_use_depthwise self) (_use_explicit_padding self);
                 ev_result := Raise e |}] |},
     Raise e).
Proof.
  intros Hfpn. destruct v.
  - to_backbone self Hcheck Hpad Hbb.
    ok_step ltac:(rewrite for_append_lift; pure_eq Hkeys).
    ok_step ltac:(rewrite (for_append_pure _ _ (keyed_pure _)); pure_eq Hins).
    ok_step ltac:(unfold lift; pure_eq Hdepth).
    raise_step
      ltac:(refine (call_run (fpn_top_down_feature_maps _ _ _ _ _) _ _ _ _);
            exact Hfpn).
  - to_backbone self Hcheck Hpad Hbb.
    ok_step ltac:(rewrite for_append_lift; pure_eq Hkeys).
    ok_step ltac:(rewrite (for_append_pure _ _ (keyed_pure _)); pure_eq Hins).
    ok_step ltac:(unfold lift; pure_eq Hdepth).
    raise_step
      ltac:(refine (call_run (fpn_top_down_feature_maps _ _ _ _ _) _ _ _ _);
            exact Hfpn).
Qed.

End AtPyramid.
End ToBackbone.
End Forward.

(* ================================================================== *)
(** * Facts about the plan of a run *)
(* ================================================================== *)

Lemma str_of_int_inj a b : str_of_int a = str_of_int b -> a = b.
Proof.
  unfold str_of_int. intros H.
  assert (Hnil : forall z, Z.to_int z <> Decimal.Pos Decimal.Nil /\
                           Z.to_int z <> Decimal.Neg Decimal.Nil).
  { intros [| p | p]; cbn [Z.to_int]; split; try discriminate;
      intros E; injection E as E;
      exact (DecimalPos.Unsigned.to_uint_nonnil p E). }
  apply (f_equal NilZero.int_of_string) in H.
  rewrite !NilZero.isi in H by apply Hnil.
  injection H as H. apply (f_equal Z.of_int) in H.
  rewrite !DecimalZ.of_to in H. exact H.
Qed.

Lemma format_bottom_up_Conv2d_inj a b :
  format_bottom_up_Conv2d a = format_bottom_up_Conv2d b -> a = b.
Proof.
  unfold format_bottom_up_Conv2d. cbn [String.append]. intros H.
  injection H as H. exact (str_of_int_inj a b H).
Qed.

(** The front of a numbered list is numbered the same way. *)
Lemma prefix_of_map_seq {B} (f : nat -> B) l :
  forall rest start n,
    l ++ rest = map f (seq start n) ->
    l = map f (seq start (List.length l)) /\ (List.length l <= n)%nat.
Proof.
  induction l as [| a l IH]; intros rest start n H.
  - split; [reflexivity | apply Nat.le_0_l].
  - destruct n as [| n]; [discriminate H |].
    cbn [seq map app] in H. injection H as -> H.
    destruct (IH rest (S start) n H) as [Hl Hn].
    split; [| simpl; lia].
    cbn [List.length seq map]. f_equal. exact Hl.
Qed.

Lemma distinct_NoDup l : distinct l = true <-> NoDup l.
Proof.
  induction l as [| a l IH]; cbn [distinct].
  - split; [intros _; constructor | reflexivity].
  - rewrite andb_true_iff, negb_true_iff, IH. split.
    + intros [Ha Hl]. constructor; [| exact Hl]. intros Hin.
      assert (Hex : existsb (String.eqb a) l = true)
        by (apply existsb_exists; exists a; split;
            [exact Hin | apply String.eqb_refl]).
      rewrite Hex in Ha. discriminate Ha.
    + intros H. inversion H as [| a' l' Hnin Hl]; subst. split; [| exact Hl].
      destruct (existsb (String.eqb a) l) eqn:Hex; [| reflexivity].
      apply existsb_exists in Hex. destruct Hex as (b & Hb & Hab).
      apply String.eqb_eq in Hab. subst b. contradiction.
Qed.

Section PlanFacts.
Context {FT : FrameworkTypes} {FW : Framework}.

Lemma sig_stage_signature (o : op) : sig_stage (signature o) = stage o.
Proof. destruct o; reflexivity. Qed.

Lemma coarse_plan_stage self depth levels sg :
  In sg (flat_map (coarse_plan self depth) levels) -> sig_stage sg = 3%nat.
Proof.
  intros H. apply in_flat_map in H. destruct H as (i & _ & H).
  unfold coarse_plan, conv_sig in H. apply in_app_or in H.
  destruct H as [H | [<- | []]].
  - destruct (_use_explicit_padding self); [| destruct H].
    destruct H as [<- | []]. reflexivity.
  - destruct (_use_depthwise self); reflexivity.
Qed.

Lemma plan_stage v self i sg :
  nth_error (layer_plan v self) i = Some sg -> sig_stage sg = Nat.min i 3.
Proof.
  unfold layer_plan.
  destruct i as [| [| i]]; cbn [nth_error].
  - intros H. injection H as <-. reflexivity.
  - intros H. injection H as <-. reflexivity.
  - destruct (feature_block_list v self) as [keys |];
      [| destruct i; discriminate].
    destruct (depth_fn self (_additional_layer_depth self)) as [depth |];
      [| destruct i; discriminate].
    destruct i as [| i]; cbn [nth_error].
    + intros H. injection H as <-. reflexivity.
    + intros H. apply nth_error_In in H.
      rewrite (coarse_plan_stage _ _ _ _ H). lia.
Qed.

(** The [i]-th call of a run is the [i]-th call of the plan. *)
Lemma run_nth_plan v self x g t g' (r : result (list tensor)) i ev :
  run (extract_features v self x) g = (t, g', r) ->
  nth_error t i = Some ev ->
  nth_error (layer_plan v self) i = Some (signature (ev_op ev)).
Proof.
  intros Hrun Hi.
  destruct (run_follows_plan _ _ _ _ _ _ _ Hrun) as (rest & ->).
  rewrite nth_error_app1.
  - unfold signatures.
    exact (map_nth_error (fun ev => signature (ev_op ev)) i t Hi).
  - unfold signatures. rewrite length_map. apply nth_error_Some. congruence.
Qed.

Lemma coarse_plan_length self depth levels :
  List.length (flat_map (coarse_plan self depth) levels)
  = ((if _use_explicit_padding self then 2 else 1) * List.length levels)%nat.
Proof.
  induction levels as [| i levels IH]; cbn [flat_map List.length].
  - rewrite Nat.mul_0_r. reflexivity.
  - rewrite length_app, IH. unfold coarse_plan. rewrite length_app.
    destruct (_use_explicit_padding self); cbn [List.length]; lia.
Qed.

Lemma coarse_levels_length self :
  List.length (range (base_fpn_max_level self + 1) (_fpn_max_level self + 1))
  = Z.to_nat (_fpn_max_level self - 5).
Proof. rewrite range_length. unfold base_fpn_max_level. lia. Qed.

Lemma plan_length v self :
  (List.length (layer_plan v self) <= most_calls self)%nat /\
  (is_ok (feature_block_list v self) = true ->
   is_ok (depth_fn self (_additional_layer_depth self)) = true ->
   List.length (layer_plan v self) = most_calls self).
Proof.
  unfold layer_plan, most_calls.
  destruct (feature_block_list v self) as [keys |];
    [| split; [cbn [List.length]; nia | discriminate]].
  destruct (depth_fn self (_additional_layer_depth self)) as [depth |];
    [| split; [cbn [List.length]; nia | discriminate]].
  cbn [List.length]. rewrite coarse_plan_length, coarse_levels_length.
  split; [lia | intros _ _; reflexivity].
Qed.

Lemma conv_scopes_signatures t : conv_scopes t = sig_scopes (signatures t).
Proof.
  unfold conv_scopes, sig_scopes, signatures.
  induction t as [| ev t IH]; [reflexivity |].
  cbn [flat_map map]. rewrite IH. f_equal.
  destruct (ev_op ev); reflexivity.
Qed.

Lemma sig_scopes_app l1 l2 :
  sig_scopes (l1 ++ l2) = sig_scopes l1 ++ sig_scopes l2.
Proof. apply flat_map_app. Qed.

Lemma coarse_plan_scopes self depth levels :
  sig_scopes (flat_map (coarse_plan self depth) levels)
  = map (fun i => format_bottom_up_Conv2d (i - base_fpn_max_level self + 19))
        levels.
Proof.
  induction levels as [| i levels IH]; [reflexivity |].
  cbn [flat_map map]. rewrite sig_scopes_app, IH. f_equal.
  unfold coarse_plan, conv_sig.
  destruct (_use_explicit_padding self), (_use_depthwise self); reflexivity.
Qed.

(** The scopes of the plan, numbered from 20. *)
Lemma plan_scopes v self :
  exists n, (n <= Z.to_nat (_fpn_max_level self - 5))%nat /\
    sig_scopes (layer_plan v self)
    = map (fun k => format_bottom_up_Conv2d (20 + Z.of_nat k)) (seq 0 n).
Proof.
  unfold layer_plan.
  destruct (feature_block_list v self) as [keys |];
    [| exists 0%nat; split; [lia | reflexivity]].
  destruct (depth_fn self (_additional_layer_depth self)) as [depth |];
    [| exists 0%nat; split; [lia | reflexivity]].
  exists (Z.to_nat (_fpn_max_level self - 5)). split; [lia |].
  change (sig_scopes
            (flat_map (coarse_plan self depth)
               (range (base_fpn_max_level self + 1) (_fpn_max_level self + 1)))
          = map (fun k => format_bottom_up_Conv2d (20 + Z.of_nat k))
                (seq 0 (Z.to_nat (_fpn_max_level self - 5)))).
  rewrite coarse_plan_scopes. unfold range, base_fpn_max_level.
  rewrite map_map.
  replace (Z.to_nat (_fpn_max_level self + 1
                     - (Z.min (_fpn_max_level self) 5 + 1)))
    with (Z.to_nat (_fpn_max_level self - 5)) by lia.
  apply map_ext_in. intros k Hk. apply in_seq in Hk. f_equal. lia.
Qed.

End PlanFacts.

(* ================================================================== *)
(** * Numbers that are not rounded *)
(* ================================================================== *)

Module Exact.
Import IEEE.

Lemma digits_exact m n :
  2 ^ (n - 1) <= Z.pos m < 2 ^ n -> Z.pos (digits2_pos m) = n.
Proof.
  intros [Hlo Hhi].
  pose proof (Rounding.digits2_pos_bounds m) as [Dlo Dhi].
  assert (Hn : 0 < n).
  { destruct (Z.lt_ge_cases 0 n) as [H | H]; [exact H |].
    assert (n = 0 \/ n < 0) as [-> | Hneg] by lia.
    - change (2 ^ 0) with 1 in Hhi. lia.
    - rewrite Z.pow_neg_r in Hhi by exact Hneg. lia. }
  destruct (Z.lt_trichotomy (Z.pos (digits2_pos m)) n) as [H | [H | H]].
  - assert (2 ^ Z.pos (digits2_pos m) <= 2 ^ (n - 1))
      by (apply Z.pow_le_mono_r; lia).
    lia.
  - exact H.
  - assert (2 ^ n <= 2 ^ (Z.pos (digits2_pos m) - 1))
      by (apply Z.pow_le_mono_r; lia).
    lia.
Qed.

Section Format.
Variables prec emax : Z.
Hypothesis Hprec : 0 < prec.

(** A mantissa of [prec] digits followed by [k] zero bits is shifted back
    to the mantissa, and nothing is rounded. *)
Lemma binary_round_aux_exact s m e k M :
  0 <= k -> M = Z.pos m * 2 ^ k ->
  Z.pos (digits2_pos m) = prec ->
  emin_of prec emax <= e + k -> e + k <= emax - prec ->
  binary_round_aux prec emax s M e loc_Exact = S754_finite s m (e + k).
Proof.
  intros Hk HM Hd Hemin Hemax.
  pose proof (Rounding.digits2_pos_bounds m) as [Dlo Dhi]. rewrite Hd in *.
  assert (H2k : 0 < 2 ^ k) by (apply Z.pow_pos_nonneg; lia).
  assert (HMpos : 0 < M) by (subst M; lia).
  destruct M as [| q | q] eqn:EM; try lia.
  assert (Hdq : Z.pos (digits2_pos q) = prec + k).
  { apply digits_exact. rewrite HM.
    replace (prec + k - 1) with (prec - 1 + k) by lia.
    rewrite !Z.pow_add_r by lia. split.
    - apply Z.mul_le_mono_nonneg_r; lia.
    - apply Z.mul_lt_mono_pos_r; lia. }
  unfold binary_round_aux.
  destruct (Rounding.shr_fexp_spec prec emax (Z.pos q) e)
    as (mrs1 & E1 & Hq1 & _ & Hex1); [lia |].
  rewrite E1. clear E1.
  cbn [Zdigits2] in Hq1, Hex1 |- *. rewrite Hdq in *.
  rewrite Rounding.fexp_eq in *.
  replace (Z.max e (Z.max (prec + k + e - prec) (emin_of prec emax)))
    with (e + k) in * by lia.
  replace (e + k - e) with k in * by lia.
  rewrite HM in Hq1, Hex1.
  rewrite Z.div_mul in Hq1 by lia.
  rewrite Z.mod_mul in Hex1 by lia.
  rewrite Hq1, (Hex1 eq_refl).
  rewrite (proj2 (Rounding.round_nearest_even_bounds (Z.pos m) loc_Exact)
             eq_refl).
  destruct (Rounding.shr_fexp_spec prec emax (Z.pos m) (e + k))
    as (mrs2 & E2 & Hq2 & _ & _); [lia |].
  rewrite E2. clear E2.
  cbn [Zdigits2] in Hq2 |- *. rewrite Hd in *.
  rewrite Rounding.fexp_eq in *.
  replace (Z.max (e + k) (Z.max (prec + (e + k) - prec) (emin_of prec emax)))
    with (e + k) in * by lia.
  rewrite Z.sub_diag in Hq2. change (2 ^ 0) with 1 in Hq2.
  rewrite Z.div_1_r in Hq2. rewrite Hq2.
  destruct (Z.leb_spec (e + k) (emax - prec)); [reflexivity | lia].
Qed.

End Format.

(** A Python [int] below [2^53] is a [float] as it is. *)
Lemma float_of_int_exact (p : positive) :
  Z.pos p < 2 ^ 53 ->
  exists m e,
    float_of_int (Z.pos p) = Ok (S754_finite false m e) /\
    -52 <= e <= 0 /\
    Z.pos m = Z.pos p * 2 ^ (- e) /\
    Z.pos (digits2_pos m) = 53.
Proof.
  intros Hp.
  pose proof (Rounding.digits2_pos_bounds p) as [Dlo Dhi].
  set (d := Z.pos (digits2_pos p)) in *.
  assert (Hd : 1 <= d <= 53).
  { split; [subst d; lia |].
    destruct (Z.le_gt_cases d 53) as [H | H]; [exact H |].
    assert (2 ^ 53 <= 2 ^ (d - 1)) by (apply Z.pow_le_mono_r; lia). lia. }
  unfold float_of_int, binary_normalize, binary_round.
  pose proof (Rounding.shl_align_spec p 0
                (fexp prec emax (Z.pos (digits2_pos p) + 0))) as [H1 H2].
  destruct (shl_align p 0 (fexp prec emax (Z.pos (digits2_pos p) + 0)))
    as [mz ez]. cbn [fst snd] in H1, H2.
  rewrite Rounding.fexp_eq in H1. fold d in H1.
  assert (Hez : ez = d - 53)
    by (unfold emin_of, prec, emax in H1; lia).
  rewrite Z.sub_0_l in H2.
  assert (Hmz : Z.pos (digits2_pos mz) = 53).
  { apply digits_exact. rewrite H2, Hez.
    assert (Hpow : forall a, 0 <= a ->
              2 ^ a = 2 ^ (a - (53 - d)) * 2 ^ (53 - d) \/ a < 53 - d).
    { intros a Ha. destruct (Z.lt_ge_cases a (53 - d)); [right; lia |].
      left. rewrite <- Z.pow_add_r by lia. f_equal. lia. }
    replace (- (d - 53)) with (53 - d) by lia.
    assert (H0 : 0 < 2 ^ (53 - d)) by (apply Z.pow_pos_nonneg; lia).
    destruct (Hpow (53 - 1) ltac:(lia)) as [E | E]; [| lia].
    destruct (Hpow 53 ltac:(lia)) as [E' | E']; [| lia].
    rewrite E, E'.
    replace (53 - 1 - (53 - d)) with (d - 1) by lia.
    replace (53 - (53 - d)) with d by lia. split.
    - apply Z.mul_le_mono_nonneg_r; lia.
    - apply Z.mul_lt_mono_pos_r; lia. }
  rewrite (binary_round_aux_exact prec emax ltac:(reflexivity)
             false mz ez 0 (Z.pos mz));
    [ | lia | change (2 ^ 0) with 1; lia | exact Hmz
      | unfold emin_of, prec, emax; lia | unfold prec, emax; lia ].
  rewrite Z.add_0_r.
  exists mz, ez. split; [reflexivity |]. split; [lia |].
  split; [exact H2 | exact Hmz].
Qed.

(** Multiplying by [1.0] changes nothing. *)
Lemma fmul_one_exact m e :
  Z.pos (digits2_pos m) = 53 -> -52 <= e <= 0 ->
  fmul (S754_finite false m e) (float_lit 1) = S754_finite false m e.
Proof.
  intros Hm He.
  change (float_lit 1) with (S754_finite false 4503599627370496 (-52)).
  unfold fmul. cbn [SFmul xorb].
  rewrite (binary_round_aux_exact prec emax ltac:(reflexivity)
             false m (e + -52) 52 (Z.pos (m * 4503599627370496)));
    [ f_equal; lia | lia | rewrite Pos2Z.inj_mul; reflexivity | exact Hm
    | unfold emin_of, prec, emax; lia | unfold prec, emax; lia ].
Qed.

End Exact.

(* ================================================================== *)
(** * Facts about the 8-bit pixel values *)
(* ================================================================== *)

Module BytesFacts.
Import IEEE.

Lemma preprocess_data (x : ieee_tensor) :
  t_data (A1.preprocess (TA := arith) x) = map (pixel (t_dtype x)) (t_data x).
Proof.
  unfold A1.preprocess.
  cbn [tensor_sub tensor_rmul arith t_data t_dtype].
  rewrite map_map. reflexivity.
Qed.

Lemma increasing_nth l :
  Bytes.increasing l = true ->
  forall i j a b,
    (i < j)%nat -> nth_error l i = Some a -> nth_error l j = Some b ->
    SFltb a b = true.
Proof.
  induction l as [| c l IH]; intros H i j a b Hij Hi Hj.
  - destruct i; discriminate Hi.
  - cbn [Bytes.increasing] in H. apply andb_prop in H. destruct H as [Hc Hl].
    destruct j as [| j]; [lia |]. cbn [nth_error] in Hj.
    destruct i as [| i]; cbn [nth_error] in Hi.
    + injection Hi as <-. apply nth_error_In in Hj.
      exact (proj1 (forallb_forall _ _) Hc b Hj).
    + apply (IH Hl i j a b); [lia | exact Hi | exact Hj].
Qed.

Lemma pixels_nth dt n k :
  0 <= k < n ->
  nth_error (Bytes.pixels dt n) (Z.to_nat k) = Some (pixel dt (of_int dt k)).
Proof.
  intros Hk. unfold Bytes.pixels.
  rewrite nth_error_map, range_nth by lia. cbn [option_map].
  do 3 f_equal. lia.
Qed.

Lemma SFltb_SFleb a b : SFltb a b = true -> SFleb a b = true.
Proof.
  unfold SFltb, SFleb. destruct (SFcompare a b) as [[| |] |];
    first [reflexivity | discriminate].
Qed.

End BytesFacts.

(* ================================================================== *)
(** * Levels below the documented ones *)
(* ================================================================== *)

(** Levels -2 to 5 all index a feature block, those below 2 from the end:
    a level below 2 gets the block of the level four above it. *)
Lemma getitem_feature_blocks_reach v level :
  -2 <= level <= 5 ->
  exists b, getitem (feature_blocks_of v) (level - 2) = Ok b /\
            In b (feature_blocks_of v) /\
            (level < 2 ->
             getitem (feature_blocks_of v) (level + 4 - 2) = Ok b).
Proof.
  intros H.
  assert (Hl : level = -2 \/ level = -1 \/ level = 0 \/ level = 1 \/
               level = 2 \/ level = 3 \/ level = 4 \/ level = 5) by lia.
  destruct v;
    destruct Hl as [-> | [-> | [-> | [-> | [-> | [-> | [-> | ->]]]]]]];
    eexists;
    (split; [reflexivity
            | split; [simpl; tauto
                     | intros Hlt; first [reflexivity | exfalso; lia]]]).
Qed.

Section Reach.
Context {FT : FrameworkTypes} {FW : Framework}.

Lemma top_down_of_wrapped v (fpn_features : dict tensor) level m :
  -2 <= level < 2 ->
  top_down_of v fpn_features level = Ok m ->
  top_down_of v fpn_features (level + 4) = Ok m.
Proof.
  intros Hl H. unfold top_down_of in *.
  destruct (getitem_feature_blocks_reach v level ltac:(lia))
    as (b & Hb & _ & Hw).
  rewrite Hb in H. rewrite (Hw (proj2 Hl)). exact H.
Qed.

End Reach.

(* ================================================================== *)
(** * Runs in which every call returns *)
(* ================================================================== *)

Section LoopCases.
Context {FT : FrameworkTypes} {FW : Framework}.

Lemma raised_conv_event self x n scope_name (r : result tensor) :
  raised (conv_event self x n scope_name r)
  = match r with Ok _ => None | Raise e => Some e end.
Proof. unfold conv_event, raised. destruct (_use_depthwise self); reflexivity. Qed.

Lemma returned_raised ev e : raised ev = Some e -> returned ev = false.
Proof.
  unfold raised, returned.
  destruct (ev_result ev); [discriminate | reflexivity].
Qed.

(** One round of the coarse loop, whatever its calls do. *)
Lemma coarse_body_cases self n last fms i s s'
    (r : result (tensor * list tensor)) :
  depth_fn self (_additional_layer_depth self) = Ok n ->
  coarse_body self (last, fms) i s = (s', r) ->
  (_use_explicit_padding self = false /\
   exists rc : result tensor,
     run_conv self last n
       (format_bottom_up_Conv2d (i - base_fpn_max_level self + 19))
       (st_graph s) = (st_graph s', rc) /\
     st_trace s'
     = st_trace s
       ++ [conv_event self last n
             (format_bottom_up_Conv2d (i - base_fpn_max_level self + 19)) rc] /\
     r = match rc with
         | Ok m => Ok (m, fms ++ [m])
         | Raise e => Raise e
         end) \/
  (_use_explicit_padding self = true /\
   exists g1 (rp : result tensor),
     run_op (fixed_padding last 3) (st_graph s) = (g1, rp) /\
     match rp with
     | Raise e =>
         st_graph s' = g1 /\
         st_trace s'
         = st_trace s
           ++ [{| ev_op := fixed_padding last 3; ev_result := Raise e |}] /\
         r = Raise e
     | Ok p =>
         exists rc : result tensor,
           run_conv self p n
             (format_bottom_up_Conv2d (i - base_fpn_max_level self + 19)) g1
           = (st_graph s', rc) /\
           st_trace s'
           = st_trace s
             ++ [{| ev_op := fixed_padding last 3; ev_result := Ok p |};
                 conv_event self p n
                   (format_bottom_up_Conv2d
                      (i - base_fpn_max_level self + 19)) rc] /\
           r = match rc with
               | Ok m => Ok (m, fms ++ [m])
               | Raise e => Raise e
               end
     end).
Proof.
  intros Hd H. unfold coarse_body in H.
  destruct (_use_explicit_padding self) eqn:Huep.
  - right. split; [reflexivity |].
    apply bind_inv in H. destruct H as [(e & Hp & ->) | (sa & p & Hp & H)].
    + destruct (call_inv (fixed_padding last 3) _ _ _ Hp) as (g1 & Hfp & ->).
      exists g1, (Raise e). split; [exact Hfp |]. repeat split.
    + destruct (call_inv (fixed_padding last 3) _ _ _ Hp) as (g1 & Hfp & ->).
      exists g1, (Ok p). split; [exact Hfp |].
      apply bind_inv in H.
      destruct H as [(e & Hl & ->) | (sb & n' & Hl & H)];
        apply lift_inv in Hl; destruct Hl as [-> Hl]; rewrite Hd in Hl;
        [discriminate Hl |].
      injection Hl as <-. cbv zeta in H.
      apply bind_inv in H. destruct H as [(e & Hc & ->) | (sc & m & Hc & H)].
      * apply conv_call_inv in Hc. destruct Hc as [Hc Ht].
        cbn [st_graph st_trace] in Hc, Ht.
        exists (Raise e). split; [exact Hc |].
        split; [rewrite Ht, <- app_assoc; reflexivity | reflexivity].
      * apply conv_call_inv in Hc. destruct Hc as [Hc Ht].
        cbn [st_graph st_trace] in Hc, Ht.
        apply ret_inv in H. destruct H as [-> ->].
        exists (Ok m). split; [exact Hc |].
        split; [rewrite Ht, <- app_assoc; reflexivity | reflexivity].
  - left. split; [reflexivity |].
    apply bind_inv in H. destruct H as [(e & Hp & ->) | (sa & p & Hp & H)];
      apply ret_inv in Hp; destruct Hp as [-> Hp]; [discriminate Hp |].
    injection Hp as Hp. subst p.
    apply bind_inv in H.
    destruct H as [(e & Hl & ->) | (sb & n' & Hl & H)];
      apply lift_inv in Hl; destruct Hl as [-> Hl]; rewrite Hd in Hl;
      [discriminate Hl |].
    injection Hl as <-. cbv zeta in H.
    apply bind_inv in H. destruct H as [(e & Hc & ->) | (sc & m & Hc & H)].
    + apply conv_call_inv in Hc. destruct Hc as [Hc Ht].
      exists (Raise e). repeat split; assumption.
    + apply conv_call_inv in Hc. destruct Hc as [Hc Ht].
      apply ret_inv in H. destruct H as [-> ->].
      exists (Ok m). repeat split; assumption.
Qed.

(** The coarse loop, whatever its calls do: it returns after the calls of a
    [coarse_run], or it stops at the first call that raises; and when there
    is a level to build, its first call is made on the last top-down map. *)
Lemma coarse_loop_cases self n :
  depth_fn self (_additional_layer_depth self) = Ok n ->
  forall levels last fms s s' (r : result (tensor * list tensor)),
    for_fold (coarse_body self) levels (last, fms) s = (s', r) ->
    exists evs,
      st_trace s' = st_trace s ++ evs /\
      ((exists ms last',
          r = Ok (last', fms ++ ms) /\
          coarse_run self last levels (st_graph s) (st_graph s') evs ms) \/
       (exists e pre ev,
          r = Raise e /\ evs = pre ++ [ev] /\ raised ev = Some e)) /\
      (forall i levels', levels = i :: levels' ->
         exists (res : result tensor) rest,
           evs
           = (if _use_explicit_padding self
              then {| ev_op := fixed_padding last 3; ev_result := res |}
              else conv_event self last n
                     (format_bottom_up_Conv2d
                        (i - base_fpn_max_level self + 19)) res)
             :: rest).
Proof.
  intros Hd levels.
  induction levels as [| i levels IH]; intros last fms s s' r H.
  - cbn [for_fold] in H. apply ret_inv in H. destruct H as [-> ->].
    exists []. split; [rewrite app_nil_r; reflexivity |]. split.
    + left. exists [], last.
      split; [rewrite app_nil_r; reflexivity | constructor].
    + intros i l' Heq. discriminate Heq.
  - cbn [for_fold] in H. apply bind_inv in H.
    destruct H as [(e & Hb & ->) | (s1 & [last1 fms1] & Hb & Hrest)].
    + destruct (coarse_body_cases self n last fms i s s' _ Hd Hb)
        as [(Huep & rc & Hc & Ht & Hr) | (Huep & g1 & rp & Hfp & Hrp)].
      * destruct rc as [m | e']; [discriminate Hr |]. injection Hr as ->.
        eexists. split; [exact Ht |]. split.
        -- right. eexists e', [], _. split; [reflexivity |].
           split; [reflexivity |]. rewrite raised_conv_event. reflexivity.
        -- intros i0 l0 Heq. injection Heq as <- <-.
           exists (Raise e'), []. rewrite Huep. reflexivity.
      * destruct rp as [p | e'].
        -- destruct Hrp as (rc & Hc & Ht & Hr).
           destruct rc as [m | e'']; [discriminate Hr |]. injection Hr as ->.
           eexists. split; [exact Ht |]. split.
           ++ right.
              exists e'', [{| ev_op := fixed_padding last 3;
                              ev_result := Ok p |}].
              eexists. split; [reflexivity |].
              split; [reflexivity |]. rewrite raised_conv_event. reflexivity.
           ++ intros i0 l0 Heq. injection Heq as <- <-.
              exists (Ok p). eexists. rewrite Huep. reflexivity.
        -- destruct Hrp as (_ & Ht & Hr). injection Hr as ->.
           eexists. split; [exact Ht |]. split.
           ++ right. eexists e', [], _. split; [reflexivity |].
              split; reflexivity.
           ++ intros i0 l0 Heq. injection Heq as <- <-.
              exists (Raise e'), []. rewrite Huep. reflexivity.
    + destruct (IH _ _ _ _ _ Hrest) as (evs' & Ht' & Hcases & _).
      destruct (coarse_body_cases self n last fms i s s1 _ Hd Hb)
        as [(Huep & rc & Hc & Ht & Hr) | (Huep & g1 & rp & Hfp & Hrp)].
      * destruct rc as [m | e']; [| discriminate Hr].
        injection Hr as Hm Hf. subst last1 fms1.
        eexists (_ :: evs'). split; [| split].
        -- rewrite Ht', Ht, <- app_assoc. reflexivity.
        -- destruct Hcases as [(ms & last' & -> & Hrun)
                              | (e & pre & ev & -> & -> & Hev)].
           ++ left. exists (m :: ms), last'. split.
              ** rewrite <- app_assoc. reflexivity.
              ** eapply coarse_same; eauto.
           ++ right. exists e. eexists (_ :: pre), ev.
              split; [reflexivity |]. split; [reflexivity | exact Hev].
        -- intros i0 l0 Heq. injection Heq as <- <-.
           exists (Ok m), evs'. rewrite Huep. reflexivity.
      * destruct rp as [p | e'].
        2:{ destruct Hrp as (_ & _ & Hr). discriminate Hr. }
        destruct Hrp as (rc & Hc & Ht & Hr).
        destruct rc as [m | e']; [| discriminate Hr].
        injection Hr as Hm Hf. subst last1 fms1.
        eexists (_ :: _ :: evs'). split; [| split].
        -- rewrite Ht', Ht, <- app_assoc. reflexivity.
        -- destruct Hcases as [(ms & last' & -> & Hrun)
                              | (e & pre & ev & -> & -> & Hev)].
           ++ left. exists (m :: ms), last'. split.
              ** rewrite <- app_assoc. reflexivity.
              ** eapply coarse_padded; eauto.
           ++ right. exists e. eexists (_ :: _ :: pre), ev.
              split; [reflexivity |]. split; [reflexivity | exact Hev].
        -- intros i0 l0 Heq. injection Heq as <- <-.
           exists (Ok p). eexists. rewrite Huep. reflexivity.
Qed.

End LoopCases.

Lemma map_result_In_inv {A B} (f : A -> result B) xs ys y :
  map_result f xs = Ok ys -> In y ys -> exists x, In x xs /\ f x = Ok y.
Proof.
  revert ys. induction xs as [| x xs IH]; simpl; intros ys H Hin.
  - injection H as <-. destruct Hin.
  - destruct (f x) as [b |] eqn:Hb; [| discriminate].
    destruct (map_result f xs) as [bs |]; [| discriminate].
    injection H as <-. destruct Hin as [<- | Hin].
    + exists x. split; [left; reflexivity | exact Hb].
    + destruct (IH bs eq_refl Hin) as (x' & Hx' & Hfx').
      exists x'. split; [right; exact Hx' | exact Hfx'].
Qed.

Section CalmRuns.
Context {FT : FrameworkTypes} {FW : Framework}.

Lemma calls_returned_In v t ev :
  calls_returned v t = true -> In ev t -> call_returned v ev = true.
Proof.
  unfold calls_returned. rewrite forallb_forall. intros H Hin.
  exact (H ev Hin).
Qed.

Lemma call_returned_returned v ev :
  call_returned v ev = true -> returned ev = true.
Proof.
  unfold call_returned. intros H.
  apply andb_true_iff in H. destruct H as [H _].
  apply andb_true_iff in H. exact (proj1 H).
Qed.

Lemma calls_returned_raised v t ev e :
  calls_returned v t = true -> In ev t -> raised ev = Some e -> False.
Proof.
  intros H Hin Hev.
  pose proof (call_returned_returned _ _ (calls_returned_In _ _ _ H Hin)) as Hr.
  rewrite (returned_raised _ _ Hev) in Hr. discriminate Hr.
Qed.

Lemma call_returned_end_points v sc (padded : tensor) fe dm defs uep
    (net : tensor) (image_features : dict tensor) :
  call_returned v {| ev_op := mnasnet_base sc padded fe dm defs uep;
                     ev_result := Ok (net, image_features) |} = true ->
  has_keys image_features (feature_blocks_of v) = true.
Proof.
  unfold call_returned. intros H.
  apply andb_true_iff in H. destruct H as [H _].
  apply andb_true_iff in H. exact (proj2 H).
Qed.

Lemma call_returned_pyramid v sc (inputs : list (string * tensor)) depth ud
    uep (fpn_features : dict tensor) :
  call_returned v {| ev_op := fpn_top_down_feature_maps sc inputs depth ud uep;
                     ev_result := Ok fpn_features |} = true ->
  has_keys fpn_features (map format_top_down (map fst inputs)) = true.
Proof.
  unfold call_returned. intros H.
  apply andb_true_iff in H. exact (proj2 H).
Qed.

Lemma has_keys_In (d : dict tensor) keys key :
  has_keys d keys = true -> In key keys -> exists t, dict_getitem d key = Ok t.
Proof.
  unfold has_keys. rewrite forallb_forall. intros H Hin.
  specialize (H key Hin).
  destruct (dict_getitem d key) as [t |]; [exists t; reflexivity |].
  discriminate H.
Qed.

(** The feature blocks of the levels from -2 on exist. *)
Lemma feature_block_list_ok v self :
  -2 <= _fpn_min_level self ->
  exists keys, feature_block_list v self = Ok keys.
Proof.
  intros Hmin. unfold feature_block_list. apply map_result_all_ok.
  intros level Hin. apply range_In in Hin. unfold base_fpn_max_level in Hin.
  destruct (getitem_feature_blocks_reach v level ltac:(lia)) as (b & Hb & _).
  exists b. exact Hb.
Qed.

Lemma feature_block_list_In v self keys key :
  feature_block_list v self = Ok keys -> In key keys ->
  In key (feature_blocks_of v).
Proof.
  unfold feature_block_list. intros H Hin.
  destruct (map_result_In_inv _ _ _ _ H Hin) as (level & _ & Hget).
  exact (getitem_In _ _ _ Hget).
Qed.

(** End points that hold the feature blocks give the inputs of the
    pyramid. *)
Lemma inputs_exist v self keys (image_features : dict tensor) :
  has_keys image_features (feature_blocks_of v) = true ->
  feature_block_list v self = Ok keys ->
  exists inputs, map_result (keyed image_features) keys = Ok inputs.
Proof.
  intros Hhas Hkeys. apply map_result_all_ok. intros key Hin.
  destruct (has_keys_In _ _ _ Hhas (feature_block_list_In _ _ _ _ Hkeys Hin))
    as [t Ht].
  exists (key, t). unfold keyed. rewrite Ht. reflexivity.
Qed.

(** A pyramid with a top-down map per input gives the map of each level. *)
Lemma top_down_exists v self keys inputs (image_features fpn_features : dict tensor)
    level :
  feature_block_list v self = Ok keys ->
  map_result (keyed image_features) keys = Ok inputs ->
  has_keys fpn_features (map format_top_down (map fst inputs)) = true ->
  _fpn_min_level self <= level <= base_fpn_max_level self ->
  exists m, top_down_of v fpn_features level = Ok m.
Proof.
  intros Hkeys Hins Hhas Hlevel.
  rewrite (map_result_keyed_fst _ _ _ Hins) in Hhas.
  unfold feature_block_list in Hkeys.
  assert (Hin : In level (range (_fpn_min_level self)
                            (base_fpn_max_level self + 1)))
    by (apply range_In; lia).
  destruct (map_result_In _ _ _ _ Hkeys Hin) as (b & Hb & Hbin).
  unfold top_down_of. rewrite Hb.
  apply (has_keys_In _ _ _ Hhas). apply in_map. exact Hbin.
Qed.

(** Once the last top-down map is read the coarse loop runs: it returns the
    top-down maps followed by the coarse ones, or a call of it raises. *)
Lemma run_enters_the_loop v self x g t g' (r : result (list tensor))
    (x1 padded net : tensor) g1 g2 (image_features : dict tensor)
    keys inputs depth g3 (fpn_features : dict tensor) fpn_maps last :
  check_min_image_dim 33 x = Ok x1 ->
  run_op (pad_to_multiple x1 (_pad_to_multiple self)) g = (g1, Ok padded) ->
  run_op (mnasnet_base (sc_base self) padded (final_endpoint_of v)
            (_depth_multiplier self) (_conv_defs self)
            (_use_explicit_padding self)) g1
  = (g2, Ok (net, image_features)) ->
  feature_block_list v self = Ok keys ->
  map_result (keyed image_features) keys = Ok inputs ->
  depth_fn self (_additional_layer_depth self) = Ok depth ->
  run_op (fpn_top_down_feature_maps (sc_fpn self) inputs depth
            (_use_depthwise self) (_use_explicit_padding self)) g2
  = (g3, Ok fpn_features) ->
  map_result (top_down_of v fpn_features)
             (range (_fpn_min_level self) (base_fpn_max_level self + 1))
  = Ok fpn_maps ->
  top_down_of v fpn_features (base_fpn_max_level self) = Ok last ->
  run (extract_features v self x) g = (t, g', r) ->
  exists evs,
    t = {| ev_op := pad_to_multiple x1 (_pad_to_multiple self);
           ev_result := Ok padded |}
        :: {| ev_op := mnasnet_base (sc_base self) padded (final_endpoint_of v)
                         (_depth_multiplier self) (_conv_defs self)
                         (_use_explicit_padding self);
              ev_result := Ok (net, image_features) |}
        :: {| ev_op := fpn_top_down_feature_maps (sc_fpn self) inputs depth
                         (_use_depthwise self) (_use_explicit_padding self);
              ev_result := Ok fpn_features |}
        :: evs /\
    ((exists ms,
        r = Ok (fpn_maps ++ ms) /\
        coarse_run self last
          (range (base_fpn_max_level self + 1) (_fpn_max_level self + 1))
          g3 g' evs ms) \/
     (exists e pre ev, r = Raise e /\ evs = pre ++ [ev] /\ raised ev = Some e))
    /\
    (forall i levels',
       range (base_fpn_max_level self + 1) (_fpn_max_level self + 1)
       = i :: levels' ->
       exists (res : result tensor) rest,
         evs
         = (if _use_explicit_padding self
            then {| ev_op := fixed_padding last 3; ev_result := res |}
            else conv_event self last depth
                   (format_bottom_up_Conv2d
                      (i - base_fpn_max_level self + 19)) res)
           :: rest).
Proof.
  intros Hcheck Hpad Hbb Hkeys Hins Hdepth Hfpn Hmaps Hlast Hrun.
  destruct (for_fold (coarse_body self)
              (range (base_fpn_max_level self + 1) (_fpn_max_level self + 1))
              (last, fpn_maps)
              {| st_graph := g3;
                 st_trace :=
                   [{| ev_op := pad_to_multiple x1 (_pad_to_multiple self);
                       ev_result := Ok padded |};
                    {| ev_op := mnasnet_base (sc_base self) padded
                                  (final_endpoint_of v)
                                  (_depth_multiplier self) (_conv_defs self)
                                  (_use_explicit_padding self);
                       ev_result := Ok (net, image_features) |};
                    {| ev_op := fpn_top_down_feature_maps (sc_fpn self) inputs
                                  depth (_use_depthwise self)
                                  (_use_explicit_padding self);
                       ev_result := Ok fpn_features |}] |})
    as [s' r0] eqn:Hloop.
  pose proof (run_through_the_loop v self x {| st_graph := g; st_trace := [] |}
                x1 padded net g1 g2 image_features Hcheck Hpad Hbb
                keys inputs depth g3 fpn_features Hkeys Hins Hdepth Hfpn
                fpn_maps last s' r0 Hmaps Hlast Hloop) as E.
  rewrite (run_of _ _ _ _ E) in Hrun. injection Hrun as <- <- <-.
  destruct (coarse_loop_cases self depth Hdepth _ _ _ _ _ _ Hloop)
    as (evs & Ht & Hcases & Hfirst).
  cbn [st_trace st_graph] in Ht, Hcases.
  exists evs. split; [rewrite Ht; reflexivity |]. split.
  - destruct Hcases as [(ms & last' & -> & Hc)
                       | (e & pre & ev & -> & -> & Hev)].
    + left. exists ms. split; [reflexivity | exact Hc].
    + right. exists e, pre, ev. repeat split. exact Hev.
  - exact Hfirst.
Qed.

(** Once the end points are read and the depth is computed,
    [fpn_top_down_feature_maps] is called: it is the third call of the
    run. *)
Lemma pyramid_is_called v self x g t g' (r : result (list tensor))
    (x1 padded net : tensor) g1 g2 (image_features : dict tensor)
    keys inputs depth :
  check_min_image_dim 33 x = Ok x1 ->
  run_op (pad_to_multiple x1 (_pad_to_multiple self)) g = (g1, Ok padded) ->
  run_op (mnasnet_base (sc_base self) padded (final_endpoint_of v)
            (_depth_multiplier self) (_conv_defs self)
            (_use_explicit_padding self)) g1
  = (g2, Ok (net, image_features)) ->
  feature_block_list v self = Ok keys ->
  map_result (keyed image_features) keys = Ok inputs ->
  depth_fn self (_additional_layer_depth self) = Ok depth ->
  run (extract_features v self x) g = (t, g', r) ->
  exists g3 res rest,
    run_op (fpn_top_down_feature_maps (sc_fpn self) inputs depth
              (_use_depthwise self) (_use_explicit_padding self)) g2
    = (g3, res) /\
    t = {| ev_op := pad_to_multiple x1 (_pad_to_multiple self);
           ev_result := Ok padded |}
        :: {| ev_op := mnasnet_base (sc_base self) padded (final_endpoint_of v)
                         (_depth_multiplier self) (_conv_defs self)
                         (_use_explicit_padding self);
              ev_result := Ok (net, image_features) |}
        :: {| ev_op := fpn_top_down_feature_maps (sc_fpn self) inputs depth
                         (_use_depthwise self) (_use_explicit_padding self);
              ev_result := res |}
        :: rest.
Proof.
  intros Hcheck Hpad Hbb Hkeys Hins Hdepth Hrun.
  destruct (run_op (fpn_top_down_feature_maps (sc_fpn self) inputs depth
                      (_use_depthwise self) (_use_explicit_padding self)) g2)
    as [g3 [fpn_features | e]] eqn:Hfpn.
  2:{ pose proof (raises_at_pyramid v self x
                    {| st_graph := g; st_trace := [] |}
                    x1 padded net g1 g2 image_features Hcheck Hpad Hbb
                    keys inputs depth Hkeys Hins Hdepth g3 e Hfpn) as E.
      rewrite (run_of _ _ _ _ E) in Hrun. injection Hrun as <- <- <-.
      exists g3, (Raise e), []. split; reflexivity. }
  destruct (map_result (top_down_of v fpn_features)
              (range (_fpn_min_level self) (base_fpn_max_level self + 1)))
    as [fpn_maps | e] eqn:Hmaps.
  2:{ pose proof (raises_at_top_down v self x
                    {| st_graph := g; st_trace := [] |}
                    x1 padded net g1 g2 image_features Hcheck Hpad Hbb
                    keys inputs depth g3 fpn_features Hkeys Hins Hdepth Hfpn
                    e Hmaps) as E.
      rewrite (run_of _ _ _ _ E) in Hrun. injection Hrun as <- <- <-.
      exists g3, (Ok fpn_features), []. split; reflexivity. }
  destruct (top_down_of v fpn_features (base_fpn_max_level self))
    as [last | e] eqn:Hlast.
  2:{ pose proof (raises_at_last v self x
                    {| st_graph := g; st_trace := [] |}
                    x1 padded net g1 g2 image_features Hcheck Hpad Hbb
                    keys inputs depth g3 fpn_features Hkeys Hins Hdepth Hfpn
                    fpn_maps e Hmaps Hlast) as E.
      rewrite (run_of _ _ _ _ E) in Hrun. injection Hrun as <- <- <-.
      exists g3, (Ok fpn_features), []. split; reflexivity. }
  destruct (run_enters_the_loop v self x g t g' r x1 padded net g1 g2
              image_features keys inputs depth g3 fpn_features fpn_maps last
              Hcheck Hpad Hbb Hkeys Hins Hdepth Hfpn Hmaps Hlast Hrun)
    as (evs & -> & _).
  exists g3, (Ok fpn_features), evs. split; reflexivity.
Qed.

(** A run on levels that the feature blocks can serve, in which every call
    returned what is read from it, returns. *)
Lemma calm_run_returns v self x g t g' (r : result (list tensor)) x1 :
  check_min_image_dim 33 x = Ok x1 ->
  -2 <= _fpn_min_level self <= 5 ->
  _fpn_min_level self <= _fpn_max_level self ->
  is_ok (depth_fn self (_additional_layer_depth self)) = true ->
  run (extract_features v self x) g = (t, g', r) ->
  calls_returned v t = true ->
  exists maps, r = Ok maps.
Proof.
  intros Hcheck Hmin Hle Hd Hrun Hcalm.
  destruct (run_op (pad_to_multiple x1 (_pad_to_multiple self)) g)
    as [g1 [padded | e]] eqn:Hpad.
  2:{ pose proof (raises_at_pad v self x {| st_graph := g; st_trace := [] |}
                    x1 Hcheck g1 e Hpad) as E.
      rewrite (run_of _ _ _ _ E) in Hrun. injection Hrun as <- <- <-.
      exfalso. eapply (calls_returned_raised _ _ _ e Hcalm);
        [left; reflexivity | reflexivity]. }
  destruct (run_op (mnasnet_base (sc_base self) padded (final_endpoint_of v)
                      (_depth_multiplier self) (_conv_defs self)
                      (_use_explicit_padding self)) g1)
    as [g2 [[net image_features] | e]] eqn:Hbb.
  2:{ pose proof (raises_at_backbone v self x
                    {| st_graph := g; st_trace := [] |}
                    x1 Hcheck padded g1 g2 e Hpad Hbb) as E.
      rewrite (run_of _ _ _ _ E) in Hrun. injection Hrun as <- <- <-.
      exfalso. eapply (calls_returned_raised _ _ _ e Hcalm);
        [right; left; reflexivity | reflexivity]. }
  destruct (feature_block_list_ok v self (proj1 Hmin)) as [keys Hkeys].
  destruct (depth_fn self (_additional_layer_depth self))
    as [depth |] eqn:Hdepth; [| discriminate Hd].
  destruct (map_result (keyed image_features) keys)
    as [inputs | e] eqn:Hins.
  2:{ pose proof (raises_at_inputs v self x
                    {| st_graph := g; st_trace := [] |}
                    x1 padded net g1 g2 image_features Hcheck Hpad Hbb
                    keys e Hkeys Hins) as E.
      rewrite (run_of _ _ _ _ E) in Hrun. injection Hrun as <- <- <-.
      exfalso.
      assert (Hhas : has_keys image_features (feature_blocks_of v) = true).
      { eapply call_returned_end_points.
        apply (calls_returned_In _ _ _ Hcalm). right. left. reflexivity. }
      destruct (inputs_exist _ _ _ _ Hhas Hkeys) as [inputs Hok].
      rewrite Hok in Hins. discriminate Hins. }
  destruct (pyramid_is_called v self x g t g' r x1 padded net g1 g2
              image_features keys inputs depth
              Hcheck Hpad Hbb Hkeys Hins Hdepth Hrun)
    as (g3 & res & rest & Hfpn & Ht).
  destruct res as [fpn_features | e].
  2:{ exfalso. eapply (calls_returned_raised _ _ _ e Hcalm);
        [rewrite Ht; right; right; left; reflexivity | reflexivity]. }
  assert (Hhas : has_keys fpn_features (map format_top_down (map fst inputs))
                 = true).
  { eapply call_returned_pyramid.
    apply (calls_returned_In _ _ _ Hcalm). rewrite Ht.
    right. right. left. reflexivity. }
  destruct (map_result_all_ok (top_down_of v fpn_features)
              (range (_fpn_min_level self) (base_fpn_max_level self + 1)))
    as [fpn_maps Hmaps].
  { intros level Hin. apply range_In in Hin.
    apply (top_down_exists v self keys inputs image_features fpn_features
             level Hkeys Hins Hhas). lia. }
  destruct (top_down_exists v self keys inputs image_features fpn_features
              (base_fpn_max_level self) Hkeys Hins Hhas) as [last Hlast].
  { unfold base_fpn_max_level. lia. }
  destruct (run_enters_the_loop v self x g t g' r x1 padded net g1 g2
              image_features keys inputs depth g3 fpn_features fpn_maps last
              Hcheck Hpad Hbb Hkeys Hins Hdepth Hfpn Hmaps Hlast Hrun)
    as (evs & Ht' & [(ms & -> & _) | (e & pre & ev & -> & -> & Hev)] & _).
  - eexists. reflexivity.
  - exfalso. apply (calls_returned_raised _ _ ev e Hcalm); [| exact Hev].
    rewrite Ht'. right. right. right. apply in_or_app. right. left.
    reflexivity.
Qed.

(** An input passes the size check when the check returns on it, as it does
    on inputs whose static height and width are at least 33. *)
Lemma size_check_passes x :
  is_ok (check_min_image_dim 33 x) = true \/
  (check_min_image_dim_spec /\
   exists h w, image_height x = Some h /\ image_width x = Some w /\
               33 <= h /\ 33 <= w) ->
  exists x1, check_min_image_dim 33 x = Ok x1.
Proof.
  intros [Hok | (Hspec & h & w & Hh & Hw & Hh33 & Hw33)].
  - destruct (check_min_image_dim 33 x) as [x1 |];
      [exists x1; reflexivity | discriminate Hok].
  - exists x. rewrite (Hspec 33 x h w Hh Hw).
    destruct (Z.ltb_spec h 33); [lia |].
    destruct (Z.ltb_spec w 33); [lia |]. reflexivity.
Qed.

(** The inputs of the pyramid are the feature blocks of the levels with
    their end points. *)
Lemma inputs_are_blocks v self keys inputs (image_features : dict tensor) :
  feature_block_list v self = Ok keys ->
  map_result (keyed image_features) keys = Ok inputs ->
  Forall2
    (fun level input =>
       getitem (feature_blocks_of v) (level - 2) = Ok (fst input)
       /\ (2 <= level ->
           nth_error (feature_blocks_of v) (Z.to_nat (level - 2))
           = Some (fst input))
       /\ dict_getitem image_features (fst input) = Ok (snd input))
    (range (_fpn_min_level self) (Z.min (_fpn_max_level self) 5 + 1))
    inputs.
Proof.
  intros Hkeys Hins. unfold feature_block_list in Hkeys.
  apply map_result_Forall2 in Hkeys. apply map_result_Forall2 in Hins.
  refine (Forall2_compose _ _ _ _ _ _ _ Hkeys Hins).
  intros level key input Hkey Hinput.
  apply keyed_inv in Hinput. destruct Hinput as [<- Hget].
  split; [exact Hkey |]. split; [| exact Hget].
  intros Hlevel. apply getitem_nonneg; [lia | exact Hkey].
Qed.

End CalmRuns.

(* ================================================================== *)
(** * The symbolic framework keeps the contracts *)
(* ================================================================== *)

Module SymbolicFacts.
Import Symbolic.

Lemma check_spec : check_min_image_dim_spec.
Proof.
  intros min_dim x h w Hh Hw. destruct x; try discriminate Hh.
  simpl in Hh, Hw. injection Hh as ->. injection Hw as ->. reflexivity.
Qed.

End SymbolicFacts.

(* ================================================================== *)
(** * Properties of the extractors *)
(* ================================================================== *)

Section Constructors.
Context {FT : FrameworkTypes} {FW : Framework}.

(** C4.  There are two variants, [SSDMNASNetA1FpnFeatureExtractor] and
    [SSDMNASNetB1FpnFeatureExtractor].  The constructor of the first sets the
    backbone definition to [mnasnet.MNASNET_A1_DEF] and that of the second to
    [mnasnet.MNASNET_B1_DEF], whatever arguments it is given. *)
Theorem backbone_definition_is_fixed :
  (forall v : variant, v = MNASNetA1 \/ v = MNASNetB1) /\
  (forall a : init_args, _conv_defs (A1.__init__ a) = MNASNET_A1_DEF) /\
  (forall a : init_args, _conv_defs (B1.__init__ a) = MNASNET_B1_DEF) /\
  (forall (v : variant) (a a' : init_args),
     _conv_defs (init v a) = _conv_defs (init v a')).
Proof.
  split; [intros [|]; auto |].
  split; [reflexivity |].
  split; [reflexivity |].
  intros [|] a a'; reflexivity.
Qed.

End Constructors.

(** C9.  The two classes preprocess alike: on every input tensor, whatever
    the tensor arithmetic, [preprocess] of the A1 class and [preprocess] of
    the B1 class return the same result. *)
Theorem preprocess_same_for_both_variants :
  forall (T : Type) (TA : TensorArith T) (resized_inputs : T),
    A1.preprocess resized_inputs = B1.preprocess resized_inputs.
Proof. intros T TA x. reflexivity. Qed.

Section Claims.
Context {FT : FrameworkTypes} {FW : Framework}.

(** C7.  On an input whose static height or width is below 33,
    [extract_features] raises the [ValueError] of [check_min_image_dim]
    before any library call is made and leaves the graph as it was; on an
    input of at least 33 by 33 the check passes and the run goes on to its
    first library call, [pad_to_multiple] on the unchanged input. *)
Theorem small_images_are_rejected v self x g h w t g' r :
  check_min_image_dim_spec ->
  image_height x = Some h -> image_width x = Some w ->
  run (extract_features v self x) g = (t, g', r) ->
  if (h <? 33) || (w <? 33)
  then t = [] /\ g' = g /\ r = Raise ValueError
  else exists res rest,
         t = {| ev_op := pad_to_multiple x (_pad_to_multiple self);
                ev_result := res |} :: rest.
Proof.
  intros Hspec Hh Hw Hrun.
  pose proof (Hspec 33 x h w Hh Hw) as Hcheck.
  destruct ((h <? 33) || (w <? 33)).
  - unfold run in Hrun.
    destruct v;
      cbv beta iota delta
        [extract_features A1.extract_features B1.extract_features] in Hrun;
      unfold bind at 1 in Hrun; unfold lift at 1 in Hrun;
      rewrite Hcheck in Hrun; injection Hrun as <- <- <-;
      repeat split; reflexivity.
  - destruct (reaches_backbone v self x g t g' r x Hrun Hcheck)
      as (g1 & res1 & rest1 & _ & -> & _).
    exists res1, rest1. reflexivity.
Qed.

End Claims.


Section WiringClaims.
Context {FT : FrameworkTypes} {FW : Framework}.

(** C5.  In a run of [extract_features], returning or raising, every call
    of [mnasnet_base] is given the final end point of the variant,
    ['layer_18'] for the A1 class and ['layer_19'] for the B1 class, which is
    the feature block of level 5, the deepest one the pyramid reads; this
    holds for every [fpn_min_level] and [fpn_max_level].  The call is made as
    soon as the size check and [pad_to_multiple] have returned. *)
Theorem backbone_final_endpoint v self x g t g' r :
  run (extract_features v self x) g = (t, g', r) ->
  final_endpoint_of v
    = match v with MNASNetA1 => "layer_18" | MNASNetB1 => "layer_19" end%string
  /\ getitem (feature_blocks_of v) (5 - 2) = Ok (final_endpoint_of v)
  /\ (forall ev sc x' fe dm defs uep,
        In ev t -> ev_op ev = mnasnet_base sc x' fe dm defs uep ->
        fe = final_endpoint_of v)
  /\ (forall x1 g1 padded,
        check_min_image_dim 33 x = Ok x1 ->
        run_op (pad_to_multiple x1 (_pad_to_multiple self)) g
          = (g1, Ok padded) ->
        exists res,
          In {| ev_op := mnasnet_base (sc_base self) padded
                           (final_endpoint_of v) (_depth_multiplier self)
                           (_conv_defs self) (_use_explicit_padding self);
                ev_result := res |} t).
Proof.
  intros Hrun.
  split; [destruct v; reflexivity |].
  split; [destruct v; reflexivity |].
  split.
  - intros ev sc x' fe dm defs uep Hin Hop.
    destruct (run_call_justified _ _ _ _ _ _ _ _ Hrun Hin)
      as (pre & post & _ & HJ).
    unfold justified in HJ. rewrite Hop in HJ.
    destruct HJ as (_ & _ & Hfe & _). exact Hfe.
  - intros x1 g1 padded Hcheck Hpad.
    destruct (reaches_backbone v self x g t g' r x1 Hrun Hcheck)
      as (g1' & res1 & rest1 & Hpad' & -> & Hnext).
    rewrite Hpad in Hpad'. injection Hpad' as <- <-.
    destruct (Hnext padded eq_refl) as (res2 & rest2 & ->).
    exists res2. right. left. reflexivity.
Qed.

(** C2.  Once [mnasnet_base] has returned end points that hold the feature
    blocks, on an instance whose [fpn_min_level] is at least -2 and whose
    [depth_fn(additional_layer_depth)] is defined, [extract_features] calls
    [fpn_top_down_feature_maps].  Whenever it calls it, in a run that
    returns or in one that raises, [mnasnet_base] has returned its end
    points before, and the inputs passed are, for the levels [L] from
    [fpn_min_level] to [min(fpn_max_level, 5)] in increasing order, the pair
    of [feature_blocks[L - 2]] and the end point of that name, where
    [feature_blocks] is ['layer_4', 'layer_7', 'layer_13', 'layer_18'] for the
    A1 class and ['layer_5', 'layer_8', 'layer_13', 'layer_19'] for the B1
    class; for [L >= 2] that is the element at position [L - 2]. *)
Theorem fpn_inputs_are_the_feature_blocks v self x g t g' r :
  run (extract_features v self x) g = (t, g', r) ->
  feature_blocks_of v
    = match v with
      | MNASNetA1 => ["layer_4"; "layer_7"; "layer_13"; "layer_18"]
      | MNASNetB1 => ["layer_5"; "layer_8"; "layer_13"; "layer_19"]
      end%string
  /\ (forall ev sc inputs depth ud uep,
        In ev t ->
        ev_op ev = fpn_top_down_feature_maps sc inputs depth ud uep ->
        exists padded net image_features,
          In {| ev_op := mnasnet_base (sc_base self) padded
                           (final_endpoint_of v) (_depth_multiplier self)
                           (_conv_defs self) (_use_explicit_padding self);
                ev_result := Ok (net, image_features) |} t
          /\ Forall2
               (fun level input =>
                  getitem (feature_blocks_of v) (level - 2) = Ok (fst input)
                  /\ (2 <= level ->
                      nth_error (feature_blocks_of v) (Z.to_nat (level - 2))
                      = Some (fst input))
                  /\ dict_getitem image_features (fst input)
                     = Ok (snd input))
               (range (_fpn_min_level self)
                      (Z.min (_fpn_max_level self) 5 + 1))
               inputs)
  /\ (forall x1 g1 padded g2 net image_features,
        check_min_image_dim 33 x = Ok x1 ->
        run_op (pad_to_multiple x1 (_pad_to_multiple self)) g
          = (g1, Ok padded) ->
        run_op (mnasnet_base (sc_base self) padded (final_endpoint_of v)
                  (_depth_multiplier self) (_conv_defs self)
                  (_use_explicit_padding self)) g1
          = (g2, Ok (net, image_features)) ->
        has_keys image_features (feature_blocks_of v) = true ->
        -2 <= _fpn_min_level self ->
        is_ok (depth_fn self (_additional_layer_depth self)) = true ->
        exists inputs depth res,
          depth_fn self (_additional_layer_depth self) = Ok depth /\
          In {| ev_op := fpn_top_down_feature_maps (sc_fpn self) inputs depth
                           (_use_depthwise self) (_use_explicit_padding self);
                ev_result := res |} t /\
          Forall2
            (fun level input =>
               getitem (feature_blocks_of v) (level - 2) = Ok (fst input)
               /\ (2 <= level ->
                   nth_error (feature_blocks_of v) (Z.to_nat (level - 2))
                   = Some (fst input))
               /\ dict_getitem image_features (fst input) = Ok (snd input))
            (range (_fpn_min_level self)
                   (Z.min (_fpn_max_level self) 5 + 1))
            inputs).
Proof.
  intros Hrun.
  split; [destruct v; reflexivity |]. split.
  - intros ev sc inputs depth ud uep Hin Hop.
    destruct (run_call_justified _ _ _ _ _ _ _ _ Hrun Hin)
      as (pre & post & Ht & HJ).
    unfold justified in HJ. rewrite Hop in HJ.
    destruct HJ as ((x1 & padded & net & image_features & keys
                     & Hpre & Hkeys & Hins) & _).
    exists padded, net, image_features. split.
    + rewrite Ht, Hpre. right. left. reflexivity.
    + exact (inputs_are_blocks _ _ _ _ _ Hkeys Hins).
  - intros x1 g1 padded g2 net image_features Hcheck Hpad Hbb Hhas Hmin Hd.
    destruct (feature_block_list_ok v self Hmin) as [keys Hkeys].
    destruct (inputs_exist _ _ _ _ Hhas Hkeys) as [inputs Hins].
    destruct (depth_fn self (_additional_layer_depth self))
      as [depth |] eqn:Hdepth; [| discriminate Hd].
    destruct (pyramid_is_called v self x g t g' r x1 padded net g1 g2
                image_features keys inputs depth
                Hcheck Hpad Hbb Hkeys Hins Hdepth Hrun)
      as (g3 & res & rest & _ & ->).
    exists inputs, depth, res. split; [reflexivity |]. split.
    + right. right. left. reflexivity.
    + exact (inputs_are_blocks _ _ _ _ _ Hkeys Hins).
Qed.

End WiringClaims.

Section PyramidClaims.
Context {FT : FrameworkTypes} {FW : Framework}.

(** C1 (amended).  For an instance of either class whose [fpn_min_level] is
    one of the documented values 2 to 5 and is at most [fpn_max_level], on an
    input batch that passes the size check (as one whose static height and
    width are both at least 33 does), when [depth_fn] of
    [additional_layer_depth] is defined: a run of [extract_features] in
    which every library call made returned, [mnasnet_base] with the four
    feature blocks among its end points and [fpn_top_down_feature_maps] with
    a [top_down_] entry per input, returns a list of exactly
    [fpn_max_level - fpn_min_level + 1] feature maps, and the map at
    position [j] is the one of level [fpn_min_level + j], so that the list
    runs from the [fpn_min_level] map to the [fpn_max_level] map. *)
Theorem extract_features_returns_the_pyramid v self x g t g' r :
  2 <= _fpn_min_level self <= 5 ->
  _fpn_min_level self <= _fpn_max_level self ->
  is_ok (check_min_image_dim 33 x) = true \/
  (check_min_image_dim_spec /\
   exists h w, image_height x = Some h /\ image_width x = Some w /\
               33 <= h /\ 33 <= w) ->
  is_ok (depth_fn self (_additional_layer_depth self)) = true ->
  run (extract_features v self x) g = (t, g', r) ->
  calls_returned v t = true ->
  exists maps,
    r = Ok maps /\
    List.length maps
    = Z.to_nat (_fpn_max_level self - _fpn_min_level self + 1) /\
    forall j m,
      nth_error maps j = Some m ->
      level_map v self t (_fpn_min_level self + Z.of_nat j) m.
Proof.
  intros Hmin Hle Hsize Hdepth Hrun Hcalm.
  destruct (size_check_passes x Hsize) as [x1 Hcheck].
  destruct (calm_run_returns v self x g t g' r x1 Hcheck ltac:(lia) Hle
              Hdepth Hrun Hcalm) as [maps ->].
  apply run_returns_iff in Hrun.
  exists maps. split; [reflexivity |]. split.
  - apply (successful_run_length _ _ _ _ _ _ _ Hrun); lia.
  - apply (successful_run_levels _ _ _ _ _ _ _ Hrun); lia.
Qed.

(** C3.  In a run of [extract_features] with [fpn_max_level <= 5] no
    convolution is called.  In a run that returns, the returned list is the
    top-down maps of the levels up to [min(fpn_max_level, 5)] followed by
    [max(fpn_max_level - 5, 0)] coarse maps; the convolutions called in the
    run are exactly the ones that produce them, under the scopes
    [bottom_up_Conv2d_20], [bottom_up_Conv2d_21], ... in this order; and the
    [k]-th coarse map is the output of a 3x3 convolution of stride 2 (a
    separable one when [use_depthwise] is set) applied to the previous last
    feature map, that is the last top-down map for the first and the coarse
    map before it for the others, padded by [fixed_padding] first when
    [use_explicit_padding] is set.  The loop is reached as soon as the calls
    before it have returned and the top-down maps are read: the calls of the
    run are then [pad_to_multiple], [mnasnet_base],
    [fpn_top_down_feature_maps] and those of the loop; with
    [fpn_max_level > 5] the first of them, [fixed_padding] under explicit
    padding and the convolution under [bottom_up_Conv2d_20] otherwise, is
    made on the last top-down map; and when the calls of the loop return,
    the run returns the top-down maps followed by [fpn_max_level - 5] coarse
    maps. *)
Theorem coarse_maps_follow_the_pyramid v self x g t g' r :
  run (extract_features v self x) g = (t, g', r) ->
  (_fpn_max_level self <= 5 -> conv_scopes t = []) /\
  (forall maps, r = Ok maps ->
    exists inputs depth fpn_features fpn_maps last coarse,
      In {| ev_op := fpn_top_down_feature_maps (sc_fpn self) inputs depth
                       (_use_depthwise self) (_use_explicit_padding self);
            ev_result := Ok fpn_features |} t /\
      map_result (top_down_of v fpn_features)
                 (range (_fpn_min_level self)
                        (Z.min (_fpn_max_level self) 5 + 1))
        = Ok fpn_maps /\
      top_down_of v fpn_features (Z.min (_fpn_max_level self) 5) = Ok last /\
      maps = fpn_maps ++ coarse /\
      List.length coarse = Z.to_nat (_fpn_max_level self - 5) /\
      conv_scopes t
        = map (fun k => format_bottom_up_Conv2d (20 + Z.of_nat k))
              (seq 0 (List.length coarse)) /\
      forall k m,
        nth_error coarse k = Some m ->
        exists prev p,
          previous_map last coarse k = Some prev /\
          conv_input self t prev p /\
          In (conv_event self p depth
                (format_bottom_up_Conv2d (20 + Z.of_nat k)) (Ok m)) t) /\
  (forall x1 g1 padded g2 net image_features keys inputs depth g3
          fpn_features fpn_maps last,
     check_min_image_dim 33 x = Ok x1 ->
     run_op (pad_to_multiple x1 (_pad_to_multiple self)) g
       = (g1, Ok padded) ->
     run_op (mnasnet_base (sc_base self) padded (final_endpoint_of v)
               (_depth_multiplier self) (_conv_defs self)
               (_use_explicit_padding self)) g1
       = (g2, Ok (net, image_features)) ->
     feature_block_list v self = Ok keys ->
     map_result (keyed image_features) keys = Ok inputs ->
     depth_fn self (_additional_layer_depth self) = Ok depth ->
     run_op (fpn_top_down_feature_maps (sc_fpn self) inputs depth
               (_use_depthwise self) (_use_explicit_padding self)) g2
       = (g3, Ok fpn_features) ->
     map_result (top_down_of v fpn_features)
                (range (_fpn_min_level self)
                       (Z.min (_fpn_max_level self) 5 + 1))
       = Ok fpn_maps ->
     top_down_of v fpn_features (Z.min (_fpn_max_level self) 5) = Ok last ->
     exists tail,
       t = {| ev_op := pad_to_multiple x1 (_pad_to_multiple self);
              ev_result := Ok padded |}
           :: {| ev_op := mnasnet_base (sc_base self) padded
                            (final_endpoint_of v) (_depth_multiplier self)
                            (_conv_defs self) (_use_explicit_padding self);
                 ev_result := Ok (net, image_features) |}
           :: {| ev_op := fpn_top_down_feature_maps (sc_fpn self) inputs depth
                            (_use_depthwise self)
                            (_use_explicit_padding self);
                 ev_result := Ok fpn_features |}
           :: tail /\
       (5 < _fpn_max_level self ->
        exists res rest,
          tail = first_coarse_call self last depth res :: rest) /\
       (forallb returned tail = true ->
        exists coarse,
          r = Ok (fpn_maps ++ coarse) /\
          List.length coarse = Z.to_nat (_fpn_max_level self - 5))).
Proof.
  intros Hrun. split; [| split].
  - intros Hmax. apply conv_scopes_none. intros ev Hin.
    destruct (run_call_justified _ _ _ _ _ _ _ _ Hrun Hin)
      as (pre & post & _ & HJ).
    unfold justified in HJ.
    destruct (ev_op ev); try reflexivity; exfalso.
    + destruct HJ as (_ & _ & _ & _ & _ & _ & _ & i & Hi & _). lia.
    + destruct HJ as (_ & _ & _ & _ & _ & _ & _ & _ & i & Hi & _). lia.
  - intros maps ->. apply run_returns_iff in Hrun.
    destruct Hrun as [x1 padded g1 net image_features g2 keys inputs depth
                      fpn_features g3 fpn_maps last g' evs coarse
                      Hcheck Hpad Hbb Hkeys Hins Hdepth Hfpn Hmaps Hlast Hrun].
    unfold base_fpn_max_level in *.
    pose proof (coarse_run_length _ _ _ _ _ _ _ Hrun) as Hlen.
    rewrite range_length in Hlen.
    exists inputs, depth, fpn_features, fpn_maps, last, coarse.
    split; [right; right; left; reflexivity |].
    split; [exact Hmaps |]. split; [exact Hlast |]. split; [reflexivity |].
    split; [lia |]. split.
    + cbn [conv_scopes flat_map ev_op conv_scope app].
      fold (conv_scopes evs). rewrite (coarse_run_scopes _ _ _ _ _ _ _ Hrun).
      unfold range, base_fpn_max_level. rewrite map_map, Hlen.
      apply map_ext. intros k. f_equal. lia.
    + intros k m Hk.
      destruct (coarse_run_nth _ _ _ _ _ _ _ Hrun _ _ Hk)
        as (i & prev & p & n & Hi & Hprev & Hin & Hn & Hev).
      rewrite Hdepth in Hn. injection Hn as <-.
      apply range_nth_inv in Hi. destruct Hi as [-> _].
      unfold base_fpn_max_level in Hev.
      replace (Z.min (_fpn_max_level self) 5 + 1 + Z.of_nat k
               - Z.min (_fpn_max_level self) 5 + 19)
        with (20 + Z.of_nat k) in Hev by lia.
      exists prev, p. split; [exact Hprev |]. split.
      * eapply conv_input_weaken; [| exact Hin].
        intros ev H. right. right. right. exact H.
      * right. right. right. exact Hev.
  - intros x1 g1 padded g2 net image_features keys inputs depth g3
           fpn_features fpn_maps last
           Hcheck Hpad Hbb Hkeys Hins Hdepth Hfpn Hmaps Hlast.
    destruct (run_enters_the_loop v self x g t g' r x1 padded net g1 g2
                image_features keys inputs depth g3 fpn_features fpn_maps last
                Hcheck Hpad Hbb Hkeys Hins Hdepth Hfpn Hmaps Hlast Hrun)
      as (evs & Ht & Hcases & Hfirst).
    exists evs. split; [exact Ht |]. split.
    + intros Hmax. unfold base_fpn_max_level in Hfirst.
      destruct (Hfirst 6 (range 7 (_fpn_max_level self + 1)))
        as (res & rest & ->).
      { rewrite Z.min_r by lia. rewrite (range_cons (5 + 1)) by lia.
        reflexivity. }
      exists res, rest. unfold first_coarse_call.
      rewrite Z.min_r by lia. reflexivity.
    + intros Hall.
      destruct Hcases as [(ms & -> & Hc) | (e & pre & ev & -> & -> & Hev)].
      * exists ms. split; [reflexivity |].
        rewrite (coarse_run_length _ _ _ _ _ _ _ Hc), range_length.
        unfold base_fpn_max_level. lia.
      * exfalso. rewrite forallb_forall in Hall.
        assert (Hin : In ev (pre ++ [ev]))
          by (apply in_or_app; right; left; reflexivity).
        specialize (Hall ev Hin).
        rewrite (returned_raised _ _ Hev) in Hall. discriminate Hall.
Qed.

(** C6.  For a fixed instance, the library calls of a run of
    [extract_features], taken without the tensors they are applied to (which
    calls, in which order, under which scopes and with which other
    arguments), follow [layer_plan], which is computed from the attributes of
    the instance alone.  The calls of any run, returning or raising, are the
    first calls of the plan, and those of a run that returns are the whole
    plan: two runs that return, on any two inputs and from any two graphs,
    make the same calls.  A run is a function of the input and of the graph
    it starts from: on equal inputs from equal graphs the calls, the graph
    reached and the result are equal. *)
Theorem layers_depend_on_the_instance_only
    v self x1 x2 g1 g2 t1 t2 g1' g2' (r1 r2 : result (list tensor)) :
  run (extract_features v self x1) g1 = (t1, g1', r1) ->
  run (extract_features v self x2) g2 = (t2, g2', r2) ->
  (exists rest, layer_plan v self = signatures t1 ++ rest) /\
  (exists rest, layer_plan v self = signatures t2 ++ rest) /\
  ((exists maps, r1 = Ok maps) -> signatures t1 = layer_plan v self) /\
  ((exists maps, r2 = Ok maps) -> signatures t2 = layer_plan v self) /\
  (x1 = x2 -> g1 = g2 -> t1 = t2 /\ g1' = g2' /\ r1 = r2).
Proof.
  intros H1 H2. repeat apply conj.
  - exact (run_follows_plan _ _ _ _ _ _ _ H1).
  - exact (run_follows_plan _ _ _ _ _ _ _ H2).
  - intros (maps & ->). apply run_returns_iff in H1.
    exact (successful_run_signatures _ _ _ _ _ _ _ H1).
  - intros (maps & ->). apply run_returns_iff in H2.
    exact (successful_run_signatures _ _ _ _ _ _ _ H2).
  - intros -> ->. rewrite H1 in H2. injection H2 as -> -> ->.
    repeat split.
Qed.

End PyramidClaims.

(** C8.  On a tensor of one of the floating-point dtypes [float16],
    [bfloat16], [float32] and [float64], [preprocess] of either class keeps
    the dtype and the shape and maps every element [v] to
    [(2.0 / 255.0) * v - 1.0], evaluated as the code writes it: the quotient
    in Python floats, then rounded to the dtype, the product and the
    difference each rounded to nearest even.  0 is mapped to -1, 255 to 1,
    and every element that is a number of the dtype between 0 and 255 to a
    number between -1 and 1. *)
Theorem preprocess_maps_pixels_into_the_unit_range (x : IEEE.ieee_tensor) :
  In (IEEE.t_dtype x)
     [IEEE.float16; IEEE.bfloat16; IEEE.float32; IEEE.float64] ->
  let dt := IEEE.t_dtype x in
  let y := A1.preprocess (TA := IEEE.arith) x in
  B1.preprocess (TA := IEEE.arith) x = y /\
  IEEE.t_dtype y = dt /\
  IEEE.t_shape y = IEEE.t_shape x /\
  IEEE.t_data y = map (IEEE.pixel dt) (IEEE.t_data x) /\
  IEEE.pixel dt (IEEE.of_int dt 0) = IEEE.of_int dt (-1) /\
  IEEE.pixel dt (IEEE.of_int dt 255) = IEEE.of_int dt 1 /\
  forall i v q,
    nth_error (IEEE.t_data x) i = Some v ->
    IEEE.valid dt v ->
    IEEE.value v = Some q ->
    (inject_Z 0 <= q <= inject_Z 255)%Q ->
    exists o q',
      nth_error (IEEE.t_data y) i = Some o /\
      IEEE.value o = Some q' /\
      (inject_Z (-1) <= q' <= inject_Z 1)%Q.
Proof.
  intros Hdt dt y.
  assert (Hdata : IEEE.t_data y = map (IEEE.pixel dt) (IEEE.t_data x)).
  { unfold y, A1.preprocess. cbn [tensor_sub tensor_rmul IEEE.arith
                                  IEEE.t_data IEEE.t_dtype].
    rewrite map_map. reflexivity. }
  split; [reflexivity |]. split; [reflexivity |]. split; [reflexivity |].
  split; [exact Hdata |].
  split; [| split].
  - destruct Hdt as [E | [E | [E | [E | []]]]]; fold dt in E; rewrite <- E;
      vm_compute; reflexivity.
  - destruct Hdt as [E | [E | [E | [E | []]]]]; fold dt in E; rewrite <- E;
      vm_compute; reflexivity.
  - intros i v q Hv Hvalid Hq Hrange.
    pose proof (Rounding.pixel_bounded dt v q (Rounding.dtypes_ok dt Hdt)
                  Hvalid Hq Hrange) as Hb.
    destruct (Rounding.bounded_by_0_value _ Hb) as (q' & Hq' & Hr).
    exists (IEEE.pixel dt v), q'. split; [| split; [exact Hq' | exact Hr]].
    rewrite Hdata, nth_error_map, Hv. reflexivity.
Qed.

(* ================================================================== *)
(** * Failures and what is returned *)
(* ================================================================== *)

Section RunProperties.
Context {FT : FrameworkTypes} {FW : Framework}.

(** X1.  [extract_features] catches nothing and goes on after nothing: in
    any run, a library call that raised is the last call of the run, and
    the run raises the exception of that call. *)
Theorem library_failure_ends_the_run
    v self x g t g' (r : result (list tensor)) pre ev post e :
  run (extract_features v self x) g = (t, g', r) ->
  t = pre ++ ev :: post ->
  raised ev = Some e ->
  post = [] /\ r = Raise e.
Proof.
  unfold run. intros H Ht Hev.
  destruct (extract_features v self x {| st_graph := g; st_trace := [] |})
    as [s' r'] eqn:E.
  injection H as <- <- <-.
  destruct (extract_features_stops v self x _ _ _ E) as (evs & Hevs & Hend).
  cbn [st_trace app] in Hevs. rewrite Hevs in Ht.
  exact (ends_with_failure_last evs r' pre ev post e Hend Ht Hev).
Qed.

(** X2.  When the end points that [mnasnet_base] returned lack one of the
    feature blocks of the levels [fpn_min_level] to [min(fpn_max_level, 5)],
    the run raises the [KeyError] of the first block, in the order of the
    levels, that is missing; the pyramid generator is not called, and the
    padding and the backbone are the only calls made. *)
Theorem missing_end_point_raises_KeyError
    v self x g (x1 : tensor) g1 (padded : tensor) g2 (net : tensor)
    image_features keys :
  check_min_image_dim 33 x = Ok x1 ->
  run_op (pad_to_multiple x1 (_pad_to_multiple self)) g = (g1, Ok padded) ->
  run_op (mnasnet_base (sc_base self) padded (final_endpoint_of v)
            (_depth_multiplier self) (_conv_defs self)
            (_use_explicit_padding self)) g1
    = (g2, Ok (net, image_features)) ->
  feature_block_list v self = Ok keys ->
  (exists key, In key keys /\
               is_ok (dict_getitem image_features key) = false) ->
  exists before key after,
    keys = before ++ key :: after /\
    Forall (fun k => is_ok (dict_getitem image_features k) = true) before /\
    is_ok (dict_getitem image_features key) = false /\
    run (extract_features v self x) g
    = ([{| ev_op := pad_to_multiple x1 (_pad_to_multiple self);
           ev_result := Ok padded |};
        {| ev_op := mnasnet_base (sc_base self) padded (final_endpoint_of v)
                      (_depth_multiplier self) (_conv_defs self)
                      (_use_explicit_padding self);
           ev_result := Ok (net, image_features) |}],
       g2, Raise (KeyError key)).
Proof.
  intros Hcheck Hpad Hbb Hkeys (key0 & Hin0 & Hmiss0).
  assert (Hk : is_ok (keyed image_features key0) = false)
    by (unfold keyed; destruct (dict_getitem image_features key0);
        [discriminate Hmiss0 | reflexivity]).
  destruct (map_result_raises _ _ _ Hin0 Hk) as (e & Hins).
  destruct (map_result_raise_inv _ _ _ Hins)
    as (before & key & after & Hsplit & Hbefore & Hkey).
  unfold keyed in Hkey.
  destruct (dict_getitem image_features key) as [t0 | e0] eqn:Hget;
    [discriminate Hkey |].
  injection Hkey as <-. apply dict_getitem_raise in Hget as He0. subst e0.
  exists before, key, after. split; [exact Hsplit |]. split; [| split].
  - revert Hbefore. apply Forall_impl. intros k. unfold keyed.
    destruct (dict_getitem image_features k); [reflexivity | discriminate].
  - rewrite Hget. reflexivity.
  - rewrite (run_of _ _ _ _
               (raises_at_inputs v self x {| st_graph := g; st_trace := [] |}
             x1 padded net g1 g2 image_features Hcheck Hpad Hbb keys _
             Hkeys Hins)).
    reflexivity.
Qed.

(** X3.  When the dictionary that [fpn_top_down_feature_maps] returned lacks
    the [top_down_] entry of a level that [extract_features] reads (a level
    from [fpn_min_level] to [min(fpn_max_level, 5)], or [min(fpn_max_level,
    5)] itself for the last feature map), the run raises the [KeyError] of
    a missing [top_down_] entry of one of the feature blocks; no coarse
    layer is built, and the generator is the last call made. *)
Theorem missing_top_down_map_raises_KeyError
    v self x g (x1 : tensor) g1 (padded : tensor) g2 (net : tensor)
    image_features keys inputs depth g3 fpn_features level b :
  check_min_image_dim 33 x = Ok x1 ->
  run_op (pad_to_multiple x1 (_pad_to_multiple self)) g = (g1, Ok padded) ->
  run_op (mnasnet_base (sc_base self) padded (final_endpoint_of v)
            (_depth_multiplier self) (_conv_defs self)
            (_use_explicit_padding self)) g1
    = (g2, Ok (net, image_features)) ->
  feature_block_list v self = Ok keys ->
  map_result (keyed image_features) keys = Ok inputs ->
  depth_fn self (_additional_layer_depth self) = Ok depth ->
  run_op (fpn_top_down_feature_maps (sc_fpn self) inputs depth
            (_use_depthwise self) (_use_explicit_padding self)) g2
    = (g3, Ok fpn_features) ->
  In level (range (_fpn_min_level self) (Z.min (_fpn_max_level self) 5 + 1))
  \/ level = Z.min (_fpn_max_level self) 5 ->
  getitem (feature_blocks_of v) (level - 2) = Ok b ->
  is_ok (dict_getitem fpn_features (format_top_down b)) = false ->
  exists b',
    In b' (feature_blocks_of v) /\
    is_ok (dict_getitem fpn_features (format_top_down b')) = false /\
    run (extract_features v self x) g
    = ([{| ev_op := pad_to_multiple x1 (_pad_to_multiple self);
           ev_result := Ok padded |};
        {| ev_op := mnasnet_base (sc_base self) padded (final_endpoint_of v)
                      (_depth_multiplier self) (_conv_defs self)
                      (_use_explicit_padding self);
           ev_result := Ok (net, image_features) |};
        {| ev_op := fpn_top_down_feature_maps (sc_fpn self) inputs depth
                      (_use_depthwise self) (_use_explicit_padding self);
           ev_result := Ok fpn_features |}],
       g3, Raise (KeyError (format_top_down b'))).
Proof.
  intros Hcheck Hpad Hbb Hkeys Hins Hdepth Hfpn Hlevel Hb Hmiss.
  assert (Htd : forall l bl e,
            getitem (feature_blocks_of v) (l - 2) = Ok bl ->
            top_down_of v fpn_features l = Raise e ->
            In bl (feature_blocks_of v) /\
            is_ok (dict_getitem fpn_features (format_top_down bl)) = false /\
            e = KeyError (format_top_down bl)).
  { intros l bl e Hbl H. unfold top_down_of in H. rewrite Hbl in H.
    split; [exact (getitem_In _ _ _ Hbl) |]. rewrite H.
    split; [reflexivity | exact (dict_getitem_raise _ _ _ H)]. }
  assert (Hraise : top_down_of v fpn_features level
                   = Raise (KeyError (format_top_down b))).
  { unfold top_down_of. rewrite Hb.
    destruct (dict_getitem fpn_features (format_top_down b)) as [t0 | e0]
      eqn:Hget; [discriminate Hmiss |].
    rewrite (dict_getitem_raise _ _ _ Hget). reflexivity. }
  destruct (map_result (top_down_of v fpn_features)
              (range (_fpn_min_level self) (base_fpn_max_level self + 1)))
    as [fpn_maps | e] eqn:Hmaps.
  - (* the maps of the levels are there: the last feature map is not *)
    assert (Hbase : level = base_fpn_max_level self).
    { destruct Hlevel as [Hin | Heq]; [| exact Heq].
      destruct (map_result_In _ _ _ _ Hmaps Hin) as (y & Hy & _).
      rewrite Hy in Hraise. discriminate Hraise. }
    subst level.
    destruct (Htd _ _ _ Hb Hraise) as (Hin & Hno & _).
    exists b. split; [exact Hin |]. split; [exact Hno |].
    rewrite (run_of _ _ _ _
               (raises_at_last v self x {| st_graph := g; st_trace := [] |}
             x1 padded net g1 g2 image_features Hcheck Hpad Hbb
             keys inputs depth g3 fpn_features Hkeys Hins Hdepth Hfpn
             fpn_maps _ Hmaps Hraise)).
    reflexivity.
  - destruct (map_result_raise_inv _ _ _ Hmaps)
      as (before & l & after & Hsplit & _ & Hl).
    assert (Hinl : In l (range (_fpn_min_level self)
                           (base_fpn_max_level self + 1)))
      by (rewrite Hsplit; apply in_or_app; right; left; reflexivity).
    destruct (map_result_In _ _ _ _ Hkeys Hinl) as (bl & Hbl & _).
    destruct (Htd _ _ _ Hbl Hl) as (Hin & Hno & ->).
    exists bl. split; [exact Hin |]. split; [exact Hno |].
    rewrite (run_of _ _ _ _
               (raises_at_top_down v self x {| st_graph := g; st_trace := [] |}
             x1 padded net g1 g2 image_features Hcheck Hpad Hbb
             keys inputs depth g3 fpn_features Hkeys Hins Hdepth Hfpn
             _ Hmaps)).
    reflexivity.
Qed.

(** X4.  A level below -2 has no feature block, not even counting from the
    end of the list: when [fpn_min_level < -2] and the range of the levels
    is not empty, the run raises [IndexError] once the backbone has been
    built, and the padding and the backbone are the only calls made. *)
Theorem levels_below_the_blocks_raise_IndexError
    v self x g (x1 : tensor) g1 (padded : tensor) g2 (net : tensor)
    image_features :
  check_min_image_dim 33 x = Ok x1 ->
  run_op (pad_to_multiple x1 (_pad_to_multiple self)) g = (g1, Ok padded) ->
  run_op (mnasnet_base (sc_base self) padded (final_endpoint_of v)
            (_depth_multiplier self) (_conv_defs self)
            (_use_explicit_padding self)) g1
    = (g2, Ok (net, image_features)) ->
  _fpn_min_level self < -2 ->
  _fpn_min_level self <= Z.min (_fpn_max_level self) 5 ->
  run (extract_features v self x) g
  = ([{| ev_op := pad_to_multiple x1 (_pad_to_multiple self);
         ev_result := Ok padded |};
      {| ev_op := mnasnet_base (sc_base self) padded (final_endpoint_of v)
                    (_depth_multiplier self) (_conv_defs self)
                    (_use_explicit_padding self);
         ev_result := Ok (net, image_features) |}],
     g2, Raise IndexError).
Proof.
  intros Hcheck Hpad Hbb Hlow Hle.
  assert (Hkeys : feature_block_list v self = Raise IndexError).
  { unfold feature_block_list, base_fpn_max_level.
    rewrite range_cons by lia. cbn [map_result].
    rewrite (getitem_feature_blocks_below v _ Hlow). reflexivity. }
  rewrite (run_of _ _ _ _
             (raises_at_feature_blocks v self x
                {| st_graph := g; st_trace := [] |}
                x1 padded net g1 g2 image_features Hcheck Hpad Hbb _ Hkeys)).
  reflexivity.
Qed.

(** X5.  A run returns only with levels that the four feature blocks can
    serve: [fpn_max_level] is at least -2, and [fpn_min_level] is at least
    -2 or above [min(fpn_max_level, 5)]. *)
Theorem returning_runs_have_levels_in_reach v self x g t g' maps :
  run (extract_features v self x) g = (t, g', Ok maps) ->
  -2 <= _fpn_max_level self /\
  (-2 <= _fpn_min_level self \/
   Z.min (_fpn_max_level self) 5 < _fpn_min_level self).
Proof.
  intros H. apply run_returns_iff in H.
  destruct H as [x1 padded g1 net image_features g2 keys inputs depth
                 fpn_features g3 fpn_maps last g' evs coarse
                 Hcheck Hpad Hbb Hkeys Hins Hdepth Hfpn Hmaps Hlast Hrun].
  unfold feature_block_list, base_fpn_max_level in *. split.
  - destruct (Z.lt_ge_cases (Z.min (_fpn_max_level self) 5) (-2)) as [Hlt | Hge];
      [| lia].
    unfold top_down_of in Hlast.
    rewrite (getitem_feature_blocks_below v _ Hlt) in Hlast.
    discriminate Hlast.
  - destruct (Z.lt_ge_cases (_fpn_min_level self) (-2)) as [Hlt | Hge];
      [| left; lia].
    destruct (Z.lt_ge_cases (Z.min (_fpn_max_level self) 5)
                (_fpn_min_level self)) as [Hemp | Hne]; [right; exact Hemp |].
    rewrite range_cons in Hkeys by lia. cbn [map_result] in Hkeys.
    rewrite (getitem_feature_blocks_below v _ Hlt) in Hkeys.
    discriminate Hkeys.
Qed.

(** X6.  The list a run returns holds one map for every level from
    [fpn_min_level] to [min(fpn_max_level, 5)] and one for every level
    above 5 up to [fpn_max_level], whatever the levels and the libraries
    are. *)
Theorem number_of_returned_maps v self x g t g' maps :
  run (extract_features v self x) g = (t, g', Ok maps) ->
  List.length maps
  = (Z.to_nat (Z.min (_fpn_max_level self) 5 - _fpn_min_level self + 1)
     + Z.to_nat (_fpn_max_level self - 5))%nat.
Proof.
  intros H. apply run_returns_iff in H.
  destruct H as [x1 padded g1 net image_features g2 keys inputs depth
                 fpn_features g3 fpn_maps last g' evs coarse
                 Hcheck Hpad Hbb Hkeys Hins Hdepth Hfpn Hmaps Hlast Hrun].
  unfold base_fpn_max_level in *.
  rewrite length_app, (map_result_length _ _ _ Hmaps),
    (coarse_run_length _ _ _ _ _ _ _ Hrun), !range_length.
  lia.
Qed.

End RunProperties.

(* ================================================================== *)
(** * The calls of any run *)
(* ================================================================== *)

Section CallProperties.
Context {FT : FrameworkTypes} {FW : Framework}.

(** X7.  Whenever the pyramid generator is called it gets one input for
    every level from [fpn_min_level] to [min(fpn_max_level, 5)]: none when
    [fpn_min_level] is above that, and more than four, with an end point of
    the backbone passed twice, when the levels span more than the four
    feature blocks, which a [fpn_min_level] from -2 to 1 allows. *)
Theorem pyramid_inputs_count_and_repeats
    v self x g t g' (r : result (list tensor)) ev sc inputs depth ud uep :
  run (extract_features v self x) g = (t, g', r) ->
  In ev t ->
  ev_op ev = fpn_top_down_feature_maps sc inputs depth ud uep ->
  List.length inputs
  = Z.to_nat (Z.min (_fpn_max_level self) 5 - _fpn_min_level self + 1) /\
  (NoDup (map fst inputs) <->
   Z.min (_fpn_max_level self) 5 - _fpn_min_level self < 4).
Proof.
  intros Hrun Hin Hop.
  destruct (run_call_justified _ _ _ _ _ _ _ _ Hrun Hin)
    as (pre & post & _ & HJ).
  unfold justified in HJ. rewrite Hop in HJ.
  destruct HJ as ((x1 & padded & net & image_features & keys
                   & _ & Hkeys & Hins) & _).
  rewrite <- (length_map fst), (map_result_keyed_fst _ _ _ Hins).
  unfold feature_block_list, base_fpn_max_level in Hkeys.
  split.
  - rewrite (map_result_length _ _ _ Hkeys), range_length. f_equal. lia.
  - clear Hins Hop Hin Hrun.
    set (hi := Z.min (_fpn_max_level self) 5) in *.
    assert (Hhi : hi <= 5) by (subst hi; lia).
    clearbody hi.
    set (lo := _fpn_min_level self) in *. clearbody lo.
    destruct (Z.lt_ge_cases hi lo) as [Hemp | Hne].
    + rewrite range_empty in Hkeys by lia. injection Hkeys as <-.
      split; [intros _; lia | intros _; constructor].
    + assert (Hlo : -2 <= lo).
      { destruct (Z.lt_ge_cases lo (-2)) as [Hlt | Hge]; [| exact Hge].
        rewrite range_cons in Hkeys by lia. cbn [map_result] in Hkeys.
        rewrite (getitem_feature_blocks_below v _ Hlt) in Hkeys.
        discriminate Hkeys. }
      assert (Elo : In lo (range (-2) 6)) by (apply range_In; lia).
      assert (Ehi : In hi (range (-2) 6)) by (apply range_In; lia).
      rewrite <- distinct_NoDup.
      cbv in Elo, Ehi.
      repeat (destruct Elo as [<- | Elo]; [| try contradiction]);
        repeat (destruct Ehi as [<- | Ehi]; [| try contradiction]);
        try (exfalso; lia);
        destruct v; vm_compute in Hkeys; injection Hkeys as <-;
        vm_compute; split; intros H;
        first [reflexivity | discriminate H].
Qed.

(** X8.  In any run, returning or raising, the convolutions of the coarse
    loop are built under the scopes [bottom_up_Conv2d_20],
    [bottom_up_Conv2d_21], ... without a gap, at most one for each level
    above 5, and no scope is used twice. *)
Theorem coarse_scopes_are_consecutive
    v self x g t g' (r : result (list tensor)) :
  run (extract_features v self x) g = (t, g', r) ->
  exists n,
    (n <= Z.to_nat (_fpn_max_level self - 5))%nat /\
    conv_scopes t
    = map (fun k => format_bottom_up_Conv2d (20 + Z.of_nat k)) (seq 0 n) /\
    NoDup (conv_scopes t).
Proof.
  intros Hrun.
  destruct (run_follows_plan _ _ _ _ _ _ _ Hrun) as (rest & Hplan).
  destruct (plan_scopes v self) as (n & Hn & Hscopes).
  rewrite Hplan, sig_scopes_app, <- conv_scopes_signatures in Hscopes.
  destruct (prefix_of_map_seq _ _ _ _ _ Hscopes) as [Ht Hlen].
  exists (List.length (conv_scopes t)). split; [lia |].
  split; [exact Ht |]. rewrite Ht.
  apply Finite.Injective_map_NoDup_in; [| apply seq_NoDup].
  intros a b _ _ Hab. apply format_bottom_up_Conv2d_inj in Hab. lia.
Qed.

(** X9.  In any run, the pyramid and every convolution of the coarse loop
    are asked for the same number of output channels: the value of
    [depth_fn(additional_layer_depth)], which is never below [min_depth]. *)
Theorem layers_share_one_depth
    v self x g t g' (r : result (list tensor)) ev n :
  run (extract_features v self x) g = (t, g', r) ->
  In ev t ->
  layer_depth (ev_op ev) = Some n ->
  depth_fn self (_additional_layer_depth self) = Ok n /\
  _min_depth self <= n.
Proof.
  intros Hrun Hin Hn.
  destruct (run_call_justified _ _ _ _ _ _ _ _ Hrun Hin)
    as (pre & post & _ & HJ).
  unfold justified in HJ.
  assert (Hd : depth_fn self (_additional_layer_depth self) = Ok n).
  { destruct (ev_op ev); cbn [layer_depth] in Hn; try discriminate Hn;
      injection Hn as ->.
    - destruct HJ as (_ & _ & Hd & _). exact Hd.
    - destruct HJ as (_ & _ & Hd & _). exact Hd.
    - destruct HJ as (_ & _ & Hd & _). exact Hd. }
  split; [exact Hd |].
  unfold depth_fn in Hd.
  destruct (int_mul_float _ _) as [p |]; [| discriminate Hd].
  destruct (int_of_float p) as [k |]; [| discriminate Hd].
  injection Hd as <-. lia.
Qed.

(** X10.  The calls of any run come in the order of the text: the first
    call is [pad_to_multiple], the second [mnasnet_base], the third
    [fpn_top_down_feature_maps], and every later one belongs to the coarse
    loop; so the input is padded, and the backbone and the pyramid are
    built, at most once. *)
Theorem calls_come_in_order
    v self x g t g' (r : result (list tensor)) i ev :
  run (extract_features v self x) g = (t, g', r) ->
  nth_error t i = Some ev ->
  stage (ev_op ev) = Nat.min i 3.
Proof.
  intros Hrun Hi.
  rewrite <- sig_stage_signature.
  exact (plan_stage v self i _ (run_nth_plan _ _ _ _ _ _ _ _ _ Hrun Hi)).
Qed.

(** X11.  A run makes at most three calls and, for each level above 5, one
    more, or two under explicit padding; a run that returns makes exactly
    that many. *)
Theorem number_of_calls v self x g t g' (r : result (list tensor)) :
  run (extract_features v self x) g = (t, g', r) ->
  (List.length t <= most_calls self)%nat /\
  (is_ok r = true -> List.length t = most_calls self).
Proof.
  intros Hrun.
  destruct (plan_length v self) as [Hle Heq]. split.
  - destruct (run_follows_plan _ _ _ _ _ _ _ Hrun) as (rest & Hplan).
    rewrite Hplan, length_app in Hle. unfold signatures in Hle.
    rewrite length_map in Hle. lia.
  - destruct r as [maps | e]; [intros _ | discriminate].
    apply run_returns_iff in Hrun.
    rewrite <- Heq.
    + rewrite <- (successful_run_signatures _ _ _ _ _ _ _ Hrun).
      unfold signatures. rewrite length_map. reflexivity.
    + destruct Hrun. match goal with H : feature_block_list _ _ = _ |- _ =>
                                       rewrite H end. reflexivity.
    + destruct Hrun. match goal with H : depth_fn _ _ = _ |- _ =>
                                       rewrite H end. reflexivity.
Qed.

(** X12.  With a depth multiplier that is a NaN or an infinity, [depth_fn]
    raises [ValueError] or [OverflowError] on every depth.  The backbone,
    when it is called, is called with that multiplier; no run returns, and
    none makes a call after the backbone. *)
Theorem non_finite_depth_multiplier_stops_before_the_pyramid
    v self x g t g' (r : result (list tensor)) :
  isfinite (_depth_multiplier self) = false ->
  run (extract_features v self x) g = (t, g', r) ->
  (forall d, depth_fn self d = Raise ValueError \/
             depth_fn self d = Raise OverflowError) /\
  is_ok r = false /\
  (forall ev, In ev t -> (stage (ev_op ev) < 2)%nat) /\
  (forall ev sc x' fe dm defs uep,
     In ev t -> ev_op ev = mnasnet_base sc x' fe dm defs uep ->
     dm = _depth_multiplier self).
Proof.
  intros Hm Hrun.
  assert (Hdepth : forall d, depth_fn self d = Raise ValueError \/
                             depth_fn self d = Raise OverflowError).
  { intros d. unfold depth_fn, int_mul_float, float_of_int, fmul.
    destruct (_depth_multiplier self) as [sm | sm | | sm mm em];
      try discriminate Hm;
      destruct (binary_normalize prec emax d 0 false) as [s | s | | s m e];
      cbn [SFmul int_of_float]; auto. }
  split; [exact Hdepth |].
  assert (Hplan : List.length (layer_plan v self) = 2%nat).
  { unfold layer_plan.
    destruct (Hdepth (_additional_layer_depth self)) as [-> | ->];
      destruct (feature_block_list v self); reflexivity. }
  split.
  - destruct r as [maps | e]; [| reflexivity].
    apply run_returns_iff in Hrun. destruct Hrun.
    match goal with H : depth_fn _ _ = Ok _ |- _ =>
      destruct (Hdepth (_additional_layer_depth self)) as [E | E];
      rewrite E in H; discriminate H
    end.
  - split.
    + intros ev Hin. apply In_nth_error in Hin. destruct Hin as [i Hi].
      pose proof (run_nth_plan _ _ _ _ _ _ _ _ _ Hrun Hi) as Hnth.
      assert (Hlt : (i < 2)%nat)
        by (rewrite <- Hplan; apply nth_error_Some; congruence).
      rewrite <- sig_stage_signature, (plan_stage _ _ _ _ Hnth). lia.
    + intros ev sc x' fe dm defs uep Hin Hop.
      destruct (run_call_justified _ _ _ _ _ _ _ _ Hrun Hin)
        as (pre & post & _ & HJ).
      unfold justified in HJ. rewrite Hop in HJ.
      destruct HJ as (_ & _ & _ & Hdm & _). exact Hdm.
Qed.

(** X13.  [extract_features] does not look at [is_training]: an instance
    with another value of the flag makes the same calls, reaches the same
    graph and gives the same result, on every input and from every
    graph. *)
Theorem is_training_is_not_used v self b x g :
  run (extract_features v (with_is_training b self) x) g
  = run (extract_features v self x) g.
Proof. destruct v; reflexivity. Qed.

End CallProperties.

(* ================================================================== *)
(** * Levels below the documented ones *)
(* ================================================================== *)

Section LowLevels.
Context {FT : FrameworkTypes} {FW : Framework}.

(** X14.  A [fpn_min_level] from -2 to 1, below the documented values, is
    not rejected.  On an input that passes the size check, when [depth_fn]
    of [additional_layer_depth] is defined, a run in which every library
    call made returned ([mnasnet_base] with the four feature blocks among
    its end points, [fpn_top_down_feature_maps] with a [top_down_] entry per
    input) returns [fpn_max_level - fpn_min_level + 1] maps, and the map it
    returns for a level [L] below 2 is the top-down map of the feature block
    of level [L + 4]: [feature_blocks[L - 2]] counts from the end of the
    list. *)
Theorem low_levels_are_served_from_the_end v self x g t g' r :
  -2 <= _fpn_min_level self < 2 ->
  _fpn_min_level self <= _fpn_max_level self ->
  is_ok (check_min_image_dim 33 x) = true \/
  (check_min_image_dim_spec /\
   exists h w, image_height x = Some h /\ image_width x = Some w /\
               33 <= h /\ 33 <= w) ->
  is_ok (depth_fn self (_additional_layer_depth self)) = true ->
  run (extract_features v self x) g = (t, g', r) ->
  calls_returned v t = true ->
  exists maps,
    r = Ok maps /\
    List.length maps
    = Z.to_nat (_fpn_max_level self - _fpn_min_level self + 1) /\
    forall j m,
      nth_error maps j = Some m ->
      _fpn_min_level self + Z.of_nat j < 2 ->
      level_map v self t (_fpn_min_level self + Z.of_nat j + 4) m.
Proof.
  intros Hmin Hle Hsize Hdepth Hrun Hcalm.
  destruct (size_check_passes x Hsize) as [x1 Hcheck].
  destruct (calm_run_returns v self x g t g' r x1 Hcheck ltac:(lia) Hle
              Hdepth Hrun Hcalm) as [maps ->].
  apply run_returns_iff in Hrun.
  exists maps. split; [reflexivity |]. split.
  - apply (successful_run_length _ _ _ _ _ _ _ Hrun); lia.
  - intros j m Hj Hlow.
    pose proof (successful_run_levels _ _ _ _ _ _ _ Hrun ltac:(lia) Hle
                  j m Hj) as Hlevel.
    destruct Hlevel as [sc inputs depth ud uep fpn_features _ Hin Htd
                       | x0 n Hhigh _]; [| lia].
    apply (level_top_down v self t _ m sc inputs depth ud uep fpn_features);
      [lia | exact Hin |].
    apply top_down_of_wrapped; [lia | exact Htd].
Qed.

End LowLevels.

(* ================================================================== *)
(** * Scopes *)
(* ================================================================== *)

Section ScopeProperties.
Context {FT : FrameworkTypes} {FW : Framework}.

(** X15.  In any run the backbone is built under the variable scope
    [Mnasnet], and the pyramid and the convolutions of the coarse loop
    under [fpn] inside [Mnasnet], each scope with the [reuse_weights] of the
    instance.  The argument scope of [conv_hyperparams_fn()] is the only
    one around the pyramid and the coarse loop; around the backbone it
    comes third, after the training scope (asked for with
    [is_training=None] and [bn_decay=0.9997]) and the [min_depth] of
    [depth_multiplier_fn], and only when
    [override_base_feature_extractor_hyperparams] is set. *)
Theorem layers_are_built_under_their_scopes
    v self x g t g' (r : result (list tensor)) ev sc :
  run (extract_features v self x) g = (t, g', r) ->
  In ev t ->
  op_scopes (ev_op ev) = Some sc ->
  (stage (ev_op ev) = 1%nat /\
   variable_scope sc = [("Mnasnet"%string, _reuse_weights self)] /\
   arg_scopes sc
   = [ arg_scope_dict (training_scope None bn_decay);
       arg_scope_ops ["mnasnet.depth_multiplier_fn"%string]
                     [("min_depth"%string, _min_depth self)];
       if _override_base_feature_extractor_hyperparams self
       then arg_scope_dict (_conv_hyperparams_fn self tt)
       else IdentityContextManager ]) \/
  ((2 <= stage (ev_op ev))%nat /\
   variable_scope sc = [("Mnasnet"%string, _reuse_weights self);
                        ("fpn"%string, _reuse_weights self)] /\
   arg_scopes sc = [arg_scope_dict (_conv_hyperparams_fn self tt)]).
Proof.
  intros Hrun Hin Hsc.
  destruct (run_call_justified _ _ _ _ _ _ _ _ Hrun Hin)
    as (pre & post & _ & HJ).
  unfold justified in HJ.
  destruct (ev_op ev); cbn [op_scopes] in Hsc; try discriminate Hsc;
    injection Hsc as ->; cbn [stage].
  - destruct HJ as (_ & -> & _). left. repeat split.
  - destruct HJ as (_ & -> & _). right. split; [lia | split; reflexivity].
  - destruct HJ as (_ & -> & _). right. split; [lia | split; reflexivity].
  - destruct HJ as (_ & -> & _). right. split; [lia | split; reflexivity].
Qed.

End ScopeProperties.

(* ================================================================== *)
(** * Depths and defaults *)
(* ================================================================== *)

Section DepthProperties.
Context {FT : FrameworkTypes} {FW : Framework}.

(** X16.  With the depth multiplier [1.0], [depth_fn] changes a depth [d]
    only to raise it to [min_depth]: for every [d] from 0 up to [2^53], the
    integers that a Python float holds exactly,
    [depth_fn(d) = max(d, min_depth)], and nothing is raised. *)
Theorem depth_fn_with_multiplier_one self d :
  _depth_multiplier self = float_lit 1 ->
  0 <= d < 2 ^ 53 ->
  depth_fn self d = Ok (Z.max d (_min_depth self)).
Proof.
  intros Hdm Hd. unfold depth_fn, int_mul_float. rewrite Hdm.
  destruct d as [| p | p]; [reflexivity | | lia].
  destruct (Exact.float_of_int_exact p (proj2 Hd))
    as (m & e & Hf & He & Hm & Hdig).
  rewrite Hf, (Exact.fmul_one_exact m e Hdig He).
  cbn [int_of_float cond_Zopp].
  rewrite Z.shiftl_div_pow2 by lia.
  rewrite Hm, Z.div_mul; [reflexivity |].
  apply Z.pow_nonzero; lia.
Qed.

(** X17.  An instance built with the default keyword arguments (levels 3
    to 7, depth 256, no explicit padding, no depthwise convolution), in a
    run that returns, makes five calls: the padding of the input, the
    backbone, the pyramid over the second, third and fourth feature block,
    and two ordinary 3x3 convolutions of stride 2 with ['SAME'] padding
    under [bottom_up_Conv2d_20] and [bottom_up_Conv2d_21]; it returns five
    feature maps. *)
Theorem default_instance_builds_five_maps
    v it dm md ptm chf x g t g' maps :
  let self := init v (with_defaults it dm md ptm chf) in
  run (extract_features v self x) g = (t, g', Ok maps) ->
  exists n,
    depth_fn self 256 = Ok n /\
    signatures t
    = [ sig_pad_to_multiple ptm;
        sig_mnasnet_base (sc_base self) (final_endpoint_of v) dm
          (_conv_defs self) false;
        sig_fpn_top_down_feature_maps (sc_fpn self)
          (skipn 1 (feature_blocks_of v)) n false false;
        sig_conv2d (sc_fpn self) n [3; 3] 2 "SAME" "bottom_up_Conv2d_20";
        sig_conv2d (sc_fpn self) n [3; 3] 2 "SAME" "bottom_up_Conv2d_21" ] /\
    List.length maps = 5%nat.
Proof.
  intros self Hrun. apply run_returns_iff in Hrun.
  pose proof (successful_run_signatures _ _ _ _ _ _ _ Hrun) as Hsig.
  destruct Hrun as [x1 padded g1 net image_features g2 keys inputs depth
                    fpn_features g3 fpn_maps last g' evs coarse
                    Hcheck Hpad Hbb Hkeys Hins Hdepth Hfpn Hmaps Hlast Hrun].
  exists depth.
  assert (Hd : depth_fn self 256 = Ok depth) by (destruct v; exact Hdepth).
  split; [exact Hd |]. split.
  - rewrite Hsig. unfold layer_plan.
    replace (depth_fn self (_additional_layer_depth self)) with (Ok depth)
      by (destruct v; symmetry; exact Hd).
    destruct v; reflexivity.
  - rewrite length_app, (map_result_length _ _ _ Hmaps),
      (coarse_run_length _ _ _ _ _ _ _ Hrun), !range_length.
    destruct v; reflexivity.
Qed.

End DepthProperties.

(* ================================================================== *)
(** * Pixels *)
(* ================================================================== *)

(** X18.  [preprocess] keeps the order of the 8-bit pixel values: of two
    elements that hold integers [j < k] between 0 and 255, in a tensor of
    one of the four floating-point dtypes, the first comes out strictly
    below the second, so that different pixel values stay different; with
    one exception: in [bfloat16], 254 and 255 both come out as 1. *)
Theorem preprocess_orders_the_8_bit_values (x : IEEE.ieee_tensor) i1 i2 j k :
  In (IEEE.t_dtype x)
     [IEEE.float16; IEEE.bfloat16; IEEE.float32; IEEE.float64] ->
  nth_error (IEEE.t_data x) i1 = Some (IEEE.of_int (IEEE.t_dtype x) j) ->
  nth_error (IEEE.t_data x) i2 = Some (IEEE.of_int (IEEE.t_dtype x) k) ->
  0 <= j < k /\ k <= 255 ->
  exists a b,
    nth_error (IEEE.t_data (A1.preprocess (TA := IEEE.arith) x)) i1 = Some a /\
    nth_error (IEEE.t_data (A1.preprocess (TA := IEEE.arith) x)) i2 = Some b /\
    SFleb a b = true /\
    (IEEE.t_dtype x = IEEE.bfloat16 /\ j = 254 /\ k = 255 ->
     a = b /\ a = IEEE.of_int IEEE.bfloat16 1) /\
    (~ (IEEE.t_dtype x = IEEE.bfloat16 /\ j = 254 /\ k = 255) ->
     SFltb a b = true).
Proof.
  intros Hdt H1 H2 Hjk.
  exists (IEEE.pixel (IEEE.t_dtype x) (IEEE.of_int (IEEE.t_dtype x) j)),
         (IEEE.pixel (IEEE.t_dtype x) (IEEE.of_int (IEEE.t_dtype x) k)).
  rewrite BytesFacts.preprocess_data, !nth_error_map, H1, H2.
  split; [reflexivity |]. split; [reflexivity |].
  assert (Hlt : forall dt n,
            Bytes.increasing (Bytes.pixels dt n) = true -> k < n ->
            SFltb (IEEE.pixel dt (IEEE.of_int dt j))
                  (IEEE.pixel dt (IEEE.of_int dt k)) = true).
  { intros dt n Hinc Hn.
    apply (BytesFacts.increasing_nth _ Hinc (Z.to_nat j) (Z.to_nat k));
      [lia | apply BytesFacts.pixels_nth; lia | apply BytesFacts.pixels_nth; lia]. }
  assert (Hother : forall dt,
            dt <> IEEE.bfloat16 ->
            Bytes.increasing (Bytes.pixels dt 256) = true ->
            IEEE.t_dtype x = dt ->
            SFleb (IEEE.pixel dt (IEEE.of_int dt j))
                  (IEEE.pixel dt (IEEE.of_int dt k)) = true /\
            (dt = IEEE.bfloat16 /\ j = 254 /\ k = 255 ->
             IEEE.pixel dt (IEEE.of_int dt j)
             = IEEE.pixel dt (IEEE.of_int dt k) /\
             IEEE.pixel dt (IEEE.of_int dt j)
             = IEEE.of_int IEEE.bfloat16 1) /\
            (~ (dt = IEEE.bfloat16 /\ j = 254 /\ k = 255) ->
             SFltb (IEEE.pixel dt (IEEE.of_int dt j))
                   (IEEE.pixel dt (IEEE.of_int dt k)) = true)).
  { intros dt Hne Hinc _.
    pose proof (Hlt dt 256 Hinc ltac:(lia)) as L.
    split; [exact (BytesFacts.SFltb_SFleb _ _ L) |].
    split; [intros [E _]; contradiction | intros _; exact L]. }
  destruct Hdt as [E | [E | [E | [E | []]]]]; rewrite <- E.
  - apply (Hother IEEE.float16);
      [intros D; apply (f_equal IEEE.dt_prec) in D; discriminate D
      | vm_compute; reflexivity | symmetry; exact E].
  - (* bfloat16 *)
    assert (Hinc : Bytes.increasing (Bytes.pixels IEEE.bfloat16 255) = true)
      by (vm_compute; reflexivity).
    assert (Htie : IEEE.pixel IEEE.bfloat16 (IEEE.of_int IEEE.bfloat16 254)
                   = IEEE.pixel IEEE.bfloat16 (IEEE.of_int IEEE.bfloat16 255))
      by (vm_compute; reflexivity).
    destruct (Z.eq_dec k 255) as [-> | Hk].
    + destruct (Z.eq_dec j 254) as [-> | Hj].
      * split; [vm_compute; reflexivity |].
        split; [intros _; split; vm_compute; reflexivity |].
        intros Hno. exfalso. apply Hno. repeat split.
      * assert (L : SFltb (IEEE.pixel IEEE.bfloat16
                             (IEEE.of_int IEEE.bfloat16 j))
                          (IEEE.pixel IEEE.bfloat16
                             (IEEE.of_int IEEE.bfloat16 255)) = true).
        { rewrite <- Htie.
          apply (BytesFacts.increasing_nth _ Hinc (Z.to_nat j) (Z.to_nat 254));
            [lia | apply BytesFacts.pixels_nth; lia
            | apply BytesFacts.pixels_nth; lia]. }
        split; [exact (BytesFacts.SFltb_SFleb _ _ L) |].
        split; [intros (_ & Hj' & _); contradiction | intros _; exact L].
    + pose proof (Hlt IEEE.bfloat16 255 Hinc ltac:(lia)) as L.
      split; [exact (BytesFacts.SFltb_SFleb _ _ L) |].
      split; [intros (_ & _ & Hk'); contradiction | intros _; exact L].
  - apply (Hother IEEE.float32);
      [intros D; apply (f_equal IEEE.dt_prec) in D; discriminate D
      | vm_compute; reflexivity | symmetry; exact E].
  - apply (Hother IEEE.float64);
      [intros D; apply (f_equal IEEE.dt_prec) in D; discriminate D
      | vm_compute; reflexivity | symmetry; exact E].
Qed.

(** X19.  [preprocess] raises nothing and hides nothing on elements that
    are not numbers: in each of the four floating-point dtypes a NaN comes
    out as a NaN and an infinity as the same infinity, at the same
    position. *)
Theorem preprocess_keeps_non_finite_values (x : IEEE.ieee_tensor) i v :
  In (IEEE.t_dtype x)
     [IEEE.float16; IEEE.bfloat16; IEEE.float32; IEEE.float64] ->
  nth_error (IEEE.t_data x) i = Some v ->
  isfinite v = false ->
  nth_error (IEEE.t_data (A1.preprocess (TA := IEEE.arith) x)) i = Some v /\
  nth_error (IEEE.t_data (B1.preprocess (TA := IEEE.arith) x)) i = Some v.
Proof.
  intros Hdt Hv Hnf.
  assert (H : IEEE.pixel (IEEE.t_dtype x) v = v).
  { destruct Hdt as [E | [E | [E | [E | []]]]]; rewrite <- E;
      destruct v as [s | [] | | s m e]; try discriminate Hnf;
      vm_compute; reflexivity. }
  change (B1.preprocess (TA := IEEE.arith) x)
    with (A1.preprocess (TA := IEEE.arith) x).
  rewrite BytesFacts.preprocess_data, nth_error_map, Hv. cbn [option_map].
  rewrite H. split; reflexivity.
Qed.

(* ================================================================== *)
(** * Concrete runs *)
(* ================================================================== *)

Module Examples.
Import Symbolic.

Lemma small_images_are_rejected_witness :
  let self := init MNASNetA1 default_args in
  (exists (t : list event) g' r,
     run (extract_features MNASNetA1 self (Image 32 64)) [] = (t, g', r) /\
     t = [] /\ g' = [] /\ r = Raise ValueError) /\
  (exists (t : list event) g' r,
     run (extract_features MNASNetA1 self (Image 33 40)) [] = (t, g', r) /\
     exists res rest,
       t = {| ev_op := pad_to_multiple (Image 33 40) 1;
              ev_result := res |} :: rest).
Proof.
  intros self. split.
  - do 3 eexists. split; [reflexivity |].
    exact (small_images_are_rejected MNASNetA1 self (Image 32 64) []
             32 64 _ _ _ SymbolicFacts.check_spec eq_refl eq_refl eq_refl).
  - do 3 eexists. split; [reflexivity |].
    exact (small_images_are_rejected MNASNetA1 self (Image 33 40) []
             33 40 _ _ _ SymbolicFacts.check_spec eq_refl eq_refl eq_refl).
Defined.


Lemma backbone_final_endpoint_witness :
  final_endpoint_of MNASNetB1 = "layer_19"%string /\
  exists res,
    In {| ev_op := mnasnet_base (sc_base b1_default)
                     (Layer "pad_to_multiple" "1" (Image 64 64)) "layer_19"
                     one MNASNET_B1_DEF false;
          ev_result := res |} (trace_of run_b1).
Proof.
  assert (Hrun : run (extract_features MNASNetB1 b1_default (Image 64 64)) []
                 = (trace_of run_b1, graph_of run_b1, result_of run_b1))
    by (vm_compute; reflexivity).
  destruct (backbone_final_endpoint MNASNetB1 b1_default (Image 64 64) []
              (trace_of run_b1) (graph_of run_b1) (result_of run_b1) Hrun)
    as (H1 & _ & _ & H4).
  split; [exact H1 |].
  exact (H4 (Image 64 64) _ _ eq_refl eq_refl).
Defined.

Lemma fpn_inputs_are_the_feature_blocks_witness :
  map fst (fpn_inputs_of (trace_of run_a1))
  = ["layer_7"; "layer_13"; "layer_18"]%string /\
  (exists padded net image_features,
     In {| ev_op := mnasnet_base (sc_base a1_default) padded "layer_18"
                      (_depth_multiplier a1_default) (_conv_defs a1_default)
                      (_use_explicit_padding a1_default);
           ev_result := Ok (net, image_features) |} (trace_of run_a1) /\
     Forall2
       (fun level input =>
          getitem (feature_blocks_of MNASNetA1) (level - 2) = Ok (fst input)
          /\ (2 <= level ->
              nth_error (feature_blocks_of MNASNetA1) (Z.to_nat (level - 2))
              = Some (fst input))
          /\ dict_getitem image_features (fst input) = Ok (snd input))
       (range 3 6) (fpn_inputs_of (trace_of run_a1))) /\
  (exists image_features inputs depth res,
     depth_fn a1_default (_additional_layer_depth a1_default) = Ok depth /\
     In {| ev_op := fpn_top_down_feature_maps (sc_fpn a1_default) inputs depth
                      false false;
           ev_result := res |} (trace_of run_a1) /\
     Forall2
       (fun level input =>
          getitem (feature_blocks_of MNASNetA1) (level - 2) = Ok (fst input)
          /\ (2 <= level ->
              nth_error (feature_blocks_of MNASNetA1) (Z.to_nat (level - 2))
              = Some (fst input))
          /\ dict_getitem image_features (fst input) = Ok (snd input))
       (range 3 6) inputs).
Proof.
  split; [reflexivity |].
  assert (Hrun : run (extract_features MNASNetA1 a1_default (Image 64 64)) []
                 = (trace_of run_a1, graph_of run_a1, result_of run_a1))
    by (vm_compute; reflexivity).
  assert (Hin : In (nth 2 (trace_of run_a1)
                      {| ev_op := fixed_padding (Image 0 0) 0;
                         ev_result := Raise ValueError |})
                   (trace_of run_a1))
    by (right; right; left; reflexivity).
  destruct (fpn_inputs_are_the_feature_blocks MNASNetA1 a1_default
              (Image 64 64) [] (trace_of run_a1) (graph_of run_a1)
              (result_of run_a1) Hrun) as (_ & Hcalled & Hcalls).
  split.
  - exact (Hcalled _ (sc_fpn a1_default) (fpn_inputs_of (trace_of run_a1))
             256 false false Hin eq_refl).
  - eexists.
    eapply (Hcalls (Image 64 64));
      [reflexivity | reflexivity | reflexivity | reflexivity
      | simpl; lia | reflexivity].
Defined.

Lemma extract_features_returns_the_pyramid_witness :
  calls_returned MNASNetA1 (trace_of run_a1) = true /\
  exists maps,
    result_of run_a1 = Ok maps /\
    List.length maps = 5%nat /\
    forall j m,
      nth_error maps j = Some m ->
      level_map MNASNetA1 a1_default (trace_of run_a1) (3 + Z.of_nat j) m.
Proof.
  split; [reflexivity |].
  apply (extract_features_returns_the_pyramid MNASNetA1 a1_default
           (Image 64 64) [] (trace_of run_a1) (graph_of run_a1)
           (result_of run_a1)).
  - simpl. lia.
  - simpl. lia.
  - right. split; [exact SymbolicFacts.check_spec |].
    exists 64, 64. repeat split; lia.
  - reflexivity.
  - vm_compute. reflexivity.
  - reflexivity.
Defined.

(** C1 without a lower bound on the levels fails: with [fpn_min_level = -3]
    and [fpn_max_level = 7], on a 64 by 64 image, [feature_blocks[-5]] raises
    [IndexError] and nothing is returned. *)
Lemma extract_features_raises_on_low_levels :
  _fpn_min_level a1_low <= _fpn_max_level a1_low /\
  image_height (Image 64 64) = Some 64 /\
  image_width (Image 64 64) = Some 64 /\
  33 <= 64 /\
  result_of (run (extract_features MNASNetA1 a1_low (Image 64 64)) [])
  = Raise IndexError.
Proof.
  split; [simpl; lia |]. split; [reflexivity |]. split; [reflexivity |].
  split; [lia | reflexivity].
Qed.

Lemma coarse_maps_follow_the_pyramid_witness :
  conv_scopes (trace_of run_b1_padded)
  = ["bottom_up_Conv2d_20"; "bottom_up_Conv2d_21"; "bottom_up_Conv2d_22"]%string
  /\ (exists maps inputs depth fpn_features fpn_maps last coarse,
       result_of run_b1_padded = Ok maps /\
       In {| ev_op := fpn_top_down_feature_maps (sc_fpn b1_padded) inputs depth
                        true true;
             ev_result := Ok fpn_features |} (trace_of run_b1_padded) /\
       map_result (top_down_of MNASNetB1 fpn_features) (range 2 6)
         = Ok fpn_maps /\
       top_down_of MNASNetB1 fpn_features 5 = Ok last /\
       maps = fpn_maps ++ coarse /\
       List.length coarse = 3%nat /\
       conv_scopes (trace_of run_b1_padded)
         = map (fun k => format_bottom_up_Conv2d (20 + Z.of_nat k))
               (seq 0 (List.length coarse)) /\
       forall k m,
         nth_error coarse k = Some m ->
         exists prev p,
           previous_map last coarse k = Some prev /\
           conv_input b1_padded (trace_of run_b1_padded) prev p /\
           In (conv_event b1_padded p depth
                 (format_bottom_up_Conv2d (20 + Z.of_nat k)) (Ok m))
              (trace_of run_b1_padded)) /\
  (exists last depth fpn_maps res rest coarse,
     skipn 3 (trace_of run_b1_padded)
     = first_coarse_call b1_padded last depth res :: rest /\
     result_of run_b1_padded = Ok (fpn_maps ++ coarse) /\
     List.length coarse = 3%nat).
Proof.
  split; [reflexivity |].
  assert (Hrun : run (extract_features MNASNetB1 b1_padded (Image 300 300)) []
                 = (trace_of run_b1_padded, graph_of run_b1_padded,
                    result_of run_b1_padded))
    by (vm_compute; reflexivity).
  destruct (coarse_maps_follow_the_pyramid MNASNetB1 b1_padded
              (Image 300 300) [] (trace_of run_b1_padded)
              (graph_of run_b1_padded) (result_of run_b1_padded) Hrun)
    as (_ & Hmaps & Hloop).
  split.
  - eexists.
    destruct (Hmaps _ eq_refl)
      as (inputs & depth & fpn_features & fpn_maps & last & coarse & H).
    exists inputs, depth, fpn_features, fpn_maps, last, coarse.
    split; [reflexivity | exact H].
  - edestruct (Hloop (Image 300 300)) as (tail & Ht & Hfirst & Hreturns);
      [reflexivity | reflexivity | reflexivity | reflexivity | reflexivity
      | reflexivity | reflexivity | reflexivity | reflexivity |].
    assert (Htail : tail = skipn 3 (trace_of run_b1_padded))
      by (rewrite Ht; reflexivity).
    destruct Hfirst as (res & rest & Hres); [simpl; lia |].
    destruct Hreturns as (coarse & Hr & Hlen);
      [rewrite Htail; reflexivity |].
    do 3 eexists. exists res, rest, coarse.
    split; [rewrite <- Htail; exact Hres |].
    split; [exact Hr | exact Hlen].
Defined.

Lemma layers_depend_on_the_instance_only_witness :
  signatures (trace_of run_a1) = layer_plan MNASNetA1 a1_default /\
  signatures (trace_of run_a1_other) = layer_plan MNASNetA1 a1_default /\
  List.length (layer_plan MNASNetA1 a1_default) = 5%nat.
Proof.
  assert (Hrun1 : run (extract_features MNASNetA1 a1_default (Image 64 64)) []
                  = (trace_of run_a1, graph_of run_a1,
                     Ok (maps_of run_a1)))
    by (vm_compute; reflexivity).
  assert (Hrun2 : run (extract_features MNASNetA1 a1_default (Image 100 80))
                      ["already there"%string]
                  = (trace_of run_a1_other, graph_of run_a1_other,
                     Ok (maps_of run_a1_other)))
    by (vm_compute; reflexivity).
  destruct (layers_depend_on_the_instance_only MNASNetA1 a1_default
              (Image 64 64) (Image 100 80) [] ["already there"%string]
              (trace_of run_a1) (trace_of run_a1_other)
              (graph_of run_a1) (graph_of run_a1_other)
              _ _ Hrun1 Hrun2) as (_ & _ & H1 & H2 & _).
  split; [exact (H1 (ex_intro _ _ eq_refl)) |].
  split; [exact (H2 (ex_intro _ _ eq_refl)) | reflexivity].
Defined.

Lemma preprocess_maps_pixels_into_the_unit_range_witness :
  let y := A1.preprocess (TA := IEEE.arith) IEEE.example_image in
  IEEE.t_shape y = [1; 2; 2; 3] /\
  exists o q',
    nth_error (IEEE.t_data y) 10 = Some o /\
    IEEE.value o = Some q' /\
    (inject_Z (-1) <= q' <= inject_Z 1)%Q.
Proof.
  destruct (preprocess_maps_pixels_into_the_unit_range IEEE.example_image
              (or_intror (or_intror (or_introl eq_refl))))
    as (_ & _ & Hshape & _ & _ & _ & H).
  split; [exact Hshape |].
  eapply (H 10%nat); [reflexivity | reflexivity | reflexivity |].
  unfold Qle, inject_Z. cbn [Qnum Qden]. split; vm_compute; discriminate.
Defined.

Lemma library_failure_ends_the_run_witness :
  exists pre ev,
    trace_of Cases.run_a1_high = pre ++ [ev] /\
    raised ev = Some IndexError /\
    result_of Cases.run_a1_high = Raise IndexError.
Proof.
  assert (Hrun : run (extract_features MNASNetA1 Cases.a1_high (Image 64 64))
                     []
                 = (trace_of Cases.run_a1_high, graph_of Cases.run_a1_high,
                    result_of Cases.run_a1_high))
    by (vm_compute; reflexivity).
  pose (ev := {| ev_op := fpn_top_down_feature_maps (sc_fpn Cases.a1_high)
                            [] 256 false false;
                 ev_result := Raise IndexError |}).
  assert (Ht : trace_of Cases.run_a1_high
               = firstn 2 (trace_of Cases.run_a1_high) ++ ev :: [])
    by (vm_compute; reflexivity).
  destruct (library_failure_ends_the_run MNASNetA1 Cases.a1_high (Image 64 64)
              [] _ _ _ _ ev [] IndexError Hrun Ht eq_refl) as [_ Hr].
  exists (firstn 2 (trace_of Cases.run_a1_high)), ev.
  split; [exact Ht |]. split; [reflexivity | exact Hr].
Defined.

Lemma missing_end_point_raises_KeyError_witness :
  exists key t g',
    run (extract_features (FW := Canned.framework [] [])
           MNASNetA1 a1_default (Image 64 64)) []
    = (t, g', Raise (KeyError key)) /\
    List.length t = 2%nat.
Proof.
  destruct (missing_end_point_raises_KeyError (FW := Canned.framework [] [])
              MNASNetA1 a1_default (Image 64 64) []
              (Image 64 64) _ _ _ _ [] _
              eq_refl eq_refl eq_refl eq_refl
              (ex_intro _ "layer_7"%string (conj (or_introl eq_refl) eq_refl)))
    as (before & key & after & _ & _ & _ & Hrun).
  exists key. do 2 eexists. split; [exact Hrun | reflexivity].
Defined.

Lemma missing_top_down_map_raises_KeyError_witness :
  exists b t g',
    run (extract_features (FW := Canned.framework Canned.three_blocks [])
           MNASNetA1 a1_default (Image 64 64)) []
    = (t, g', Raise (KeyError (format_top_down b))) /\
    List.length t = 3%nat.
Proof.
  destruct (missing_top_down_map_raises_KeyError
              (FW := Canned.framework Canned.three_blocks [])
              MNASNetA1 a1_default (Image 64 64) []
              (Image 64 64) _ _ _ _ Canned.three_blocks _ _ 256 _ [] 3
              "layer_7"%string
              eq_refl eq_refl eq_refl eq_refl eq_refl eq_refl eq_refl
              (or_introl (or_introl eq_refl)) eq_refl eq_refl)
    as (b & _ & _ & Hrun).
  exists b. do 2 eexists. split; [exact Hrun | reflexivity].
Defined.

Lemma levels_below_the_blocks_raise_IndexError_witness :
  exists t g',
    run (extract_features MNASNetA1 a1_low (Image 64 64)) []
    = (t, g', Raise IndexError) /\
    List.length t = 2%nat.
Proof.
  do 2 eexists. split.
  - refine (levels_below_the_blocks_raise_IndexError MNASNetA1 a1_low
              (Image 64 64) [] (Image 64 64) _ _ _ _ _
              eq_refl eq_refl eq_refl _ _);
      vm_compute; [reflexivity | discriminate].
  - reflexivity.
Defined.

Lemma returning_runs_have_levels_in_reach_witness :
  -2 <= _fpn_max_level b1_padded /\
  (-2 <= _fpn_min_level b1_padded \/
   Z.min (_fpn_max_level b1_padded) 5 < _fpn_min_level b1_padded).
Proof.
  assert (Hrun : run (extract_features MNASNetB1 b1_padded (Image 300 300)) []
                 = (trace_of run_b1_padded, graph_of run_b1_padded,
                    Ok (maps_of run_b1_padded)))
    by (vm_compute; reflexivity).
  exact (returning_runs_have_levels_in_reach MNASNetB1 b1_padded
           (Image 300 300) [] _ _ _ Hrun).
Defined.

Lemma number_of_returned_maps_witness :
  List.length (maps_of run_b1_padded) = 7%nat.
Proof.
  assert (Hrun : run (extract_features MNASNetB1 b1_padded (Image 300 300)) []
                 = (trace_of run_b1_padded, graph_of run_b1_padded,
                    Ok (maps_of run_b1_padded)))
    by (vm_compute; reflexivity).
  rewrite (number_of_returned_maps MNASNetB1 b1_padded
             (Image 300 300) [] _ _ _ Hrun).
  reflexivity.
Defined.

Lemma pyramid_inputs_count_and_repeats_witness :
  List.length (fpn_inputs_of (trace_of Cases.run_a1_wrapped)) = 5%nat /\
  ~ NoDup (map fst (fpn_inputs_of (trace_of Cases.run_a1_wrapped))).
Proof.
  assert (Hrun : run (extract_features MNASNetA1 Cases.a1_wrapped
                        (Image 64 64)) []
                 = (trace_of Cases.run_a1_wrapped,
                    graph_of Cases.run_a1_wrapped,
                    result_of Cases.run_a1_wrapped))
    by (vm_compute; reflexivity).
  assert (Hin : In (Cases.call_at (trace_of Cases.run_a1_wrapped) 2)
                   (trace_of Cases.run_a1_wrapped))
    by (vm_compute; right; right; left; reflexivity).
  destruct (pyramid_inputs_count_and_repeats MNASNetA1 Cases.a1_wrapped
              (Image 64 64) [] _ _ _
              (Cases.call_at (trace_of Cases.run_a1_wrapped) 2)
              (sc_fpn Cases.a1_wrapped)
              (fpn_inputs_of (trace_of Cases.run_a1_wrapped))
              256 false false Hrun Hin eq_refl) as [Hlen Hdup].
  split.
  - rewrite Hlen. reflexivity.
  - intros H. apply Hdup in H. vm_compute in H. discriminate H.
Defined.

Lemma coarse_scopes_are_consecutive_witness :
  conv_scopes (trace_of run_b1_padded)
  = ["bottom_up_Conv2d_20"; "bottom_up_Conv2d_21";
     "bottom_up_Conv2d_22"]%string /\
  NoDup (conv_scopes (trace_of run_b1_padded)).
Proof.
  assert (Hrun : run (extract_features MNASNetB1 b1_padded (Image 300 300)) []
                 = (trace_of run_b1_padded, graph_of run_b1_padded,
                    result_of run_b1_padded))
    by (vm_compute; reflexivity).
  destruct (coarse_scopes_are_consecutive MNASNetB1 b1_padded (Image 300 300)
              [] _ _ _ Hrun) as (n & _ & _ & Hnodup).
  split; [vm_compute; reflexivity | exact Hnodup].
Defined.

Lemma layers_share_one_depth_witness :
  depth_fn a1_default (_additional_layer_depth a1_default) = Ok 256 /\
  _min_depth a1_default <= 256.
Proof.
  assert (Hrun : run (extract_features MNASNetA1 a1_default (Image 64 64)) []
                 = (trace_of run_a1, graph_of run_a1, result_of run_a1))
    by (vm_compute; reflexivity).
  assert (Hin : In (Cases.call_at (trace_of run_a1) 4) (trace_of run_a1))
    by (vm_compute; do 4 right; left; reflexivity).
  exact (layers_share_one_depth MNASNetA1 a1_default (Image 64 64) [] _ _ _
           (Cases.call_at (trace_of run_a1) 4) 256 Hrun Hin eq_refl).
Defined.

Lemma calls_come_in_order_witness :
  stage (ev_op (Cases.call_at (trace_of run_a1) 1)) = 1%nat /\
  stage (ev_op (Cases.call_at (trace_of run_a1) 4)) = 3%nat.
Proof.
  assert (Hrun : run (extract_features MNASNetA1 a1_default (Image 64 64)) []
                 = (trace_of run_a1, graph_of run_a1, result_of run_a1))
    by (vm_compute; reflexivity).
  assert (H1 : nth_error (trace_of run_a1) 1
               = Some (Cases.call_at (trace_of run_a1) 1))
    by (vm_compute; reflexivity).
  assert (H4 : nth_error (trace_of run_a1) 4
               = Some (Cases.call_at (trace_of run_a1) 4))
    by (vm_compute; reflexivity).
  split.
  - exact (calls_come_in_order MNASNetA1 a1_default (Image 64 64) [] _ _ _
             1%nat _ Hrun H1).
  - exact (calls_come_in_order MNASNetA1 a1_default (Image 64 64) [] _ _ _
             4%nat _ Hrun H4).
Defined.

Lemma number_of_calls_witness :
  List.length (trace_of run_b1_padded) = 9%nat.
Proof.
  assert (Hrun : run (extract_features MNASNetB1 b1_padded (Image 300 300)) []
                 = (trace_of run_b1_padded, graph_of run_b1_padded,
                    result_of run_b1_padded))
    by (vm_compute; reflexivity).
  destruct (number_of_calls MNASNetB1 b1_padded (Image 300 300) [] _ _ _ Hrun)
    as [_ Heq].
  rewrite Heq; reflexivity.
Defined.

Lemma non_finite_depth_multiplier_stops_before_the_pyramid_witness :
  is_ok (result_of Cases.run_b1_nan) = false /\
  (List.length (trace_of Cases.run_b1_nan) <= 2)%nat.
Proof.
  assert (Hrun : run (extract_features MNASNetB1 Cases.b1_nan (Image 64 64)) []
                 = (trace_of Cases.run_b1_nan, graph_of Cases.run_b1_nan,
                    result_of Cases.run_b1_nan))
    by (vm_compute; reflexivity).
  destruct (non_finite_depth_multiplier_stops_before_the_pyramid MNASNetB1
              Cases.b1_nan (Image 64 64) [] _ _ _ eq_refl Hrun)
    as (_ & Hr & _).
  split; [exact Hr | vm_compute; lia].
Defined.

Lemma depth_fn_with_multiplier_one_witness :
  depth_fn a1_default 8 = Ok 16 /\ depth_fn a1_default 256 = Ok 256.
Proof.
  split.
  - apply (depth_fn_with_multiplier_one a1_default 8);
      [reflexivity | split; [lia | reflexivity]].
  - apply (depth_fn_with_multiplier_one a1_default 256);
      [reflexivity | split; [lia | reflexivity]].
Defined.

Lemma default_instance_builds_five_maps_witness :
  List.length (trace_of run_b1) = 5%nat /\
  List.length (maps_of run_b1) = 5%nat.
Proof.
  assert (Hrun : run (extract_features MNASNetB1 b1_default (Image 64 64)) []
                 = (trace_of run_b1, graph_of run_b1, Ok (maps_of run_b1)))
    by (vm_compute; reflexivity).
  destruct (default_instance_builds_five_maps (FT := types) MNASNetB1
              true one 16 1 (fun _ => "conv_hyperparams"%string)
              (Image 64 64) [] _ _ _ Hrun)
    as (n & _ & Hsig & Hlen).
  split; [| exact Hlen].
  apply (f_equal (@List.length _)) in Hsig.
  unfold signatures in Hsig. rewrite length_map in Hsig. exact Hsig.
Defined.

Lemma preprocess_orders_the_8_bit_values_witness :
  exists a b,
    nth_error (IEEE.t_data (A1.preprocess (TA := IEEE.arith) Bytes.one_pixel))
              0 = Some a /\
    nth_error (IEEE.t_data (A1.preprocess (TA := IEEE.arith) Bytes.one_pixel))
              2 = Some b /\
    SFltb a b = true.
Proof.
  assert (Hjk : 0 <= 253 < 255 /\ 255 <= 255) by lia.
  destruct (preprocess_orders_the_8_bit_values Bytes.one_pixel 0 2 253 255
              (or_intror (or_introl eq_refl)) eq_refl eq_refl Hjk)
    as (a & b & Ha & Hb & _ & _ & Hlt).
  exists a, b. split; [exact Ha |]. split; [exact Hb |].
  apply Hlt. intros (_ & H & _). discriminate H.
Defined.

Lemma preprocess_keeps_non_finite_values_witness :
  nth_error (IEEE.t_data (A1.preprocess (TA := IEEE.arith)
                            Bytes.broken_pixel)) 1
  = Some (S754_infinity false).
Proof.
  exact (proj1 (preprocess_keeps_non_finite_values Bytes.broken_pixel 1
                  (S754_infinity false)
                  (or_intror (or_intror (or_introl eq_refl)))
                  eq_refl eq_refl)).
Defined.

Lemma layers_are_built_under_their_scopes_witness :
  exists sc,
    op_scopes (ev_op (Cases.call_at (trace_of run_a1) 3)) = Some sc /\
    variable_scope sc = [("Mnasnet"%string, None); ("fpn"%string, None)] /\
    arg_scopes sc = [arg_scope_dict "conv_hyperparams"%string].
Proof.
  assert (Hrun : run (extract_features MNASNetA1 a1_default (Image 64 64)) []
                 = (trace_of run_a1, graph_of run_a1, result_of run_a1))
    by (vm_compute; reflexivity).
  assert (Hin : In (Cases.call_at (trace_of run_a1) 3) (trace_of run_a1))
    by (vm_compute; do 3 right; left; reflexivity).
  destruct (layers_are_built_under_their_scopes MNASNetA1 a1_default
              (Image 64 64) [] _ _ _ (Cases.call_at (trace_of run_a1) 3)
              (sc_fpn a1_default) Hrun Hin eq_refl)
    as [(Hstage & _) | (_ & Hvs & Has)].
  - vm_compute in Hstage. discriminate Hstage.
  - exists (sc_fpn a1_default). split; [reflexivity |].
    split; [exact Hvs | exact Has].
Defined.

Lemma low_levels_are_served_from_the_end_witness :
  calls_returned MNASNetA1 (trace_of Cases.run_a1_below) = true /\
  map fst (fpn_inputs_of (trace_of Cases.run_a1_below))
  = ["layer_4"; "layer_7"; "layer_13"; "layer_18"]%string /\
  exists maps,
    result_of Cases.run_a1_below = Ok maps /\
    List.length maps = 4%nat /\
    forall j m,
      nth_error maps j = Some m ->
      -2 + Z.of_nat j < 2 ->
      level_map MNASNetA1 Cases.a1_below (trace_of Cases.run_a1_below)
        (-2 + Z.of_nat j + 4) m.
Proof.
  split; [reflexivity |]. split; [reflexivity |].
  apply (low_levels_are_served_from_the_end MNASNetA1 Cases.a1_below
           (Image 64 64) [] (trace_of Cases.run_a1_below)
           (graph_of Cases.run_a1_below) (result_of Cases.run_a1_below)).
  - simpl. lia.
  - simpl. lia.
  - left. reflexivity.
  - reflexivity.
  - vm_compute. reflexivity.
  - reflexivity.
Defined.

End Examples.
